(** * AI-PPTX (Gamma AI): the relational store, [execute_query], the editor
    client and the generation pipeline

    The development follows the repository file by file:
    - [InitDb]    : the tables created by [init_db] in models/database.PY
                    (users, presentations, slides) with their PRIMARY KEY,
                    NOT NULL, UNIQUE and FOREIGN KEY ... ON DELETE CASCADE
                    constraints, and the DML statements run against them;
    - [Database]  : [execute_query] of models/database.PY, with its
                    try / except / finally control flow written out;
    - [SchemaSql] : database/schema.sql, the [is_public] column and the view
                    [popular_presentations];
    - [Editor]    : js/editor.js, [generatePresentation] and [renderSlides];
    - [Generation]: the generation orchestrator and the persistence step;
    - [Config], [InitDbRun] : [get_db_config], database/init_db.sh and the
                    run of [init_db] against the catalog of the server;
    - [InitDbKeys]: the foreign and primary keys of the three tables;
    - [SchemaSqlViews] : the admin row and the view [user_statistics] of
                    database/schema.sql;
    - [Js], [EditorContent], [EditorRun], [EditorExport] : the values of the
                    client scripts, [formatSlideContent] and the export
                    functions of js/editor.js;
    - [Api], [Auth] : js/api.js and js/auth.js;
    - [StartSh]   : start.sh. *)

From Stdlib Require Import ZArith List String Ascii Bool Lia.
From Stdlib Require Import DecimalString.
Import ListNotations.

Local Open Scope string_scope.
Local Open Scope list_scope.
Local Open Scope Z_scope.

Set Implicit Arguments.

(* ================================================================== *)
(** * Results of fallible operations *)
(* ================================================================== *)

(** Server and connector errors (subclasses of [mysql.connector.Error]). *)
Inductive db_error : Type :=
| ColumnCannotBeNull (column : string)      (* error 1048 *)
| DuplicateEntry (index : string)           (* error 1062 *)
| ForeignKeyFails (column : string)         (* error 1452 *)
| PoolError                                 (* get_connection failed *)
| InterfaceError                            (* cursor / fetch failed *)
| OperationalError                          (* execute / commit failed *)
| InternalError.                            (* Unread result found *)

Inductive result (A : Type) : Type :=
| Ok (a : A)
| Err (e : db_error).

Arguments Ok {A} a.
Arguments Err {A} e.

(* ================================================================== *)
(** * models/database.PY: the tables of [init_db] *)
(* ================================================================== *)

Module InitDb.

(** Columns of type INT are integers and columns of type VARCHAR, TEXT and
    JSON are strings: the bounds of INT, the lengths of VARCHAR(n) and the
    well-formedness of JSON values, which the server checks depending on its
    SQL mode, are not modelled. *)

(** CREATE TABLE users: id, name, email, password.  The two TIMESTAMP
    columns are filled by the server clock and are left out; the INDEX
    clauses do not constrain the data. *)
Record user : Type := mkUser {
  user_id : Z;
  user_name : string;
  user_email : string;
  user_password : string
}.

(** CREATE TABLE presentations. *)
Record presentation : Type := mkPresentation {
  pres_id : Z;
  pres_user_id : Z;
  pres_title : string;
  pres_prompt : string;
  pres_slides_count : Z;
  pres_output_type : string;
  pres_style : string;
  pres_theme : string;
  pres_language : string;
  pres_image_style : string;
  pres_text_amount : string;
  pres_ai_model : string
}.

(** CREATE TABLE slides.  Only [presentation_id] and [slide_number] are
    NOT NULL; the other columns may hold NULL ([None]). *)
Record slide : Type := mkSlide {
  slide_id : Z;
  slide_presentation_id : Z;
  slide_number : Z;
  slide_title : option string;
  slide_content : option string;
  slide_layout : option string;
  slide_image_url : option string;
  slide_background : option string;
  slide_animation : option string;
  slide_notes : option string;
  slide_metadata : option string
}.

(** The committed contents of the three tables, rows in insertion order. *)
Record db : Type := mkDb {
  users : list user;
  presentations : list presentation;
  slides : list slide
}.

Definition empty_db : db := mkDb [] [] [].

(** The nullable columns of an INSERT INTO slides, after the two keys. *)
Record slide_cols : Type := mkSlideCols {
  col_title : option string;
  col_content : option string;
  col_layout : option string;
  col_image_url : option string;
  col_background : option string;
  col_animation : option string;
  col_notes : option string;
  col_metadata : option string
}.

(** The columns of presentations that carry a DEFAULT; [None] is a column
    left out of the INSERT, which takes the DEFAULT of the DDL. *)
Record pres_cols : Type := mkPresCols {
  col_slides_count : option Z;
  col_output_type : option string;
  col_style : option string;
  col_theme : option string;
  col_language : option string;
  col_image_style : option string;
  col_text_amount : option string;
  col_ai_model : option string
}.

Definition no_pres_cols : pres_cols :=
  mkPresCols None None None None None None None None.

(** DML statements over the three tables.  For a NOT NULL column without
    DEFAULT an argument [None] is a NULL parameter. *)
Inductive stmt : Type :=
| InsertUser (name email password : option string)
| UpdateUserEmail (id : Z) (email : option string)
| DeleteUser (id : Z)
| InsertPresentation (user_id : option Z) (title prompt : option string)
                     (cols : pres_cols)
| UpdatePresentationTitle (id : Z) (title : option string)
| DeletePresentation (id : Z)
| InsertSlide (presentation_id slide_number : option Z) (cols : slide_cols)
| UpdateSlide (id : Z) (slide_number : option Z) (title content : option string)
| DeleteSlide (id : Z).

Definition mem (x : Z) (l : list Z) : bool := existsb (Z.eqb x) l.

(** id INT AUTO_INCREMENT PRIMARY KEY: a generated id lies above every id of
    the table.  (The server's counter, which also skips the ids of rows that
    were deleted or never committed, is not modelled: nothing below depends
    on the value of a generated id beyond its freshness.) *)
Definition next_id (ids : list Z) : Z := 1 + fold_right Z.max 0 ids.

Definition default {A : Type} (d : A) (o : option A) : A :=
  match o with Some a => a | None => d end.

Section Collation.

(** COLLATE utf8mb4_unicode_ci: two strings are equal for the server when
    their collation keys (weight strings) are.  The key function is taken as
    a parameter. *)
Variable collation_key : string -> string.

Definition same_email (a b : string) : bool :=
  String.eqb (collation_key a) (collation_key b).

(** email VARCHAR(255) UNIQUE NOT NULL: is the value taken by a row other
    than [self]? *)
Definition email_taken (self : option Z) (e : string) (us : list user) : bool :=
  existsb (fun u =>
             same_email (user_email u) e &&
             match self with
             | Some i => negb (user_id u =? i)
             | None => true
             end) us.

Definition set_email (i : Z) (e : string) (u : user) : user :=
  if user_id u =? i
  then mkUser (user_id u) (user_name u) e (user_password u)
  else u.

Definition set_title (i : Z) (t : string) (p : presentation) : presentation :=
  if pres_id p =? i
  then mkPresentation (pres_id p) (pres_user_id p) t (pres_prompt p)
         (pres_slides_count p) (pres_output_type p) (pres_style p)
         (pres_theme p) (pres_language p) (pres_image_style p)
         (pres_text_amount p) (pres_ai_model p)
  else p.

Definition set_slide (i n : Z) (t c : option string) (s : slide) : slide :=
  if slide_id s =? i
  then mkSlide (slide_id s) (slide_presentation_id s) n t c
         (slide_layout s) (slide_image_url s) (slide_background s)
         (slide_animation s) (slide_notes s) (slide_metadata s)
  else s.

(** One statement against the data: the new data and the insert id of the
    OK packet (0 when no AUTO_INCREMENT value was generated), or the error.
    A statement is applied as a whole or not at all. *)
Definition exec_stmt (s : stmt) (d : db) : result (db * Z) :=
  match s with
  | InsertUser name email password =>
      match name, email, password with
      | None, _, _ => Err (ColumnCannotBeNull "name")
      | _, None, _ => Err (ColumnCannotBeNull "email")
      | _, _, None => Err (ColumnCannotBeNull "password")
      | Some n, Some e, Some p =>
          if email_taken None e (users d) then Err (DuplicateEntry "email")
          else
            let i := next_id (map user_id (users d)) in
            Ok (mkDb (users d ++ [mkUser i n e p]) (presentations d) (slides d), i)
      end
  | UpdateUserEmail i email =>
      if mem i (map user_id (users d)) then
        match email with
        | None => Err (ColumnCannotBeNull "email")
        | Some e =>
            if email_taken (Some i) e (users d) then Err (DuplicateEntry "email")
            else Ok (mkDb (map (set_email i e) (users d)) (presentations d) (slides d), 0)
        end
      else Ok (d, 0)
  | DeleteUser i =>
      (* FOREIGN KEY (user_id) REFERENCES users(id) ON DELETE CASCADE, then
         FOREIGN KEY (presentation_id) REFERENCES presentations(id)
         ON DELETE CASCADE *)
      let gone_users := filter (Z.eqb i) (map user_id (users d)) in
      let gone_pres :=
        map pres_id (filter (fun p => mem (pres_user_id p) gone_users) (presentations d)) in
      Ok (mkDb (filter (fun u => negb (user_id u =? i)) (users d))
               (filter (fun p => negb (mem (pres_user_id p) gone_users)) (presentations d))
               (filter (fun sl => negb (mem (slide_presentation_id sl) gone_pres)) (slides d)),
          0)
  | InsertPresentation user_id title prompt cols =>
      match user_id, title, prompt with
      | None, _, _ => Err (ColumnCannotBeNull "user_id")
      | _, None, _ => Err (ColumnCannotBeNull "title")
      | _, _, None => Err (ColumnCannotBeNull "prompt")
      | Some u, Some t, Some p =>
          if mem u (map InitDb.user_id (users d)) then
            let i := next_id (map pres_id (presentations d)) in
            let row :=
              mkPresentation i u t p
                (default 10 (col_slides_count cols))
                (default "presentation" (col_output_type cols))
                (default "business" (col_style cols))
                (default "alien" (col_theme cols))
                (default "en-uk" (col_language cols))
                (default "illustration" (col_image_style cols))
                (default "moderate" (col_text_amount cols))
                (default "gemini-2.0-flash" (col_ai_model cols)) in
            Ok (mkDb (users d) (presentations d ++ [row]) (slides d), i)
          else Err (ForeignKeyFails "user_id")
      end
  | UpdatePresentationTitle i title =>
      if mem i (map pres_id (presentations d)) then
        match title with
        | None => Err (ColumnCannotBeNull "title")
        | Some t => Ok (mkDb (users d) (map (set_title i t) (presentations d)) (slides d), 0)
        end
      else Ok (d, 0)
  | DeletePresentation i =>
      let gone_pres := filter (Z.eqb i) (map pres_id (presentations d)) in
      Ok (mkDb (users d)
               (filter (fun p => negb (pres_id p =? i)) (presentations d))
               (filter (fun sl => negb (mem (slide_presentation_id sl) gone_pres)) (slides d)),
          0)
  | InsertSlide presentation_id number cols =>
      match presentation_id, number with
      | None, _ => Err (ColumnCannotBeNull "presentation_id")
      | _, None => Err (ColumnCannotBeNull "slide_number")
      | Some p, Some n =>
          if mem p (map pres_id (presentations d)) then
            let i := next_id (map slide_id (slides d)) in
            let row :=
              mkSlide i p n (col_title cols) (col_content cols) (col_layout cols)
                (col_image_url cols) (col_background cols) (col_animation cols)
                (col_notes cols) (col_metadata cols) in
            Ok (mkDb (users d) (presentations d) (slides d ++ [row]), i)
          else Err (ForeignKeyFails "presentation_id")
      end
  | UpdateSlide i number title content =>
      if mem i (map slide_id (slides d)) then
        match number with
        | None => Err (ColumnCannotBeNull "slide_number")
        | Some n =>
            Ok (mkDb (users d) (presentations d) (map (set_slide i n title content) (slides d)), 0)
        end
      else Ok (d, 0)
  | DeleteSlide i =>
      Ok (mkDb (users d) (presentations d)
               (filter (fun sl => negb (slide_id sl =? i)) (slides d)),
          0)
  end.

(** PRIMARY KEY (id) and UNIQUE (email) on users: no two rows share an id,
    no two rows share an email (up to the collation). *)
Definition users_ok (d : db) : Prop :=
  NoDup (map user_id (users d))
  /\ NoDup (map (fun u => collation_key (user_email u)) (users d)).

End Collation.

(** FOREIGN KEY (presentation_id) REFERENCES presentations(id): every slide
    row belongs to a presentation row. *)
Definition slides_reference_presentations (d : db) : Prop :=
  forall s, In s (slides d) ->
            exists p, In p (presentations d) /\ pres_id p = slide_presentation_id s.

Definition of_presentation (p : Z) (s : slide) : bool := slide_presentation_id s =? p.

(** The ordinal positions of the slides of presentation [p], in row order. *)
Definition slide_numbers (p : Z) (d : db) : list Z :=
  map slide_number (filter (of_presentation p) (slides d)).

(** Unique, and contiguous starting at 1. *)
Definition contiguous_from_1 (l : list Z) : Prop :=
  NoDup l /\ forall k, In k l <-> 1 <= k <= Z.of_nat (List.length l).

Definition numbering_ok (d : db) : Prop :=
  forall p, contiguous_from_1 (slide_numbers p d).

(** The statements on slides that keep the numbering: an INSERT at the next
    position, an UPDATE that leaves slide_number as it is, a DELETE of the
    slide at the last position.  Statements on users and presentations
    always do. *)
Definition keeps_numbering (s : stmt) (d : db) : bool :=
  match s with
  | InsertSlide (Some p) (Some n) _ =>
      n =? 1 + Z.of_nat (List.length (slide_numbers p d))
  | UpdateSlide i (Some n) _ _ =>
      forallb (fun sl => negb (slide_id sl =? i) || (slide_number sl =? n)) (slides d)
  | DeleteSlide i =>
      forallb (fun sl =>
                 negb (slide_id sl =? i)
                 || (slide_number sl
                     =? Z.of_nat (List.length (slide_numbers (slide_presentation_id sl) d))))
              (slides d)
  | _ => true
  end.

End InitDb.

(* ================================================================== *)
(** * models/database.PY: [get_connection] and [execute_query] *)
(* ================================================================== *)

Module Database.

Import InitDb.

(** A value of a result row; [cursor(dictionary=True)] returns each row as a
    dictionary from column names to values. *)
Inductive cell : Type :=
| CNull
| CInt (z : Z)
| CStr (s : string).

Definition dict_row : Type := list (string * cell).

(** The [query] argument: one of the DML statements of [InitDb], or a
    SELECT, given by the rows it returns on the data. *)
Inductive query : Type :=
| Dml (s : stmt)
| Select (sel : db -> list dict_row).

(** What [execute_query] returns: [cursor.fetchall()] or
    [cursor.lastrowid] (Python [None] when the statement produced none). *)
Inductive py_value : Type :=
| Rows (rows : list dict_row)
| LastRowId (id : option Z).

(** A Python call either returns or raises a [mysql.connector.Error]. *)
Inductive outcome (A : Type) : Type :=
| Return (a : A)
| Raise (e : db_error).

Arguments Return {A} a.
Arguments Raise {A} e.

(** The calls into the connector that may fail for reasons outside the
    program (server down, connection lost, ...).  Every property below is
    proved for every choice of these flags.  [cursor.close()] and
    [conn.close()] are taken not to raise, and every exception raised by
    the connector to be a [mysql.connector.Error]. *)
Record faults : Type := mkFaults {
  pool_fails : bool;      (* creating the MySQLConnectionPool raises *)
  connect_fails : bool;   (* connection_pool.get_connection() raises *)
  cursor_fails : bool;    (* conn.cursor(dictionary=True) raises *)
  execute_fails : bool;   (* cursor.execute raises before reaching the data *)
  fetch_fails : bool;     (* cursor.fetchall() raises *)
  commit_fails : bool;    (* conn.commit() raises *)
  rollback_fails : bool   (* conn.rollback() raises *)
}.

Definition no_faults : faults :=
  mkFaults false false false false false false false.

(** The connector calls made, in order. *)
Inductive event : Type :=
| EvGetConnection
| EvCursor
| EvExecute
| EvFetchAll
| EvCommit
| EvRollback
| EvCursorClose
| EvConnClose.

(** The state outside one call: the module global [connection_pool], the
    committed data of the server, and the connections, cursors and
    transactions that are open. *)
Record world : Type := mkWorld {
  connection_pool : bool;          (* False while the global is None *)
  committed : db;
  open_connections : nat;          (* handed out by the pool, not yet closed *)
  open_cursors : nat;
  open_transactions : nat;
  log : list event
}.

Definition initial_world (d : db) : world := mkWorld false d 0 0 0 [].

(** 'pool_size': 5 in [get_db_config]. *)
Definition pool_size : nat := 5.

(** A connection taken from the pool: the data as its session sees it,
    whether a transaction is open ('autocommit': False, so the first
    statement opens one), and whether the result set of the last statement
    has not been read yet (the cursor is not buffered). *)
Record connection : Type := mkConnection {
  work : db;
  in_transaction : bool;
  unread_result : bool
}.

Definition emit (e : event) (w : world) : world :=
  mkWorld (connection_pool w) (committed w) (open_connections w)
          (open_cursors w) (open_transactions w) (log w ++ [e]).

Definition with_pool (w : world) : world :=
  mkWorld true (committed w) (open_connections w)
          (open_cursors w) (open_transactions w) (log w).

Definition with_committed (d : db) (w : world) : world :=
  mkWorld (connection_pool w) d (open_connections w)
          (open_cursors w) (open_transactions w) (log w).

Definition with_connections (n : nat) (w : world) : world :=
  mkWorld (connection_pool w) (committed w) n
          (open_cursors w) (open_transactions w) (log w).

Definition with_cursors (n : nat) (w : world) : world :=
  mkWorld (connection_pool w) (committed w) (open_connections w)
          n (open_transactions w) (log w).

Definition with_transactions (n : nat) (w : world) : world :=
  mkWorld (connection_pool w) (committed w) (open_connections w)
          (open_cursors w) n (log w).

(** [get_connection]: creates the pool on first use, then asks it for a
    connection; both steps re-raise the connector's error.  The pool raises
    when all [pool_size] connections are in use. *)
Definition get_connection (f : faults) (w : world) : world * outcome connection :=
  let w := emit EvGetConnection w in
  if negb (connection_pool w) && pool_fails f then (w, Raise PoolError)
  else
    let w := with_pool w in
    if connect_fails f || (pool_size <=? open_connections w)%nat
    then (w, Raise PoolError)
    else (with_connections (S (open_connections w)) w,
          Return (mkConnection (committed w) false false)).

(** [conn.cursor(dictionary=True)]. *)
Definition conn_cursor (f : faults) (w : world) : world * outcome unit :=
  let w := emit EvCursor w in
  if cursor_fails f then (w, Raise InterfaceError)
  else (with_cursors (S (open_cursors w)) w, Return tt).

(** The statement on the session's data: the new data, the insert id and
    the result set, if the statement has one. *)
Section Collation.

Variable collation_key : string -> string.

Definition run_query (q : query) (d : db)
  : result (db * option Z * option (list dict_row)) :=
  match q with
  | Dml s =>
      match exec_stmt collation_key s d with
      | Ok (d', id) => Ok (d', Some id, None)
      | Err e => Err e
      end
  | Select sel => Ok (d, None, Some (sel d))
  end.

(** [cursor.execute(query, params or ())].  Reaching the server opens a
    transaction on the connection; the result set of a SELECT waits to be
    read. *)
Definition cursor_execute (f : faults) (q : query) (c : connection) (w : world)
  : world * connection * outcome (option Z * option (list dict_row)) :=
  let w := emit EvExecute w in
  if execute_fails f then (w, c, Raise OperationalError)
  else
    let w := if in_transaction c then w
             else with_transactions (S (open_transactions w)) w in
    match run_query q (work c) with
    | Ok (d', id, rs) =>
        (w, mkConnection d' true (match rs with Some _ => true | None => false end),
         Return (id, rs))
    | Err e => (w, mkConnection (work c) true false, Raise e)
    end.

(** [cursor.fetchall()]: the rows of the result set, which is read by
    it; the empty list when the statement has no result set. *)
Definition cursor_fetchall (f : faults) (rs : option (list dict_row))
           (c : connection) (w : world)
  : world * connection * outcome (list dict_row) :=
  let w := emit EvFetchAll w in
  if fetch_fails f then (w, c, Raise InterfaceError)
  else (w, mkConnection (work c) (in_transaction c) false,
        Return (match rs with Some rows => rows | None => [] end)).

(** [conn.commit()]: the session's data becomes the committed data.  With
    a result set that has not been read the connector raises InternalError
    (Unread result found) and sends nothing to the server. *)
Definition conn_commit (f : faults) (c : connection) (w : world)
  : world * connection * outcome unit :=
  let w := emit EvCommit w in
  if unread_result c then (w, c, Raise InternalError)
  else if commit_fails f then (w, c, Raise OperationalError)
  else
    let w := with_committed (work c) w in
    let w := if in_transaction c
             then with_transactions (pred (open_transactions w)) w else w in
    (w, mkConnection (work c) false false, Return tt).

(** [conn.rollback()]: the connector first reads a result set that is
    unread, then sends ROLLBACK, which may fail; the session's changes are
    dropped. *)
Definition conn_rollback (f : faults) (c : connection) (w : world)
  : world * connection * outcome unit :=
  let w := emit EvRollback w in
  let c := mkConnection (work c) (in_transaction c) false in
  if rollback_fails f then (w, c, Raise OperationalError)
  else
    let w := if in_transaction c
             then with_transactions (pred (open_transactions w)) w else w in
    (w, mkConnection (committed w) false false, Return tt).

(** [cursor.close()]. *)
Definition cursor_close (w : world) : world :=
  let w := emit EvCursorClose w in
  with_cursors (pred (open_cursors w)) w.

(** [conn.close()] on a pooled connection gives it back to the pool; with
    'pool_reset_session': True the session is reset, which ends a
    transaction still open without committing it. *)
Definition conn_close (c : connection) (w : world) : world :=
  let w := emit EvConnClose w in
  let w := if in_transaction c
           then with_transactions (pred (open_transactions w)) w else w in
  with_connections (pred (open_connections w)) w.

(** The local variables [conn] and [cursor] of [execute_query]. *)
Record locals : Type := mkLocals {
  conn : option connection;
  cursor : bool
}.

(** The [try:] block. *)
Definition try_block (q : query) (fetch : bool) (f : faults) (w : world)
  : world * locals * outcome py_value :=
  match get_connection f w with
  | (w, Raise e) => (w, mkLocals None false, Raise e)
  | (w, Return c) =>
      match conn_cursor f w with
      | (w, Raise e) => (w, mkLocals (Some c) false, Raise e)
      | (w, Return _) =>
          match cursor_execute f q c w with
          | (w, c, Raise e) => (w, mkLocals (Some c) true, Raise e)
          | (w, c, Return (id, rs)) =>
              if fetch then
                match cursor_fetchall f rs c w with
                | (w, c, Raise e) => (w, mkLocals (Some c) true, Raise e)
                | (w, c, Return rows) =>
                    (w, mkLocals (Some c) true, Return (Rows rows))
                end
              else
                match conn_commit f c w with
                | (w, c, Raise e) => (w, mkLocals (Some c) true, Raise e)
                | (w, c, Return _) => (w, mkLocals (Some c) true, Return (LastRowId id))
                end
          end
      end
  end.

(** The [except mysql.connector.Error as err:] block: roll back if a
    connection was obtained, then re-raise; an error of the rollback
    itself takes the place of the error caught. *)
Definition except_block (f : faults) (l : locals) (r : outcome py_value) (w : world)
  : world * locals * outcome py_value :=
  match r with
  | Return _ => (w, l, r)
  | Raise _ =>
      match conn l with
      | Some c =>
          match conn_rollback f c w with
          | (w, c, Return _) => (w, mkLocals (Some c) (cursor l), r)
          | (w, c, Raise e) => (w, mkLocals (Some c) (cursor l), Raise e)
          end
      | None => (w, l, r)
      end
  end.

(** The [finally:] block. *)
Definition finally_block (l : locals) (w : world) : world :=
  let w := if cursor l then cursor_close w else w in
  match conn l with
  | Some c => conn_close c w
  | None => w
  end.

Definition execute_query (q : query) (fetch : bool) (f : faults) (w : world)
  : world * outcome py_value :=
  let '(w, l, r) := try_block q fetch f w in
  let '(w, l, r) := except_block f l r w in
  (finally_block l w, r).

(** A sequence of calls, one after the other. *)
Fixpoint run_calls (cs : list (query * bool * faults)) (w : world) : world :=
  match cs with
  | [] => w
  | (q, fetch, f) :: rest => run_calls rest (fst (execute_query q fetch f w))
  end.

End Collation.

(** The number of calls of [get_connection] so far: one per call of
    [execute_query], one per transaction. *)
Definition is_get_connection (e : event) : bool :=
  match e with EvGetConnection => true | _ => false end.

Definition calls_made (w : world) : nat :=
  List.length (filter is_get_connection (log w)).



(** The connector calls of a call that commits. *)
Definition commit_trace : list event :=
  [EvGetConnection; EvCursor; EvExecute; EvCommit; EvCursorClose; EvConnClose].

(** The connector calls of a call with [fetch=False] that raises: no
    connection; no cursor; the statement fails; the commit fails or finds
    an unread result. *)
Definition failure_traces : list (list event) :=
  [ [EvGetConnection];
    [EvGetConnection; EvCursor; EvRollback; EvConnClose];
    [EvGetConnection; EvCursor; EvExecute; EvRollback; EvCursorClose; EvConnClose];
    [EvGetConnection; EvCursor; EvExecute; EvCommit; EvRollback; EvCursorClose;
     EvConnClose] ].

End Database.

(* ================================================================== *)
(** * database/schema.sql *)
(* ================================================================== *)

Module SchemaSql.

(** CREATE TABLE users (TIMESTAMP columns other than [created_at] of
    presentations are not read by any view below and are left out). *)
Record user : Type := mkUser {
  user_id : Z;
  username : string;
  email : string;
  password : string;
  full_name : option string;
  profile_image : option string;
  is_active : option Z;
  is_admin : option Z
}.

(** CREATE TABLE presentations.  BOOLEAN is TINYINT(1); [is_public] and
    [views] have a DEFAULT but no NOT NULL, so they may hold NULL. *)
Record presentation : Type := mkPresentation {
  pres_id : Z;
  pres_user_id : Z;
  title : string;
  description : option string;
  content : string;                 (* JSON NOT NULL: the slide payload *)
  theme : option string;
  slides_count : option Z;
  language : option string;
  ai_model : option string;
  is_public : option Z;
  views : option Z;
  created_at : option Z
}.

(** CREATE TABLE presentation_shares. *)
Record presentation_share : Type := mkShare {
  share_id : Z;
  share_presentation_id : Z;
  share_token : string;
  expires_at : option Z;
  view_count : option Z
}.

(** CREATE TABLE api_usage_log. *)
Record api_usage : Type := mkApiUsage {
  usage_id : Z;
  usage_user_id : Z;
  endpoint : string;
  method : string;
  status_code : option Z;
  response_time_ms : option Z
}.

Record db : Type := mkDb {
  users : list user;
  presentations : list presentation;
  presentation_shares : list presentation_share;
  api_usage_log : list api_usage
}.

(** A row of the view [popular_presentations]:
    SELECT p.id, p.title, p.theme, p.views, u.username, p.created_at. *)
Record popular_row : Type := mkPopular {
  pop_id : Z;
  pop_title : string;
  pop_theme : option string;
  pop_views : option Z;
  pop_username : string;
  pop_created_at : option Z
}.

(** FROM presentations p JOIN users u ON p.user_id = u.id *)
Definition join_users (us : list user) (p : presentation)
  : list (presentation * user) :=
  map (fun u => (p, u)) (filter (fun u => pres_user_id p =? user_id u) us).

Definition from_join (d : db) : list (presentation * user) :=
  flat_map (join_users (users d)) (presentations d).

(** WHERE p.is_public = TRUE *)
Definition is_true (b : option Z) : bool :=
  match b with Some 1 => true | _ => false end.

Definition public (p : presentation) : bool := is_true (is_public p).

Definition where_public (r : presentation * user) : bool := public (fst r).

Definition select_row (r : presentation * user) : popular_row :=
  let (p, u) := r in
  mkPopular (pres_id p) (title p) (theme p) (views p) (username u) (created_at p).

(** ORDER BY p.views DESC: NULL sorts as the lowest value.  Rows with the
    same number of views keep the order of the FROM clause. *)
Definition views_leb (a b : option Z) : bool :=
  match a, b with
  | None, _ => true
  | Some _, None => false
  | Some x, Some y => x <=? y
  end.

Fixpoint insert_by_views (r : popular_row) (l : list popular_row) : list popular_row :=
  match l with
  | [] => [r]
  | h :: t =>
      if views_leb (pop_views h) (pop_views r) then r :: l
      else h :: insert_by_views r t
  end.

Definition order_by_views_desc (l : list popular_row) : list popular_row :=
  fold_right insert_by_views [] l.

(** CREATE OR REPLACE VIEW popular_presentations ... LIMIT 100 *)
Definition popular_presentations (d : db) : list popular_row :=
  firstn 100 (order_by_views_desc (map select_row (filter where_public (from_join d)))).

Definition among (x : Z) (l : list Z) : bool := existsb (Z.eqb x) l.

(** DELETE FROM users WHERE id = uid, with the three ON DELETE CASCADE
    foreign keys: presentations.user_id, api_usage_log.user_id and, through
    the presentations deleted, presentation_shares.presentation_id.  The
    slides of a presentation are in its [content] column and go with it. *)
Definition delete_user (uid : Z) (d : db) : db :=
  let gone_users := filter (Z.eqb uid) (map user_id (users d)) in
  let gone_pres :=
    map pres_id (filter (fun p => among (pres_user_id p) gone_users) (presentations d)) in
  mkDb (filter (fun u => negb (user_id u =? uid)) (users d))
       (filter (fun p => negb (among (pres_user_id p) gone_users)) (presentations d))
       (filter (fun sh => negb (among (share_presentation_id sh) gone_pres))
               (presentation_shares d))
       (filter (fun a => negb (among (usage_user_id a) gone_users)) (api_usage_log d)).



(** Owner-only visibility of a read operation, as two-run noninterference:
    what [requester] reads is the same in any two databases that have the
    same users and the same presentations owned by [requester]. *)
Definition owned_by (requester : Z) (p : presentation) : bool :=
  pres_user_id p =? requester.



End SchemaSql.

(* ================================================================== *)
(** * js/editor.js: [generatePresentation] and [renderSlides] *)
(* ================================================================== *)

Module Editor.

(** [v || d] on a string that may be undefined: the empty string is falsy. *)
Definition or_else (v : option string) (d : string) : string :=
  match v with
  | Some s => if String.eqb s "" then d else s
  | None => d
  end.

(** White space skipped by [trim] and [parseInt].  A string is a sequence
    of code units below 256; of the white space and the line terminators
    of the language these are 9 to 13, 32 and 160 (the no-break space). *)
Definition is_space (c : ascii) : bool :=
  let n := nat_of_ascii c in
  ((9 <=? n) && (n <=? 13))%nat || (n =? 32)%nat || (n =? 160)%nat.

Fixpoint skip_spaces (s : string) : string :=
  match s with
  | String c r => if is_space c then skip_spaces r else s
  | EmptyString => EmptyString
  end.

Fixpoint rev_string (s acc : string) : string :=
  match s with
  | String c r => rev_string r (String c acc)
  | EmptyString => acc
  end.

Definition trim (s : string) : string :=
  rev_string (skip_spaces (rev_string (skip_spaces s) "")) "".

(** The value of a digit in [radix] 10 or 16. *)
Definition digit_value (radix : Z) (c : ascii) : option Z :=
  let n := Z.of_nat (nat_of_ascii c) in
  if (48 <=? n) && (n <=? 57) then Some (n - 48)
  else if (radix =? 16) && (97 <=? n) && (n <=? 102) then Some (n - 87)
  else if (radix =? 16) && (65 <=? n) && (n <=? 70) then Some (n - 55)
  else None.

(** The longest prefix of digits; [None] (NaN) when there is none. *)
Fixpoint parse_digits (radix : Z) (s : string) (acc : option Z) : option Z :=
  match s with
  | String c r =>
      match digit_value radix c with
      | Some v =>
          parse_digits radix r
            (Some (radix * match acc with Some n => n | None => 0 end + v))
      | None => acc
      end
  | EmptyString => acc
  end.

(** A Number that [parseInt] returns.  It holds the integer read when this
    is at most 2^53 in magnitude; beyond that it is a double near the
    integer read, or an infinity, of which the model keeps the sign
    only. *)
Inductive number : Type :=
| Int (n : Z)
| Beyond (negative : bool).

Definition to_number (n : Z) : number :=
  if Z.abs n <=? 2 ^ 53 then Int n else Beyond (n <? 0).

(** [parseInt(s)] without a radix: leading white space, an optional sign,
    the prefix 0x or 0X for radix 16, then digits.  [None] is NaN. *)
Definition parseInt (s : string) : option number :=
  let s := skip_spaces s in
  let '(negative, s) :=
    match s with
    | String "-" r => (true, r)
    | String "+" r => (false, r)
    | _ => (false, s)
    end in
  let '(radix, s) :=
    match s with
    | String "0" (String "x" r) => (16, r)
    | String "0" (String "X" r) => (16, r)
    | _ => (10, s)
    end in
  match parse_digits radix s None with
  | Some n => Some (to_number (if negative then - n else n))
  | None => None
  end.

(** [parseInt(slidesCount) || 10]: NaN and 0 are falsy. *)
Definition slides_count_of (slidesCount : string) : number :=
  match parseInt slidesCount with
  | Some (Int 0) => Int 10
  | Some n => n
  | None => Int 10
  end.

Definition string_of_Z (z : Z) : string :=
  NilZero.string_of_int (Z.to_int z).

(** The parts of the page and of localStorage that [generatePresentation]
    reads; an element that the code tests for may be missing. *)
Record page : Type := mkPage {
  promptInput : option string;     (* its value; None when there is no element *)
  slidesCount : string;
  styleSelect : string;
  languageSelect : string;
  token : option string;           (* localStorage.getItem('token') *)
  selectedTheme : string;
  selectedImageStyle : string;
  slidesPreview : bool;
  contentTitle : bool;
  exportButtons : bool
}.

(** [requestData]. *)
Record request_data : Type := mkRequestData {
  rq_prompt : string;
  rq_slides_count : number;
  rq_style : string;
  rq_language : string;
  rq_theme : string;
  rq_image_style : string
}.

(** The JSON body of the answer, as far as the editor reads it. *)
Record slide_json : Type := mkSlideJson {
  sj_title : option string;
  sj_content : option string;
  sj_image : option string
}.

Record content_json : Type := mkContentJson {
  ct_title : option string;
  ct_total_slides : option Z;
  ct_theme_name : option string;
  ct_style_name : option string;
  ct_slides : option (list slide_json)
}.

Record data_json : Type := mkDataJson {
  dj_error : option string;
  dj_success : bool;
  dj_message : option string;
  dj_content : option content_json
}.

(** [await fetch(...)] then [await response.json()]: either of them may
    throw, with a message. *)
Inductive http : Type :=
| FetchThrows (message : string)
| JsonThrows (status : Z) (message : string)
| Response (ok : bool) (status : Z) (data : data_json).

Record card : Type := mkCard {
  card_number : Z;                 (* Slide ${index + 1} *)
  card_title : string;
  card_content : string;           (* the argument of formatSlideContent *)
  card_image : option string
}.

Record preview : Type := mkPreview {
  pv_title : string;
  pv_total_slides : Z;
  pv_theme_name : string;
  pv_style_name : string;
  pv_cards : list card
}.

Inductive toast : Type :=
| EnterTopic
| LoginFirst
| Generated
| Failed (message : string).

(** What the user and the network see, in order. *)
Inductive ui_event : Type :=
| ShowToast (t : toast)
| FocusPrompt
| RedirectToLogin
| DisableButton
| EnableButton
| ShowLoading
| Fetch (rq : request_data) (bearer : string)
| SetCurrentPresentation (c : option content_json)
| SetContentTitle (t : string)
| ShowPreview (p : preview)
| ShowExportButtons
| ShowFailure (message : string).

Fixpoint cards_from (index : Z) (slides : list slide_json) : list card :=
  match slides with
  | [] => []
  | s :: rest =>
      mkCard (index + 1)
             (or_else (sj_title s) ("Slide " ++ string_of_Z (index + 1))%string)
             (or_else (sj_content s) "")
             (match sj_image s with
              | Some i => if String.eqb i "" then None else Some i
              | None => None
              end)
      :: cards_from (index + 1) rest
  end.

(** [renderSlides(content)]. *)
Definition renderSlides (pg : page) (content : option content_json) : list ui_event :=
  match content with
  | None => []
  | Some c =>
      if negb (slidesPreview pg) then []
      else
        (if contentTitle pg
         then [SetContentTitle (or_else (ct_title c) "Presentation")] else [])
        ++ [ShowPreview
              (mkPreview
                 (or_else (ct_title c) "Untitled Presentation")
                 (match ct_total_slides c with Some n => n | None => 0 end)
                 (or_else (ct_theme_name c) "Default")
                 (or_else (ct_style_name c) "Business")
                 (cards_from 0 (match ct_slides c with Some l => l | None => [] end)))]
  end.

(** The body of the [try] block after the answer has arrived: the events of
    the success path, or the message of the Error thrown. *)
Definition handle_answer (pg : page) (answer : http) : list ui_event + string :=
  match answer with
  | FetchThrows m => inr m
  | JsonThrows _ m => inr m
  | Response ok status data =>
      if negb ok then
        inr (or_else (dj_error data)
               ("Request failed with status " ++ string_of_Z status)%string)
      else if dj_success data then
        inl ([SetCurrentPresentation (dj_content data)]
             ++ renderSlides pg (dj_content data)
             ++ [ShowToast Generated]
             ++ (if exportButtons pg then [ShowExportButtons] else []))
      else inr (or_else (dj_message data) "Generation failed")
  end.

(** [generatePresentation()], against a server that answers a request. *)
Definition generatePresentation (server : request_data -> string -> http) (pg : page)
  : list ui_event :=
  match promptInput pg with
  | None => [ShowToast EnterTopic]
  | Some text =>
      if String.eqb (trim text) "" then [ShowToast EnterTopic; FocusPrompt]
      else
        match token pg with
        | None => [ShowToast LoginFirst; RedirectToLogin]
        | Some tk =>
            if String.eqb tk "" then [ShowToast LoginFirst; RedirectToLogin]
            else
              let requestData :=
                mkRequestData (trim text)
                              (slides_count_of (slidesCount pg))
                              (or_else (Some (styleSelect pg)) "business")
                              (or_else (Some (languageSelect pg)) "en-uk")
                              (or_else (Some (selectedTheme pg)) "alien")
                              (or_else (Some (selectedImageStyle pg)) "illustration") in
              [DisableButton]
              ++ (if slidesPreview pg then [ShowLoading] else [])
              ++ [Fetch requestData tk]
              ++ match handle_answer pg (server requestData tk) with
                 | inl events => events
                 | inr message =>
                     [ShowToast (Failed message)]
                     ++ (if slidesPreview pg then [ShowFailure message] else [])
                 end
              ++ [EnableButton]
        end
  end.

Definition is_fetch (e : ui_event) : bool :=
  match e with Fetch _ _ => true | _ => false end.

End Editor.

(* ================================================================== *)
(** * The generation orchestrator and the persistence step *)
(* ================================================================== *)

(** The handler of POST /presentations/generate (routes/presentations.py),
    the AI service (services/ai_service.py) and the presentation model
    (models/presentation.py) are not among the sources.  This module
    models them from the specification; each definition says so.  The
    database is reached through [get_connection] of models/database.PY and
    the connector calls of [Database], which are. *)

Module Generation.

Import InitDb Database.

(** The body of POST /presentations/generate (docs/API.md; [style] is sent
    by js/editor.js). *)
Record request : Type := mkRequest {
  prompt : string;
  slides_count : Z;
  language : option string;
  theme : option string;
  style : option string;
  text_amount : option string;
  ai_model : option string
}.

(** A slide object of an AI answer: its fields, by name. *)
Definition slide_object : Type := list (string * string).

Definition field (name : string) (o : slide_object) : option string :=
  match find (fun kv => String.eqb (fst kv) name) o with
  | Some kv => Some (snd kv)
  | None => None
  end.

Definition has_field (name : string) (o : slide_object) : bool :=
  match field name o with Some _ => true | None => false end.

(** Modelled from the spec: what a call to an AI backend gives (section 7,
    upstream-provider error; the provider clients are missing): the call
    fails (timeout, quota, transport), or it returns text, which parses
    into slide objects or does not. *)
Inductive backend_answer : Type :=
| CallFails
| Unparsable
| Parsed (objects : list slide_object).

Inductive backend : Type := Primary | Secondary.

(** Modelled from the spec: the answer of the pipeline to its caller
    (section 7, error taxonomy; the route handler is missing).  The caller
    is taken to be authenticated. *)
Inductive response : Type :=
| ValidationError
| GenerationFailure
| ServerFailure (e : db_error)
| Success (presentation_id : Z) (slides : list slide_object).

(** The state threaded through one request: the database side, the calls
    made to the AI backends so far, and the faults the next database calls
    will meet (none once the list is used up). *)
Record state : Type := mkState {
  world : Database.world;
  calls : list backend;
  script : list faults
}.

Definition M (A : Type) : Type := state -> state * A.

Definition ret {A : Type} (a : A) : M A := fun st => (st, a).

Definition bind {A B : Type} (m : M A) (k : A -> M B) : M B :=
  fun st => let (st', a) := m st in k a st'.

Notation "x <- m ;; k" := (bind m (fun x => k))
  (at level 61, m at next level, right associativity).

Section Pipeline.

Variable collation_key : string -> string.

(** The two AI backends, by what they answer to a request. *)
Variable primary secondary : request -> backend_answer.

(** Modelled from the spec: the input constraints of the orchestrator
    (section 4.1; services/ai_service.py and routes/presentations.py are
    missing): the slide count lies in 3..20 and the prompt is not empty.
    The enumerated sets of language, theme and style are not listed by the
    spec; a value left out takes the DEFAULT of the presentations table. *)
Definition valid_request (r : request) : bool :=
  (3 <=? slides_count r) && (slides_count r <=? 20)
  && negb (String.eqb (prompt r) "").

(** Modelled from the spec: the normalization of an AI answer
    (services/ai_service.py is missing).  An answer is well formed when it
    parses and every slide object has a title and a content field (section
    4.1).  Its length is checked by [conforms] below. *)
Definition well_formed (objects : list slide_object) : bool :=
  forallb (fun o => has_field "title" o && has_field "content" o) objects.

(** Modelled from the spec: the slides taken from an answer, if it is
    neither a failed call nor malformed output (section 4.1). *)
Definition usable (a : backend_answer) : option (list slide_object) :=
  match a with
  | Parsed objects => if well_formed objects then Some objects else None
  | _ => None
  end.

(** Modelled from the spec: one call to an AI backend (the provider
    clients are missing), recorded in [calls]. *)
Definition call_backend (b : backend) (r : request) : M backend_answer :=
  fun st =>
    (mkState (world st) (calls st ++ [b]) (script st),
     match b with Primary => primary r | Secondary => secondary r end).

(** Modelled from the spec: the output guarantee (section 4.1: a sequence
    of the requested length; section 8: the number of returned slides
    equals the requested count, or the request fails explicitly;
    services/ai_service.py is missing, its test and docstring in
    CONTRIBUTING.md state the count too).  Section 9 leaves open what the
    source does with an answer of another length; such an answer is not
    returned as a success here. *)
Definition conforms (r : request) (objects : list slide_object) : bool :=
  Z.of_nat (List.length objects) =? slides_count r.

(** Modelled from the spec: the columns of a slide row taken from a slide
    object (section 3: title, body text, optional image reference,
    optional layout tag; models/presentation.py is missing). *)
Definition slide_cols_of (o : slide_object) : slide_cols :=
  mkSlideCols (field "title" o) (field "content" o) (field "layout" o)
              (field "image_url" o) None None None None.

(** Modelled from the spec: the slide rows of a presentation (section 6,
    normalized rows; models/presentation.py is missing) are written one
    INSERT per slide on the cursor of the transaction, numbered by
    position from [number] on; the first error stops the loop.  Each
    [cursor.execute] meets the faults next in the script. *)
Fixpoint execute_slides (script : list faults) (presentation_id number : Z)
         (objects : list slide_object) (c : connection) (w : Database.world)
  : Database.world * connection * list faults * outcome unit :=
  match objects with
  | [] => (w, c, script, Return tt)
  | o :: rest =>
      match cursor_execute collation_key (hd no_faults script)
              (Dml (InsertSlide (Some presentation_id) (Some number) (slide_cols_of o)))
              c w with
      | (w, c, Raise e) => (w, c, tl script, Raise e)
      | (w, c, Return _) =>
          execute_slides (tl script) presentation_id (number + 1) rest c w
      end
  end.

(** Modelled from the spec: the columns of the presentation row taken from
    the request (section 3; models/presentation.py is missing). *)
Definition pres_cols_of (r : request) : pres_cols :=
  mkPresCols (Some (slides_count r)) None (style r) (theme r) (language r) None
             (text_amount r) (ai_model r).

(** Modelled from the spec: the [try:] block of the persistence step.  A
    connection is taken from the pool by [get_connection] of
    models/database.PY; the presentation row is inserted first, whose id
    the slide rows need, then the slide rows, all on one cursor; one
    [conn.commit()] ends the transaction.  The title of the row is the
    prompt.  The first record of the script gives the faults of the
    connection, of the first INSERT and of the commit and rollback; the
    records after it those of the slide INSERTs. *)
Definition save_try_block (user_id : Z) (r : request) (objects : list slide_object)
           (script : list faults) (w : Database.world)
  : Database.world * locals * list faults * outcome py_value :=
  let f := hd no_faults script in
  match get_connection f w with
  | (w, Raise e) => (w, mkLocals None false, tl script, Raise e)
  | (w, Return c) =>
      match conn_cursor f w with
      | (w, Raise e) => (w, mkLocals (Some c) false, tl script, Raise e)
      | (w, Return _) =>
          match cursor_execute collation_key f
                  (Dml (InsertPresentation (Some user_id) (Some (prompt r))
                          (Some (prompt r)) (pres_cols_of r))) c w with
          | (w, c, Raise e) => (w, mkLocals (Some c) true, tl script, Raise e)
          | (w, c, Return (None, _)) =>
              (w, mkLocals (Some c) true, tl script, Raise InterfaceError)
          | (w, c, Return (Some presentation_id, _)) =>
              match execute_slides (tl script) presentation_id 1 objects c w with
              | (w, c, script, Raise e) => (w, mkLocals (Some c) true, script, Raise e)
              | (w, c, script, Return _) =>
                  match conn_commit f c w with
                  | (w, c, Raise e) => (w, mkLocals (Some c) true, script, Raise e)
                  | (w, c, Return _) =>
                      (w, mkLocals (Some c) true, script,
                       Return (LastRowId (Some presentation_id)))
                  end
              end
          end
      end
  end.

(** Modelled from the spec: the persistence step (section 4.1, side
    effects: one logically atomic step; section 7: no partial rows
    retained; models/presentation.py is missing).  It is one transaction,
    in the shape that [execute_query] and [init_db] of models/database.PY
    have: the [try:] block above, a rollback when it raises, and cursor
    and connection closed in every case. *)
Definition save_presentation (user_id : Z) (r : request) (objects : list slide_object)
  : M (outcome Z) :=
  fun st =>
    let f := hd no_faults (script st) in
    let '(w, l, script, result) :=
      save_try_block user_id r objects (script st) (world st) in
    let '(w, l, result) := except_block f l result w in
    (mkState (finally_block l w) (calls st) script,
     match result with
     | Return (LastRowId (Some presentation_id)) => Return presentation_id
     | Return _ => Raise InterfaceError
     | Raise e => Raise e
     end).

(** Modelled from the spec: a persistence error is surfaced as a server
    failure (section 7; the route handler is missing). *)
Definition persist (user_id : Z) (r : request) (objects : list slide_object)
  : M response :=
  saved <- save_presentation user_id r objects ;;
  match saved with
  | Return presentation_id => ret (Success presentation_id objects)
  | Raise e => ret (ServerFailure e)
  end.

(** Modelled from the spec: what is done with the slides of a usable
    answer (section 4.1, output guarantee; services/ai_service.py is
    missing): they are persisted and returned when they are of the
    requested length, and the request fails explicitly when they are not.
    The spec names the failed call and the malformed output as the causes
    of the fallback, so an answer of another length is not asked again of
    the secondary backend. *)
Definition deliver (user_id : Z) (r : request) (objects : list slide_object)
  : M response :=
  if conforms r objects then persist user_id r objects else ret GenerationFailure.

(** Modelled from the spec: the generation orchestrator (sections 4.1 and
    7; services/ai_service.py and routes/presentations.py are missing).
    A request is validated before any external call; the
    primary backend is asked; when its call fails or its output is
    malformed the secondary backend is asked once; when both fail the
    request fails; a usable answer of the requested length is persisted
    and returned. *)
Definition generate_presentation (user_id : Z) (r : request) : M response :=
  if negb (valid_request r) then ret ValidationError
  else
    a <- call_backend Primary r ;;
    match usable a with
    | Some objects => deliver user_id r objects
    | None =>
        b <- call_backend Secondary r ;;
        match usable b with
        | Some objects => deliver user_id r objects
        | None => ret GenerationFailure
        end
    end.

End Pipeline.

(** The slide row that [save_presentation] writes for a slide object. *)
Definition slide_row (id presentation_id number : Z) (o : slide_object) : slide :=
  mkSlide id presentation_id number (field "title" o) (field "content" o)
          (field "layout" o) (field "image_url" o) None None None None.


Definition with_slides (d : db) (rows : list slide) : db :=
  mkDb (users d) (presentations d) (slides d ++ rows).

Definition committed_data (st : state) : db := committed (world st).

(** The slide rows of a presentation, with ids from [id] on and numbers
    from [number] on. *)
Fixpoint slide_rows (id presentation_id number : Z) (objects : list slide_object)
  : list slide :=
  match objects with
  | [] => []
  | o :: rest =>
      slide_row id presentation_id number o
      :: slide_rows (id + 1) presentation_id (number + 1) rest
  end.

End Generation.

(* ================================================================== *)
(** * Concrete data for the examples *)
(* ================================================================== *)

Module Samples.

Import InitDb Database Generation.

(** A collation key for the examples: ASCII letters compare without case. *)
Definition lower (c : ascii) : ascii :=
  let n := nat_of_ascii c in
  if ((65 <=? n) && (n <=? 90))%nat then ascii_of_nat (n + 32) else c.

Fixpoint ascii_ci (s : string) : string :=
  match s with
  | String c r => String (lower c) (ascii_ci r)
  | EmptyString => EmptyString
  end.

Definition ann : user := mkUser 1 "Ann" "ann@example.com" "hash-a".
Definition bob : user := mkUser 2 "Bob" "bob@example.com" "hash-b".

Definition deck (id owner : Z) (t : string) : presentation :=
  mkPresentation id owner t t 5 "presentation" "business" "alien" "en-uk"
                 "illustration" "moderate" "gemini-2.0-flash".

Definition page (id presentation number : Z) (t : string) : slide :=
  mkSlide id presentation number (Some t) (Some "text") None None None None None None.

Definition no_slide_cols : slide_cols :=
  mkSlideCols None None None None None None None None.

(** Two users; Ann owns a deck of two slides, Bob a deck of one. *)
Definition store : db :=
  mkDb [ann; bob]
       [deck 1 1 "Climate"; deck 2 2 "Budget"]
       [page 1 1 1 "Intro"; page 2 1 2 "Causes"; page 3 2 1 "Costs"].

Definition after (s : stmt) (d : db) : db :=
  match exec_stmt ascii_ci s d with
  | Ok (d', _) => d'
  | Err _ => d
  end.

Definition store_without_ann : db := Eval vm_compute in after (DeleteUser 1) store.

Definition store_third_slide : db :=
  Eval vm_compute in after (InsertSlide (Some 1) (Some 3) no_slide_cols) store.

Definition store_duplicate_number : db :=
  Eval vm_compute in after (InsertSlide (Some 1) (Some 1) no_slide_cols) store.

Definition store_renumbered : db :=
  Eval vm_compute in after (UpdateSlide 2 (Some 1) (Some "Causes") (Some "text")) store.

Definition store_first_deleted : db :=
  Eval vm_compute in after (DeleteSlide 1) store.

(** Requests and backends. *)
Definition climate : request :=
  mkRequest "Climate Change" 5 None (Some "dialogue") None None None.

Definition too_many : request :=
  mkRequest "Climate Change" 25 None (Some "dialogue") None None None.

Definition slide_of (t c : string) : slide_object := [("title", t); ("content", c)].

Definition two_slides : list slide_object :=
  [slide_of "Causes" "Greenhouse gases"; slide_of "Effects" "Sea level"].

Definition answers_two (_ : request) : backend_answer := Parsed two_slides.
Definition times_out (_ : request) : backend_answer := CallFails.

Definition users_only : db := mkDb [ann; bob] [] [].

Definition start (script : list faults) : state :=
  mkState (initial_world users_only) [] script.

(** An answer of five slides. *)
Definition five_slides : list slide_object :=
  [slide_of "Causes" "Greenhouse gases"; slide_of "Effects" "Sea level";
   slide_of "Costs" "Adaptation"; slide_of "Policy" "Carbon price";
   slide_of "Outlook" "Scenarios"].

Definition answers_five (_ : request) : backend_answer := Parsed five_slides.

(** The connection is lost as the second slide row is inserted. *)
Definition second_slide_fails : list faults :=
  [no_faults; no_faults; mkFaults false false false true false false false].

Definition a_page : Editor.page :=
  Editor.mkPage (Some "Climate Change") "25" "business" "en-uk" (Some "token")
                "alien" "illustration" true true true.


(** database/schema.sql: two databases with the same users, in which user 2
    owns nothing and user 1 owns one public presentation, under two titles. *)
Definition sql_ann : SchemaSql.user :=
  SchemaSql.mkUser 1 "ann" "ann@example.com" "hash-a" None None (Some 1) (Some 0).
Definition sql_bob : SchemaSql.user :=
  SchemaSql.mkUser 2 "bob" "bob@example.com" "hash-b" None None (Some 1) (Some 0).

Definition sql_deck (t : string) : SchemaSql.presentation :=
  SchemaSql.mkPresentation 1 1 t None "{}" (Some "dialogue") (Some 8)
                           (Some "English") (Some "gemini") (Some 1) (Some 0) None.

Definition sql_a : SchemaSql.db := SchemaSql.mkDb [sql_ann; sql_bob] [sql_deck "Roadmap A"] [] [].

End Samples.

(* ================================================================== *)
(** * models/database.PY: [get_db_config]; database/init_db.sh *)
(* ================================================================== *)

Module Config.

(** The process environment. *)
Definition env : Type := string -> option string.

(** [os.getenv(name, fallback)]: the fallback only when the variable is
    not set. *)
Definition getenv (e : env) (name fallback : string) : string :=
  match e name with
  | Some v => v
  | None => fallback
  end.

Record db_config : Type := mkDbConfig {
  host : string;
  user : string;
  password : string;
  database : string;
  pool_name : string;
  pool_size : nat;
  pool_reset_session : bool;
  autocommit : bool
}.

Definition get_db_config (e : env) : db_config :=
  mkDbConfig (getenv e "DB_HOST" "localhost")
             (getenv e "DB_USER" "root")
             (getenv e "DB_PASSWORD" "")
             (getenv e "DB_NAME" "gamma_ai")
             "gamma_pool" 5 true false.

(** [${NAME:-fallback}] of the shell: the fallback when the variable is not
    set or is empty. *)
Definition or_default (e : env) (name fallback : string) : string :=
  match e name with
  | Some v => if String.eqb v "" then fallback else v
  | None => fallback
  end.

(** The two calls of the mysql client in database/init_db.sh:
    [mysql -h H -u U -pP -e "SELECT 1;"] and
    [mysql -h H -u U -pP < database/schema.sql], each with the words that
    follow [-h] and [-u] and with the word [-pP] as the shell passes it. *)
Inductive command : Type :=
| TestConnection (host user p_option : string)
| RunSchema (host user p_option : string).

Record script_run : Type := mkScriptRun {
  commands : list command;
  exit_code : nat
}.

(** database/init_db.sh: [mysql_found] is [command -v mysql], [succeeds]
    the exit status of a mysql call.  [DB_PASSWORD] is the value that
    [read -sp] leaves in the variable, which is not the line typed as it
    is: [read] without [-r] takes the backslashes out of the line and the
    blanks off its two ends.  The word [-p"$DB_PASSWORD"] is [-p] alone
    when the value is empty.  The messages echoed are left out. *)
Definition init_db_sh (e : env) (mysql_found : bool) (DB_PASSWORD : string)
           (succeeds : command -> bool) : script_run :=
  let DB_HOST := or_default e "DB_HOST" "localhost" in
  let DB_USER := or_default e "DB_USER" "root" in
  let DB_NAME := or_default e "DB_NAME" "gamma_ai" in
  if negb mysql_found then mkScriptRun [] 1
  else
    let p_option := ("-p" ++ DB_PASSWORD)%string in
    let test := TestConnection DB_HOST DB_USER p_option in
    if succeeds test then
      let schema := RunSchema DB_HOST DB_USER p_option in
      if succeeds schema then mkScriptRun [test; schema] 0
      else mkScriptRun [test; schema] 1
    else mkScriptRun [test] 1.

(** The environment with one variable set. *)
Definition setenv (name value : string) (e : env) : env :=
  fun k => if String.eqb k name then Some value else e k.

Definition is_run_schema (c : command) : bool :=
  match c with RunSchema _ _ _ => true | TestConnection _ _ _ => false end.

End Config.

(* ================================================================== *)
(** * models/database.PY: [init_db] *)
(* ================================================================== *)

Module InitDbRun.

(** The catalog of the server: the tables of each database, by name, each
    with the names of its columns.  Names are compared as they are
    written. *)
Definition columns : Type := list string.
Definition catalog : Type := list (string * columns).
Definition server : Type := list (string * catalog).

Fixpoint lookup {A : Type} (k : string) (l : list (string * A)) : option A :=
  match l with
  | [] => None
  | (k', v) :: rest => if String.eqb k k' then Some v else lookup k rest
  end.

Fixpoint replace {A : Type} (k : string) (v : A) (l : list (string * A))
  : list (string * A) :=
  match l with
  | [] => []
  | (k', v') :: rest =>
      if String.eqb k k' then (k', v) :: rest else (k', v') :: replace k v rest
  end.

Definition table_columns (d t : string) (sv : server) : option columns :=
  match lookup d sv with
  | Some c => lookup t c
  | None => None
  end.

(** FOREIGN KEY (column) REFERENCES table(referenced). *)
Record foreign_key : Type := mkForeignKey {
  fk_column : string;
  fk_table : string;
  fk_referenced : string
}.

(** The statements of [init_db], as the server reads them. *)
Inductive ddl : Type :=
| CreateDatabase (name : string)              (* CREATE DATABASE IF NOT EXISTS *)
| Use (name : string)
| CreateTable (name : string) (cols : columns) (fks : list foreign_key).
                                              (* CREATE TABLE IF NOT EXISTS *)

Inductive ddl_error : Type :=
| UnknownDatabase            (* error 1049 *)
| NoDatabaseSelected         (* error 1046 *)
| CannotAddForeignKey        (* the referenced table or column is missing *)
| SyntaxError                (* error 1064 *)
| ConnectionError.           (* the connector call failed *)

Definition references_exist (c : catalog) (fk : foreign_key) : bool :=
  match lookup (fk_table fk) c with
  | Some cols => existsb (String.eqb (fk_referenced fk)) cols
  | None => false
  end.

(** One statement on the catalog, with the default database of the
    session.  IF NOT EXISTS leaves what exists as it is, whatever its
    columns.  A statement of this kind is committed as it is run: no
    rollback takes it back. *)
Definition exec_ddl (s : ddl) (current : option string) (sv : server)
  : server * option string * option ddl_error :=
  match s with
  | CreateDatabase name =>
      match lookup name sv with
      | Some _ => (sv, current, None)
      | None => (sv ++ [(name, [])], current, None)
      end
  | Use name =>
      match lookup name sv with
      | Some _ => (sv, Some name, None)
      | None => (sv, current, Some UnknownDatabase)
      end
  | CreateTable name cols fks =>
      match current with
      | None => (sv, current, Some NoDatabaseSelected)
      | Some d =>
          match lookup d sv with
          | None => (sv, current, Some UnknownDatabase)
          | Some c =>
              match lookup name c with
              | Some _ => (sv, current, None)
              | None =>
                  if forallb (references_exist c) fks
                  then (replace d (c ++ [(name, cols)]) sv, current, None)
                  else (sv, current, Some CannotAddForeignKey)
              end
          end
      end
  end.

Definition users_columns : columns :=
  ["id"; "name"; "email"; "password"; "created_at"; "updated_at"].

Definition presentations_columns : columns :=
  ["id"; "user_id"; "title"; "prompt"; "slides_count"; "output_type"; "style";
   "theme"; "language"; "image_style"; "text_amount"; "ai_model"; "created_at";
   "updated_at"].

Definition slides_columns : columns :=
  ["id"; "presentation_id"; "slide_number"; "title"; "content"; "layout";
   "image_url"; "background"; "animation"; "notes"; "metadata"; "created_at"].

(** What [cursor.execute] sends is text.  The text of a CREATE TABLE of
    [init_db] is fixed; the first two texts are f-strings into which the
    value of DB_NAME is pasted as it is, without backquotes.  The server
    reads such a text as the statement on the database of that name only
    when the value is written like a name; any other text is kept as
    sent. *)
Inductive statement : Type :=
| Sql (s : ddl)
| Text (sql : string).

(** What the model does not fix of the server: the words that its version
    reserves, and what it makes of a text that it does not read as one of
    the statements above (an error, or other statements). *)
Record parser : Type := mkParser {
  reserved_word : string -> bool;
  runs_text : string -> option string -> server
              -> server * option string * option ddl_error
}.

Definition is_lower (c : ascii) : bool :=
  (97 <=? nat_of_ascii c)%nat && (nat_of_ascii c <=? 122)%nat.

Definition is_digit (c : ascii) : bool :=
  (48 <=? nat_of_ascii c)%nat && (nat_of_ascii c <=? 57)%nat.

Definition name_char (c : ascii) : bool :=
  is_lower c || is_digit c || Ascii.eqb c "_".

(** A lowercase letter followed by lowercase letters, digits and
    underscores, 64 characters at most: one token of the statement, of
    the length allowed for the name of a database. *)
Definition plain_name (d : string) : bool :=
  match d with
  | EmptyString => false
  | String c rest =>
      is_lower c && forallb name_char (list_ascii_of_string rest)
      && (String.length d <=? 64)%nat
  end.

(** The values of DB_NAME that the server reads as the name of a database
    where the f-strings paste them: plain names that are not reserved
    words.  [gamma_ai], which database/schema.sql writes without
    backquotes too, is reserved in no version of the server. *)
Definition names_a_database (p : parser) (d : string) : bool :=
  plain_name d && (String.eqb d "gamma_ai" || negb (reserved_word p d)).

(** The text [sql ++ database] as the server reads it. *)
Definition with_name (p : parser) (sql : string) (read : string -> ddl)
           (database : string) : statement :=
  if names_a_database p database then Sql (read database)
  else Text (sql ++ database)%string.

(** The five [cursor.execute] calls of [init_db], in order. *)
Definition init_db_statements (p : parser) (database : string) : list statement :=
  [ with_name p "CREATE DATABASE IF NOT EXISTS " CreateDatabase database;
    with_name p "USE " Use database;
    Sql (CreateTable "users" users_columns []);
    Sql (CreateTable "presentations" presentations_columns
                     [mkForeignKey "user_id" "users" "id"]);
    Sql (CreateTable "slides" slides_columns
                     [mkForeignKey "presentation_id" "presentations" "id"]) ].

(** The five statements that the server runs when DB_NAME names a
    database. *)
Definition init_db_ddl (database : string) : list ddl :=
  [ CreateDatabase database;
    Use database;
    CreateTable "users" users_columns [];
    CreateTable "presentations" presentations_columns
                [mkForeignKey "user_id" "users" "id"];
    CreateTable "slides" slides_columns
                [mkForeignKey "presentation_id" "presentations" "id"] ].

Definition exec_statement (p : parser) (s : statement) (current : option string)
           (sv : server) : server * option string * option ddl_error :=
  match s with
  | Sql s => exec_ddl s current sv
  | Text sql => runs_text p sql current sv
  end.

(** The connector calls of [init_db] that may fail for reasons outside the
    program; [lost_at = Some n] loses the connection when statement number
    [n] (from 0) is sent. *)
Record faults : Type := mkFaults {
  connect_fails : bool;
  cursor_fails : bool;
  lost_at : option nat;
  commit_fails : bool;
  rollback_fails : bool
}.

Definition no_faults : faults := mkFaults false false None false false.

Inductive step : Type :=
| Connect (host user password : string)
| OpenCursor
| Execute (s : statement)
| Commit
| Rollback
| CloseCursor
| CloseConnection.

Record world : Type := mkWorld {
  sql_parser : parser;
  catalogs : server;
  connections : nat;          (* connections open, made by [connect] *)
  cursors : nat;
  trace : list step
}.

Definition emit (s : step) (w : world) : world :=
  mkWorld (sql_parser w) (catalogs w) (connections w) (cursors w) (trace w ++ [s]).

(** The [cursor.execute] calls, one after the other, until one raises. *)
Fixpoint execute_all (stmts : list statement) (n : nat) (f : faults)
         (current : option string) (w : world) : world * option ddl_error :=
  match stmts with
  | [] => (w, None)
  | s :: rest =>
      let w := emit (Execute s) w in
      if match lost_at f with Some k => Nat.eqb k n | None => false end
      then (w, Some ConnectionError)
      else
        match exec_statement (sql_parser w) s current (catalogs w) with
        | (sv, current, None) =>
            execute_all rest (S n) f current
                        (mkWorld (sql_parser w) sv (connections w) (cursors w) (trace w))
        | (sv, _, Some e) =>
            (mkWorld (sql_parser w) sv (connections w) (cursors w) (trace w), Some e)
        end
  end.

(** The local variables [conn] and [cursor]. *)
Record locals : Type := mkLocals {
  conn : bool;
  cursor : bool
}.

(** The [try:] block: connect to the server without a database, open a
    cursor, run the statements, commit. *)
Definition try_block (c : Config.db_config) (f : faults) (w : world)
  : world * locals * option ddl_error :=
  let w := emit (Connect (Config.host c) (Config.user c) (Config.password c)) w in
  if connect_fails f then (w, mkLocals false false, Some ConnectionError)
  else
    let w := mkWorld (sql_parser w) (catalogs w) (S (connections w)) (cursors w)
                     (trace w) in
    let w := emit OpenCursor w in
    if cursor_fails f then (w, mkLocals true false, Some ConnectionError)
    else
      let w := mkWorld (sql_parser w) (catalogs w) (connections w) (S (cursors w))
                       (trace w) in
      match execute_all (init_db_statements (sql_parser w) (Config.database c))
                        0 f None w with
      | (w, Some e) => (w, mkLocals true true, Some e)
      | (w, None) =>
          let w := emit Commit w in
          if commit_fails f then (w, mkLocals true true, Some ConnectionError)
          else (w, mkLocals true true, None)
      end.

(** The [except mysql.connector.Error as err:] block. *)
Definition except_block (f : faults) (l : locals) (r : option ddl_error) (w : world)
  : world * option ddl_error :=
  match r with
  | None => (w, None)
  | Some e =>
      if conn l then
        let w := emit Rollback w in
        if rollback_fails f then (w, Some ConnectionError) else (w, Some e)
      else (w, Some e)
  end.

(** The [finally:] block. *)
Definition finally_block (l : locals) (w : world) : world :=
  let w := if cursor l
           then mkWorld (sql_parser w) (catalogs w) (connections w) (pred (cursors w))
                        (trace w ++ [CloseCursor])
           else w in
  if conn l
  then mkWorld (sql_parser w) (catalogs w) (pred (connections w)) (cursors w)
               (trace w ++ [CloseConnection])
  else w.

(** [init_db()]: [None] when it returns, the error when it raises. *)
Definition init_db (e : Config.env) (f : faults) (w : world)
  : world * option ddl_error :=
  let config := Config.get_db_config e in
  let '(w, l, r) := try_block config f w in
  let '(w, r) := except_block f l r w in
  (finally_block l w, r).

(** The statements alone, without faults: what they make of a catalog. *)
Fixpoint apply_all (stmts : list ddl) (current : option string) (sv : server)
  : server * option string * option ddl_error :=
  match stmts with
  | [] => (sv, current, None)
  | s :: rest =>
      match exec_ddl s current sv with
      | (sv, current, None) => apply_all rest current sv
      | failed => failed
      end
  end.

(** database/schema.sql, its CREATE DATABASE, USE and CREATE TABLE
    statements, as the mysql client runs them, stopping at the first
    error. *)
Definition schema_sql_users : columns :=
  ["id"; "username"; "email"; "password"; "full_name"; "profile_image";
   "is_active"; "is_admin"; "created_at"; "updated_at"; "last_login"].

Definition schema_sql_presentations : columns :=
  ["id"; "user_id"; "title"; "description"; "content"; "theme"; "slides_count";
   "language"; "ai_model"; "is_public"; "views"; "created_at"; "updated_at"].

Definition schema_sql_statements : list ddl :=
  [ CreateDatabase "gamma_ai";
    Use "gamma_ai";
    CreateTable "users" schema_sql_users [];
    CreateTable "presentations" schema_sql_presentations
                [mkForeignKey "user_id" "users" "id"];
    CreateTable "presentation_shares"
                ["id"; "presentation_id"; "share_token"; "expires_at"; "view_count";
                 "created_at"]
                [mkForeignKey "presentation_id" "presentations" "id"];
    CreateTable "api_usage_log"
                ["id"; "user_id"; "endpoint"; "method"; "status_code";
                 "response_time_ms"; "created_at"]
                [mkForeignKey "user_id" "users" "id"] ].

(** The columns a table has after CREATE TABLE IF NOT EXISTS: those it had,
    or those of the statement. *)
Definition kept_or (cols : columns) (old : option columns) : columns :=
  match old with Some c => c | None => cols end.

Definition run_schema_sql (sv : server) : server :=
  fst (fst (apply_all schema_sql_statements None sv)).

(** The four tables of database/schema.sql. *)
Definition schema_sql_catalog : catalog :=
  [ ("users", schema_sql_users);
    ("presentations", schema_sql_presentations);
    ("presentation_shares",
     ["id"; "presentation_id"; "share_token"; "expires_at"; "view_count"; "created_at"]);
    ("api_usage_log",
     ["id"; "user_id"; "endpoint"; "method"; "status_code"; "response_time_ms";
      "created_at"]) ].

End InitDbRun.

(* ================================================================== *)
(** * Concrete data for the examples of the scripts and of [init_db] *)
(* ================================================================== *)

Module SetupSamples.

Import InitDbRun.

(** No variable set; DB_HOST set to the empty string. *)
Definition bare_env : Config.env := fun _ => None.
Definition empty_host_env : Config.env := Config.setenv "DB_HOST" "" bare_env.
Definition other_name_env : Config.env :=
  Config.setenv "DB_PASSWORD" "secret" (Config.setenv "DB_NAME" "decks" bare_env).

(** A server that reserves some words and answers any text it does not
    read as a statement of [init_db] with a syntax error. *)
Definition a_parser : parser :=
  mkParser (fun d => existsb (String.eqb d) ["select"; "table"; "order"; "group"; "int1"])
           (fun _ current sv => (sv, current, Some SyntaxError)).

(** DB_NAME set to a value with a hyphen. *)
Definition hyphen_env : Config.env := Config.setenv "DB_NAME" "my-db" bare_env.

(** A server without databases, and one on which database/schema.sql has
    been run. *)
Definition fresh : world := mkWorld a_parser [] 0 0 [].
Definition after_schema_sql : world := mkWorld a_parser (run_schema_sql []) 0 0 [].


(** The connection is lost as CREATE TABLE presentations is sent. *)
Definition lost_at_presentations : faults := mkFaults false false (Some 3%nat) false false.

Definition only_users : server := [("gamma_ai", [("users", users_columns)])].

(** A server that has the users table of [init_db]. *)
Definition with_users : world := mkWorld a_parser only_users 0 0 [].

(** The mysql client reaches the server and the schema runs. *)
Definition all_succeed (_ : Config.command) : bool := true.

End SetupSamples.

(* ================================================================== *)
(** * database/schema.sql: the admin row and the view [user_statistics] *)
(* ================================================================== *)

Module SchemaSqlViews.

Import SchemaSql.

(** A row of the view [user_statistics]. *)
Record statistics_row : Type := mkStatistics {
  stat_id : Z;
  stat_username : string;
  stat_email : string;
  total_presentations : Z;
  total_views : option Z;
  last_presentation_date : option Z;
  user_since : option Z
}.

(** FROM users u LEFT JOIN presentations p ON u.id = p.user_id: a user
    without presentations is joined with a row of NULLs. *)
Definition left_join_presentations (ps : list presentation) (u : user)
  : list (user * option presentation) :=
  match filter (fun p => user_id u =? pres_user_id p) ps with
  | [] => [(u, None)]
  | joined => map (fun p => (u, Some p)) joined
  end.

Definition from_left_join (d : db) : list (user * option presentation) :=
  flat_map (left_join_presentations (presentations d)) (users d).

(** GROUP BY u.id: the ids, each once, in the order of their first row. *)
Fixpoint group_ids (ids : list Z) : list Z :=
  match ids with
  | [] => []
  | i :: rest => i :: filter (fun j => negb (j =? i)) (group_ids rest)
  end.

Definition group_key (r : user * option presentation) : Z := user_id (fst r).

Definition group_by_user_id (rows : list (user * option presentation))
  : list (list (user * option presentation)) :=
  map (fun i => filter (fun r => group_key r =? i) rows) (group_ids (map group_key rows)).

(** The values of a column of [p] in a group that are not NULL. *)
Definition column_values (column : presentation -> option Z)
           (g : list (user * option presentation)) : list Z :=
  flat_map (fun r => match snd r with
                     | Some p => match column p with Some v => [v] | None => [] end
                     | None => []
                     end) g.

(** COUNT(p.id): [id] is the primary key of presentations, so it is NULL
    only in the row of NULLs of the LEFT JOIN. *)
Definition count_id (g : list (user * option presentation)) : Z :=
  Z.of_nat (List.length (column_values (fun p => Some (pres_id p)) g)).

(** SUM and MAX are NULL when there is no value that is not NULL. *)
Definition sum (vs : list Z) : option Z :=
  match vs with
  | [] => None
  | _ => Some (fold_right Z.add 0 vs)
  end.

Definition maximum (vs : list Z) : option Z :=
  match vs with
  | [] => None
  | v :: rest => Some (fold_right Z.max v rest)
  end.

Section UsersCreatedAt.

(** The column [users.created_at], which the record [user] leaves out. *)
Variable users_created_at : user -> option Z.

(** SELECT u.id, u.username, u.email, COUNT(p.id), SUM(p.views),
    MAX(p.created_at), u.created_at: the columns of [u] are those of the
    first row of the group. *)
Definition select_statistics (g : list (user * option presentation))
  : list statistics_row :=
  match g with
  | [] => []
  | (u, _) :: _ =>
      [mkStatistics (user_id u) (username u) (email u)
                    (count_id g)
                    (sum (column_values views g))
                    (maximum (column_values created_at g))
                    (users_created_at u)]
  end.

(** CREATE OR REPLACE VIEW user_statistics *)
Definition user_statistics (d : db) : list statistics_row :=
  flat_map select_statistics (group_by_user_id (from_left_join d)).

End UsersCreatedAt.

(** The rows that the view [popular_presentations] chooses from, before
    ORDER BY and LIMIT. *)
Definition public_rows (d : db) : list popular_row :=
  map select_row (filter where_public (from_join d)).

(** [a] may stand before [b] under ORDER BY p.views DESC. *)
Definition before (a b : popular_row) : Prop :=
  views_leb (pop_views b) (pop_views a) = true.

Definition all_after (r : popular_row) (rows : list popular_row) : Prop :=
  forall x, In x rows -> before r x.

Fixpoint descending (rows : list popular_row) : Prop :=
  match rows with
  | [] => True
  | r :: rest => all_after r rest /\ descending rest
  end.

Section Collation.

(** The collation of the columns: two strings are equal when their keys
    are (utf8mb4_unicode_ci does not tell case apart). *)
Variable key : string -> string.

Definition same (a b : string) : bool := String.eqb (key a) (key b).

(** The row of the INSERT clashes with [u] on one of the UNIQUE indexes. *)
Definition duplicate_key (name mail : string) (u : user) : bool :=
  same (username u) name || same (email u) mail.

Definition admin_row (id : Z) : user :=
  mkUser id "admin" "admin@gamma-ai.com"
         "$2b$12$LQv3c1yqBWVHxkd0LHAkCOYz6TtxMQJqhN8/LewY5agyWw3MfXQUm"
         (Some "Admin User") None (Some 1) (Some 1).

(** INSERT INTO users (username, email, password, full_name, is_admin)
    VALUES ('admin', ...) ON DUPLICATE KEY UPDATE username=username, with
    [auto_increment] the id the table gives the new row.  On a clash the
    UPDATE sets [username] to itself: no row changes. *)
Definition insert_admin (auto_increment : Z) (d : db) : db :=
  if existsb (duplicate_key "admin" "admin@gamma-ai.com") (users d) then d
  else mkDb (users d ++ [admin_row auto_increment])
            (presentations d) (presentation_shares d) (api_usage_log d).

End Collation.

End SchemaSqlViews.

(* ================================================================== *)
(** * JavaScript values of the client scripts *)
(* ================================================================== *)

Module Js.

(** A [string] stands for a JavaScript string whose code units are all
    below 256, one [ascii] for each code unit. *)

(** The values that the scripts store, test and print: [undefined], [null],
    an integer and a string.  [JsNumber n] is the Number that holds the
    integer [n] exactly, which takes [n] of at most 2^53 in magnitude (the
    ids and status codes of the answers); the model is about these
    only. *)
Inductive js_value : Type :=
| JsUndefined
| JsNull
| JsNumber (n : Z)
| JsString (s : string).

(** [!!v] *)
Definition truthy (v : js_value) : bool :=
  match v with
  | JsUndefined | JsNull => false
  | JsNumber n => negb (n =? 0)
  | JsString s => negb (String.eqb s "")
  end.

(** [String(v)], as a template literal and [localStorage.setItem] print
    it.  A Number that holds an integer below 10^21 in magnitude is
    printed in decimal digits, so every [JsNumber n] of the model is;
    the exponent form of larger Numbers is not modelled. *)
Definition to_string (v : js_value) : string :=
  match v with
  | JsUndefined => "undefined"
  | JsNull => "null"
  | JsNumber n => Editor.string_of_Z n
  | JsString s => s
  end.

(** The value of [localStorage.getItem]: a string, or [null]. *)
Definition of_item (v : option string) : js_value :=
  match v with
  | Some s => JsString s
  | None => JsNull
  end.

(** [localStorage]. *)
Definition storage : Type := list (string * string).

Fixpoint getItem (k : string) (st : storage) : option string :=
  match st with
  | [] => None
  | (k', v) :: rest => if String.eqb k' k then Some v else getItem k rest
  end.

Definition removeItem (k : string) (st : storage) : storage :=
  filter (fun kv => negb (String.eqb (fst kv) k)) st.

Definition setItem (k v : string) (st : storage) : storage :=
  (k, v) :: removeItem k st.

End Js.

(* ================================================================== *)
(** * js/editor.js: [formatSlideContent] and the export functions *)
(* ================================================================== *)

Module EditorContent.

Import Editor.

(** [.] of a regular expression matches every code unit but a line
    terminator (of those, LF and CR are code units of [string]). *)
Definition is_line_terminator (c : ascii) : bool :=
  let n := nat_of_ascii c in (n =? 10)%nat || (n =? 13)%nat.

(** [(.*?)\*\*] matched at the start of [s]: the shortest capture, up to
    the first two stars that follow with no line terminator before them. *)
Fixpoint close_bold (s : string) : option string :=
  match s with
  | String "*" (String "*" _) => Some EmptyString
  | String c r =>
      if is_line_terminator c then None
      else match close_bold r with
           | Some inner => Some (String c inner)
           | None => None
           end
  | EmptyString => None
  end.

(** [\*\*(.*?)\*\*] matched at the start of [s]: the capture. *)
Definition bold_at (s : string) : option string :=
  match s with
  | String "*" (String "*" r) => close_bold r
  | _ => None
  end.

(** [content.replace(/\*\*(.*?)\*\*/g, '<strong>$1</strong>')]: the matches
    are taken from left to right and do not overlap; [skip] counts the code
    units of the last match that are still to be passed over. *)
Fixpoint replace_bold (skip : nat) (s : string) : string :=
  match s with
  | EmptyString => EmptyString
  | String c r =>
      match skip with
      | S k => replace_bold k r
      | O =>
          match bold_at s with
          | Some inner =>
              ("<strong>" ++ inner ++ "</strong>"
                 ++ replace_bold (3 + String.length inner) r)%string
          | None => String c (replace_bold 0 r)
          end
      end
  end.

Definition LF : ascii := ascii_of_nat 10.

(** [content.replace(/\n/g, '<br>')] *)
Fixpoint replace_newlines (s : string) : string :=
  match s with
  | EmptyString => EmptyString
  | String c r =>
      if Ascii.eqb c LF then ("<br>" ++ replace_newlines r)%string
      else String c (replace_newlines r)
  end.

(** [formatSlideContent(content)], for a string. *)
Definition formatSlideContent (content : string) : string :=
  if String.eqb content "" then ""
  else
    let content := replace_bold 0 content in
    let content := replace_newlines content in
    let maxLength := 500%nat in
    if (maxLength <? String.length content)%nat
    then (substring 0 maxLength content ++ "...")%string
    else content.

(** The markup that [renderSlides] puts into a card for the content. *)
Definition card_html (c : card) : string := formatSlideContent (card_content c).

Definition chars (s : string) : list ascii := list_ascii_of_string s.

Definition is_toast (e : ui_event) : bool :=
  match e with ShowToast _ => true | _ => false end.

End EditorContent.

Module EditorExport.

Import Js.

(** [currentPresentation], as far as the export functions read it. *)
Record current_presentation : Type := mkCurrent {
  cp_id : js_value;
  cp_title : js_value
}.

(** exportPDF, exportDOCX and exportPPTX are the same function up to the
    name of the format. *)
Inductive export_format : Type := Pdf | Docx | Pptx.

(** The last segment of the URL, and the extension of the file. *)
Definition extension (f : export_format) : string :=
  match f with Pdf => "pdf" | Docx => "docx" | Pptx => "pptx" end.

Definition label (f : export_format) : string :=
  match f with Pdf => "PDF" | Docx => "DOCX" | Pptx => "PPTX" end.

(** [await fetch(...)], then [await response.blob()]: the blob, or the
    message of what is thrown. *)
Inductive export_answer : Type :=
| ExportFetchThrows (message : string)
| ExportResponse (ok : bool) (blob : string + string).

Inductive export_toast : Type :=
| NoPresentation
| Generating (f : export_format)
| Downloaded (f : export_format)
| ExportFailed (f : export_format) (message : string).

Inductive export_event : Type :=
| ExportToast (t : export_toast)
| ExportFetch (url authorization : string)
| DownloadBlob (blob filename : string).

(** [`${API_BASE}/presentations/${currentPresentation.id}/pdf`] with
    [API_BASE = window.location.origin + '/api']. *)
Definition export_url (f : export_format) (origin : string) (id : js_value) : string :=
  ((origin ++ "/api") ++ "/presentations/" ++ to_string id ++ "/" ++ extension f)%string.

Definition export_as (f : export_format) (server : string -> string -> export_answer)
           (origin : string) (st : storage) (currentPresentation : option current_presentation)
  : list export_event :=
  match currentPresentation with
  | None => [ExportToast NoPresentation]
  | Some current =>
      if negb (truthy (cp_id current)) then [ExportToast NoPresentation]
      else
        let token := of_item (getItem "token" st) in
        let url := export_url f origin (cp_id current) in
        let authorization := ("Bearer " ++ to_string token)%string in
        [ExportToast (Generating f); ExportFetch url authorization]
        ++ match server url authorization with
           | ExportFetchThrows message => [ExportToast (ExportFailed f message)]
           | ExportResponse ok blob =>
               if negb ok
               then [ExportToast (ExportFailed f (label f ++ " export failed")%string)]
               else match blob with
                    | inl b =>
                        [DownloadBlob b (to_string (cp_title current) ++ "." ++ extension f)%string;
                         ExportToast (Downloaded f)]
                    | inr message => [ExportToast (ExportFailed f message)]
                    end
           end
  end.

Definition exportPDF := export_as Pdf.
Definition exportDOCX := export_as Docx.
Definition exportPPTX := export_as Pptx.

Definition is_export_fetch (e : export_event) : bool :=
  match e with ExportFetch _ _ => true | _ => false end.

Definition is_download (e : export_event) : bool :=
  match e with DownloadBlob _ _ => true | _ => false end.

End EditorExport.

(* ================================================================== *)
(** * js/api.js *)
(* ================================================================== *)

Module Api.

Import Js Editor.

Definition getToken (st : storage) : option string := getItem "token" st.

Definition isAuthenticated (st : storage) : bool := truthy (of_item (getToken st)).

Definition setToken (token : js_value) (st : storage) : storage :=
  setItem "token" (to_string token) st.

Definition clearAuth (st : storage) : storage :=
  removeItem "user" (removeItem "token" st).

(** An object of header names and values. *)
Definition headers : Type := list (string * string).

(** [{...a, ...b}]: the keys of [a], with the value of [b] where [b] has
    the key, then the keys that only [b] has. *)
Definition spread (a b : headers) : headers :=
  map (fun kv => (fst kv, match getItem (fst kv) b with
                          | Some v => v
                          | None => snd kv
                          end)) a
  ++ filter (fun kv => match getItem (fst kv) a with
                       | Some _ => false
                       | None => true
                       end) b.

(** The [options] of a call, as far as api.js sets them. *)
Record options : Type := mkOptions {
  opt_method : option string;
  opt_body : option string;
  opt_headers : option headers
}.

Definition no_options : options := mkOptions None None None.

(** The arguments of [fetch]. *)
Record fetch_call : Type := mkFetchCall {
  fc_url : string;
  fc_method : option string;
  fc_body : option string;
  fc_headers : headers
}.

(** [{ success: true, data }] or [{ success: false, error }]. *)
Inductive api_result : Type :=
| ApiSuccess (data : data_json)
| ApiFailure (error : string).

Definition default_headers (st : storage) : headers :=
  ("Content-Type", "application/json")
  :: (if isAuthenticated st
      then [("Authorization", ("Bearer " ++ to_string (of_item (getToken st)))%string)]
      else []).

(** [apiRequest(endpoint, options)]: the call of [fetch] and what is
    returned. *)
Definition apiRequest (server : fetch_call -> http) (origin : string) (st : storage)
           (endpoint : string) (opts : options) : fetch_call * api_result :=
  let mergedOptions :=
    mkFetchCall ((origin ++ "/api") ++ endpoint)%string
                (opt_method opts) (opt_body opts)
                (spread (default_headers st)
                        (match opt_headers opts with Some h => h | None => [] end)) in
  (mergedOptions,
   match server mergedOptions with
   | FetchThrows message => ApiFailure message
   | JsonThrows _ message => ApiFailure message
   | Response ok _ data =>
       if negb ok then ApiFailure (or_else (dj_error data) "Request failed")
       else ApiSuccess data
   end).

(** [PresentationsAPI.getExportUrl(id, format)] *)
Definition getExportUrl (origin : string) (id format : js_value) : string :=
  ((origin ++ "/api") ++ "/presentations/" ++ to_string id
     ++ "/export?format=" ++ to_string format)%string.

End Api.

(* ================================================================== *)
(** * js/auth.js *)
(* ================================================================== *)

Module Auth.

Import Js.

Definition is_login_page (currentPath : string) : bool :=
  String.eqb currentPath "/" || String.eqb currentPath "/index.html".

(** [checkAuth()]: what it returns, and where it sends the browser. *)
Definition checkAuth (st : storage) (currentPath : string) : bool * option string :=
  let token := of_item (getItem "token" st) in
  if negb (truthy token) && negb (is_login_page currentPath) then (false, Some "/")
  else if truthy token && is_login_page currentPath then (false, Some "/dashboard")
  else (true, None).

(** [await API.login(...)] or [await API.signup(...)]: it throws, or gives
    an object with the fields [token] and [user]; [user] is the text that
    [JSON.stringify] makes of it, [None] when that is [undefined]. *)
Inductive api_answer : Type :=
| Throws (message : string)
| Resolves (token : js_value) (user : option string).

Inductive auth_toast : Type :=
| LoginSuccessful
| AccountCreated                (* Account created! Redirecting... *)
| AccountCreatedSuccessfully    (* Account created successfully! *)
| PasswordsDoNotMatch
| LoggedOut
| AuthFailed (message : string).

Inductive auth_event : Type :=
| PreventDefault
| DisableButton
| CallLogin (email password : string)
| CallSignup (name email password : string)
| AuthToast (t : auth_toast)
| RedirectLater (path : string) (milliseconds : Z)
| EnableButton.

(** What follows [const data = await API...] in the three handlers. *)
Definition store_answer (success : auth_toast) (answer : api_answer) (st : storage)
  : storage * list auth_event :=
  match answer with
  | Resolves token user =>
      (setItem "user" (match user with Some json => json | None => "undefined" end)
               (setItem "token" (to_string token) st),
       [AuthToast success; RedirectLater "/dashboard" 1000])
  | Throws message => (st, [AuthToast (AuthFailed message); EnableButton])
  end.

(** The submit handler of [loginForm]. *)
Definition login_submit (login : string -> string -> api_answer)
           (email password : string) (st : storage) : storage * list auth_event :=
  let (st', events) := store_answer LoginSuccessful (login email password) st in
  (st', [PreventDefault; DisableButton; CallLogin email password] ++ events).

(** The submit handler of a [signupForm] that is in the page when the
    script loads; [confirmPassword] is [None] when the page has no such
    field. *)
Definition signup_submit (signup : string -> string -> string -> api_answer)
           (name email password : string) (confirmPassword : option string)
           (st : storage) : storage * list auth_event :=
  if truthy (match confirmPassword with Some c => JsString c | None => JsUndefined end)
     && negb (String.eqb password
                (match confirmPassword with Some c => c | None => "" end))
  then (st, [PreventDefault; AuthToast PasswordsDoNotMatch])
  else
    let (st', events) := store_answer AccountCreated (signup name email password) st in
    (st', [PreventDefault; DisableButton; CallSignup name email password] ++ events).

(** The submit handler that [showSignup()] adds to the form of its modal. *)
Definition modal_signup_submit (signup : string -> string -> string -> api_answer)
           (name email password confirmPassword : string)
           (st : storage) : storage * list auth_event :=
  if negb (String.eqb password confirmPassword)
  then (st, [PreventDefault; AuthToast PasswordsDoNotMatch])
  else
    let (st', events) :=
      store_answer AccountCreatedSuccessfully (signup name email password) st in
    (st', [PreventDefault; DisableButton; CallSignup name email password] ++ events).

(** [logout()], with the answer to [confirm(...)]. *)
Definition logout (confirmed : bool) (st : storage) : storage * list auth_event :=
  if confirmed
  then (removeItem "user" (removeItem "token" st),
        [AuthToast LoggedOut; RedirectLater "/" 500])
  else (st, []).

Definition is_call (e : auth_event) : bool :=
  match e with CallLogin _ _ | CallSignup _ _ _ => true | _ => false end.

End Auth.

(* ================================================================== *)
(** * js/editor.js: the run of [generatePresentation] after the request *)
(* ================================================================== *)

Module EditorRun.

Import Editor.

(** What follows the request in [generatePresentation]: the events of the
    answer, or those of the [catch] block. *)
Definition after_fetch (pg : page) (answer : http) : list ui_event :=
  match handle_answer pg answer with
  | inl events => events
  | inr message =>
      [ShowToast (Failed message)]
      ++ (if slidesPreview pg then [ShowFailure message] else [])
  end.

(** The card that [renderSlides] makes of the slide at [index]. *)
Definition card_of (index : Z) (s : slide_json) : card :=
  mkCard (index + 1)
         (or_else (sj_title s) ("Slide " ++ string_of_Z (index + 1))%string)
         (or_else (sj_content s) "")
         (match sj_image s with
          | Some i => if String.eqb i "" then None else Some i
          | None => None
          end).

End EditorRun.

(* ================================================================== *)
(** * models/database.PY: the keys of the three tables *)
(* ================================================================== *)

Module InitDbKeys.

Import InitDb.

(** FOREIGN KEY (user_id) REFERENCES users(id): every presentation row
    belongs to a user row. *)
Definition presentations_reference_users (d : db) : Prop :=
  forall p, In p (presentations d) ->
            exists u, In u (users d) /\ user_id u = pres_user_id p.

(** PRIMARY KEY (id) of presentations and of slides. *)
Definition primary_keys (d : db) : Prop :=
  NoDup (map pres_id (presentations d)) /\ NoDup (map slide_id (slides d)).

End InitDbKeys.

(* ================================================================== *)
(** * start.sh *)
(* ================================================================== *)

Module StartSh.

(** The files that the script tests for or makes. *)
Record files : Type := mkFiles {
  venv : bool;              (* the directory venv *)
  dot_env : bool;           (* the file .env *)
  dot_env_example : bool    (* the file .env.example *)
}.

(** The commands run, apart from [echo].  The script does not set [-e]:
    a command that fails does not stop it. *)
Inductive command : Type :=
| CreateVenv        (* python3 -m venv venv *)
| Activate          (* source venv/bin/activate *)
| CopyEnvExample    (* cp .env.example .env *)
| PipInstall        (* pip install -q -r requirements.txt *)
| RunPy.            (* python run.py *)

(** One run of the script: the files after it, the commands run and the
    exit status.  [venv_created] tells whether [python3 -m venv] makes the
    directory and [run_py] is the exit status of [python run.py], which is
    the last command; [cp] makes .env when there is a .env.example. *)
Definition start_sh (venv_created : bool) (run_py : Z) (fs : files)
  : files * list command * Z :=
  let '(fs, first) :=
    if negb (venv fs)
    then (mkFiles venv_created (dot_env fs) (dot_env_example fs), [CreateVenv])
    else (fs, []) in
  if negb (dot_env fs)
  then (mkFiles (venv fs) (dot_env_example fs) (dot_env_example fs),
        first ++ [Activate; CopyEnvExample], 1)
  else (fs, first ++ [Activate; PipInstall; RunPy], run_py).

Definition files_after (r : files * list command * Z) : files := fst (fst r).
Definition commands_of (r : files * list command * Z) : list command := snd (fst r).
Definition exit_status (r : files * list command * Z) : Z := snd r.

End StartSh.

(* ================================================================== *)
(** * Sample data of the client scripts, the views and start.sh *)
(* ================================================================== *)

Module ClientSamples.

Import Js.

(** An answer with an ok status that reports a failure. *)
Definition refusal : Editor.data_json :=
  Editor.mkDataJson None false (Some "Quota exceeded") None.

Definition answers_refusal (_ : Api.fetch_call) : Editor.http :=
  Editor.Response true 200 refusal.

(** A presentation with the id 7, and a server that answers with a file. *)
Definition deck_seven : EditorExport.current_presentation :=
  EditorExport.mkCurrent (JsNumber 7) (JsString "Climate").

Definition answers_file (_ _ : string) : EditorExport.export_answer :=
  EditorExport.ExportResponse true (inl "%PDF-1.7").

(** A login call that returns an object with no token. *)
Definition login_without_token (_ _ : string) : Auth.api_answer :=
  Auth.Resolves JsUndefined None.

(** A user who took the name Admin, with the password hash-x. *)
Definition sql_admin_taken : SchemaSql.db :=
  SchemaSql.mkDb
    [SchemaSql.mkUser 1 "Admin" "eve@example.com" "hash-x" None None (Some 1) (Some 0)]
    [] [] [].

(** A checkout with the template and nothing else. *)
Definition fresh_checkout : StartSh.files := StartSh.mkFiles false false true.

End ClientSamples.

(* ================================================================== *)
(** * Properties of the tables (models/database.PY) *)
(* ================================================================== *)

Module InitDbFacts.

Import InitDb.

Lemma mem_In (x : Z) (l : list Z) : mem x l = true <-> In x l.
Proof.
  unfold mem. rewrite existsb_exists. split.
  - intros [y [Hy Heq]]. apply Z.eqb_eq in Heq. now subst.
  - intros H. exists x. split; [assumption | apply Z.eqb_refl].
Qed.

Lemma mem_false (x : Z) (l : list Z) : mem x l = false <-> ~ In x l.
Proof.
  rewrite <- mem_In. destruct (mem x l); split; intros; congruence.
Qed.

Lemma max_bound (l : list Z) (x : Z) : In x l -> x <= fold_right Z.max 0 l.
Proof.
  induction l as [|h t IH]; simpl; [contradiction|].
  intros [-> | Hin]; [lia | specialize (IH Hin); lia].
Qed.

Lemma next_id_above (l : list Z) (x : Z) : In x l -> x < next_id l.
Proof. intros H. apply max_bound in H. unfold next_id. lia. Qed.

Lemma next_id_fresh (l : list Z) : ~ In (next_id l) l.
Proof. intros H. apply next_id_above in H. lia. Qed.

Lemma max_snoc (l : list Z) (x : Z) :
  fold_right Z.max 0 (l ++ [x]) = Z.max (fold_right Z.max 0 l) (Z.max x 0).
Proof. induction l as [|h t IH]; simpl; [lia | rewrite IH; lia]. Qed.

Lemma next_id_positive (l : list Z) : 1 <= next_id l.
Proof.
  unfold next_id. assert (0 <= fold_right Z.max 0 l); [|lia].
  induction l; simpl; lia.
Qed.

Lemma next_id_snoc (l : list Z) : next_id (l ++ [next_id l]) = next_id l + 1.
Proof.
  pose proof (next_id_positive l) as Hpos.
  unfold next_id in *. rewrite max_snoc. lia.
Qed.

Lemma NoDup_snoc {A : Type} (l : list A) (x : A) :
  NoDup l -> ~ In x l -> NoDup (l ++ [x]).
Proof.
  intros Hl Hx. apply NoDup_app; [assumption | repeat constructor; intros [] | ].
  intros y Hy [<- | []]. contradiction.
Qed.

(** Deleting rows keeps a column free of duplicates. *)
Lemma filter_keeps_column_unique {Row Col : Type} (rows : list Row)
      (column : Row -> Col) (keep : Row -> bool) :
  NoDup (map column rows) -> NoDup (map column (filter keep rows)).
Proof.
  intros Hunique. induction rows as [|row rest IH]; [constructor|].
  cbn [map] in Hunique. apply NoDup_cons_iff in Hunique as [Hfresh Hrest].
  cbn [filter]. destruct (keep row); [|now apply IH].
  cbn [map]. apply NoDup_cons; [|now apply IH].
  intros Hin. apply Hfresh. apply in_map_iff in Hin as [other [Hcol Hin]].
  apply filter_In in Hin as [Hin _]. apply in_map_iff. eauto.
Qed.

Lemma NoDup_map_injective {A B : Type} (f : A -> B) (l : list A) (x y : A) :
  NoDup (map f l) -> In x l -> In y l -> f x = f y -> x = y.
Proof.
  induction l as [|h t IH]; simpl; [contradiction|].
  intros Hnd Hx Hy Heq. inversion Hnd as [|? ? Hnotin Hnd']; subst.
  destruct Hx as [-> | Hx], Hy as [-> | Hy]; auto.
  - exfalso. apply Hnotin. rewrite Heq. now apply in_map.
  - exfalso. apply Hnotin. rewrite <- Heq. now apply in_map.
Qed.

(** ** Slide numbering *)

Lemma contiguous_nil : contiguous_from_1 [].
Proof. split; [constructor|]. intros k. simpl. lia. Qed.

Lemma contiguous_snoc (l : list Z) :
  contiguous_from_1 l ->
  contiguous_from_1 (l ++ [1 + Z.of_nat (List.length l)]).
Proof.
  intros [Hnd Hrange]. split.
  - apply NoDup_snoc; [assumption|]. intros Hin. apply Hrange in Hin. lia.
  - intros k. rewrite in_app_iff, length_app, Hrange.
    change (In k [1 + Z.of_nat (List.length l)])
      with (1 + Z.of_nat (List.length l) = k \/ False).
    change (List.length [1 + Z.of_nat (List.length l)]) with 1%nat. lia.
Qed.

Lemma contiguous_remove_last (l1 l2 : list Z) (n : Z) :
  contiguous_from_1 (l1 ++ n :: l2) ->
  n = Z.of_nat (List.length (l1 ++ n :: l2)) ->
  contiguous_from_1 (l1 ++ l2).
Proof.
  intros [Hnd Hrange] Hn. apply NoDup_remove in Hnd as [Hnd Hnotin]. split; [assumption|].
  rewrite length_app in Hn. simpl in Hn.
  intros k. rewrite length_app. split.
  - intros Hin. assert (k <> n) by (intros ->; contradiction).
    assert (In k (l1 ++ n :: l2)) as Hk.
    { apply in_app_iff in Hin as [Hin | Hin]; apply in_app_iff; simpl; auto. }
    apply Hrange in Hk. rewrite length_app in Hk. simpl in Hk. lia.
  - intros Hk. assert (In k (l1 ++ n :: l2)) as Hin.
    { apply Hrange. rewrite length_app. simpl. lia. }
    apply in_app_iff in Hin as [Hin | [Heq | Hin]]; apply in_app_iff; auto. lia.
Qed.

Lemma filter_cascade (g : Z -> bool) (p : Z) (l : list slide) :
  filter (of_presentation p) (filter (fun s => g (slide_presentation_id s)) l)
  = if g p then filter (of_presentation p) l else [].
Proof.
  induction l as [|s t IH]; simpl; [now destruct (g p)|].
  unfold of_presentation at 2.
  destruct (Z.eqb_spec (slide_presentation_id s) p) as [Heq | Hneq].
  - rewrite Heq. destruct (g p) eqn:Hg; simpl.
    + unfold of_presentation at 1. rewrite Heq, Z.eqb_refl, IH. reflexivity.
    + exact IH.
  - destruct (g (slide_presentation_id s)); simpl; [|exact IH].
    unfold of_presentation at 1. apply Z.eqb_neq in Hneq. rewrite Hneq. exact IH.
Qed.

Lemma slide_numbers_cascade (g : Z -> bool) (p : Z) (us : list user)
      (ps : list presentation) (d : db) :
  contiguous_from_1 (slide_numbers p d) ->
  contiguous_from_1
    (slide_numbers p (mkDb us ps (filter (fun s => g (slide_presentation_id s)) (slides d)))).
Proof.
  unfold slide_numbers. cbn [slides]. intros H.
  rewrite filter_cascade. destruct (g p); [assumption | apply contiguous_nil].
Qed.

Lemma set_slide_numbers (i n : Z) (t c : option string) (p : Z) (l : list slide) :
  forallb (fun sl => negb (slide_id sl =? i) || (slide_number sl =? n)) l = true ->
  map slide_number (filter (of_presentation p) (map (set_slide i n t c) l))
  = map slide_number (filter (of_presentation p) l).
Proof.
  induction l as [|s r IH]; simpl; [reflexivity|].
  intros H. apply andb_true_iff in H as [Hs Hr]. specialize (IH Hr).
  assert (of_presentation p (set_slide i n t c s) = of_presentation p s) as Hp.
  { unfold set_slide. destruct (slide_id s =? i); reflexivity. }
  assert (slide_number (set_slide i n t c s) = slide_number s) as Hn.
  { unfold set_slide. destruct (slide_id s =? i); simpl in *; [|reflexivity].
    apply Z.eqb_eq in Hs. now symmetry. }
  rewrite Hp. destruct (of_presentation p s); simpl; [rewrite Hn|]; now rewrite IH.
Qed.

Lemma filter_all {A : Type} (f : A -> bool) (l : list A) :
  (forall x, In x l -> f x = true) -> filter f l = l.
Proof.
  induction l as [|h t IH]; simpl; intros H; [reflexivity|].
  rewrite (H h) by auto. f_equal. apply IH. auto.
Qed.

(** With PRIMARY KEY (id), DELETE ... WHERE id = i removes at most one row. *)
Lemma delete_by_id (i : Z) (l : list slide) :
  NoDup (map slide_id l) ->
  filter (fun sl => negb (slide_id sl =? i)) l = l
  \/ exists l1 s l2, l = l1 ++ s :: l2 /\ slide_id s = i
                     /\ filter (fun sl => negb (slide_id sl =? i)) l = l1 ++ l2.
Proof.
  induction l as [|s t IH]; simpl; intros Hnd; [now left|].
  inversion Hnd as [|? ? Hnotin Hnd']; subst.
  destruct (Z.eqb_spec (slide_id s) i) as [Heq | Hneq]; simpl.
  - right. exists [], s, t. repeat split; auto. simpl.
    apply filter_all. intros x Hx. apply negb_true_iff, Z.eqb_neq.
    intros Hxi. apply Hnotin. rewrite Heq, <- Hxi. now apply in_map.
  - destruct (IH Hnd') as [Hsame | [l1 [s' [l2 [Hl [Hid Hf]]]]]].
    + left. now rewrite Hsame.
    + right. exists (s :: l1), s', l2. subst t. repeat split; auto.
      simpl. now rewrite Hf.
Qed.

Section Collation.

Variable key : string -> string.

Let email_key (u : user) : string := key (user_email u).

Lemma email_taken_spec (self : option Z) (e : string) (us : list user) :
  email_taken key self e us = true <->
  exists u, In u us /\ key (user_email u) = key e
            /\ match self with Some i => user_id u <> i | None => True end.
Proof.
  unfold email_taken, same_email. rewrite existsb_exists. split.
  - intros [u [Hin H]]. apply andb_true_iff in H as [Hk Hs].
    apply String.eqb_eq in Hk. exists u. repeat split; auto.
    destruct self; [|exact I]. apply negb_true_iff, Z.eqb_neq in Hs. assumption.
  - intros [u [Hin [Hk Hs]]]. exists u. split; [assumption|].
    apply andb_true_iff. split; [now apply String.eqb_eq|].
    destruct self; [|reflexivity]. now apply negb_true_iff, Z.eqb_neq.
Qed.

Lemma email_free (e : string) (us : list user) :
  email_taken key None e us = false -> ~ In (key e) (map email_key us).
Proof.
  intros Hfree Hin. apply in_map_iff in Hin as [u [Hk Hin]].
  assert (email_taken key None e us = true) as Ht; [|congruence].
  apply email_taken_spec. exists u. auto.
Qed.

Lemma set_email_id (i : Z) (e : string) (us : list user) :
  map user_id (map (set_email i e) us) = map user_id us.
Proof.
  induction us as [|u t IH]; simpl; [reflexivity|]. rewrite IH. f_equal.
  unfold set_email. destruct (user_id u =? i); reflexivity.
Qed.

Lemma set_email_absent (i : Z) (e : string) (us : list user) :
  ~ In i (map user_id us) -> map (set_email i e) us = us.
Proof.
  induction us as [|u t IH]; simpl; intros Hnot; [reflexivity|].
  rewrite IH by tauto. f_equal. unfold set_email.
  destruct (Z.eqb_spec (user_id u) i); [tauto | reflexivity].
Qed.

Lemma set_email_keys (i : Z) (e : string) (us : list user) (k : string) :
  In k (map email_key (map (set_email i e) us)) ->
  In k (map email_key us) \/ k = key e.
Proof.
  induction us as [|u t IH]; simpl; [tauto|].
  intros [Hk | Hin]; [|tauto].
  unfold set_email in Hk. destruct (user_id u =? i); simpl in Hk; auto.
Qed.

Lemma set_email_unique (i : Z) (e : string) (us : list user) :
  NoDup (map user_id us) -> NoDup (map email_key us) ->
  email_taken key (Some i) e us = false ->
  NoDup (map email_key (map (set_email i e) us)).
Proof.
  induction us as [|u t IH]; simpl; intros Hids Hkeys Hfree; [constructor|].
  inversion Hids as [|? ? Hid Hids']; subst.
  inversion Hkeys as [|? ? Hkey Hkeys']; subst.
  unfold email_taken in Hfree. simpl in Hfree.
  apply orb_false_iff in Hfree as [Hu Ht].
  change (email_taken key (Some i) e t = false) in Ht.
  assert (forall v, In v t -> user_id v <> i -> key (user_email v) <> key e) as Hother.
  { intros v Hv Hvi Heq.
    assert (email_taken key (Some i) e t = true) as Hc; [|congruence].
    apply email_taken_spec. exists v. auto. }
  assert (user_id u <> i -> key (user_email u) <> key e) as Hhead.
  { intros Hui Heq. apply andb_false_iff in Hu as [Hu | Hu].
    - unfold same_email in Hu. apply String.eqb_neq in Hu. contradiction.
    - apply negb_false_iff, Z.eqb_eq in Hu. contradiction. }
  clear Hu.
  unfold set_email at 1. destruct (Z.eqb_spec (user_id u) i) as [Hui | Hui].
  - subst i. rewrite set_email_absent by assumption. constructor; [|assumption].
    unfold email_key at 1. simpl. intros Hin.
    apply in_map_iff in Hin as [v [Hk Hv]]. apply (Hother v Hv); [|exact Hk].
    intros Heq. apply Hid. rewrite <- Heq. now apply in_map.
  - constructor; [|now apply IH].
    intros Hin. apply set_email_keys in Hin as [Hin | Heq]; [contradiction|].
    now apply Hhead.
Qed.

(** Every statement that succeeds keeps PRIMARY KEY (id) and UNIQUE (email)
    of users. *)
Lemma exec_stmt_users_ok (s : stmt) (d d' : db) (id : Z) :
  users_ok key d -> exec_stmt key s d = Ok (d', id) -> users_ok key d'.
Proof.
  unfold users_ok. intros [Hids Hkeys] Hexec. fold email_key in Hkeys |- *.
  destruct s as [n e p | i e | i | u t pr c | i t | i | pid num c | i num t c | i];
    simpl in Hexec.
  - destruct n as [n|], e as [e|], p as [p|]; try discriminate.
    destruct (email_taken key None e (users d)) eqn:Hfree; [discriminate|].
    inversion Hexec; subst; clear Hexec. simpl. rewrite !map_app. simpl. split.
    + apply NoDup_snoc; [assumption | apply next_id_fresh].
    + apply NoDup_snoc; [assumption | now apply email_free].
  - destruct (mem i (map user_id (users d))); [|inversion Hexec; subst; auto].
    destruct e as [e|]; [|discriminate].
    destruct (email_taken key (Some i) e (users d)) eqn:Hfree; [discriminate|].
    inversion Hexec; subst; clear Hexec. simpl. split.
    + now rewrite set_email_id.
    + now apply set_email_unique.
  - inversion Hexec; subst; clear Hexec. simpl.
    split; now apply filter_keeps_column_unique.
  - destruct u as [u|], t as [t|], pr as [pr|]; try discriminate.
    destruct (mem u (map user_id (users d))); [|discriminate].
    inversion Hexec; subst; auto.
  - destruct (mem i (map pres_id (presentations d))); [|inversion Hexec; subst; auto].
    destruct t as [t|]; [|discriminate]. inversion Hexec; subst; auto.
  - inversion Hexec; subst; auto.
  - destruct pid as [pid|], num as [num|]; try discriminate.
    destruct (mem pid (map pres_id (presentations d))); [|discriminate].
    inversion Hexec; subst; auto.
  - destruct (mem i (map slide_id (slides d))); [|inversion Hexec; subst; auto].
    destruct num as [num|]; [|discriminate]. inversion Hexec; subst; auto.
  - inversion Hexec; subst; auto.
Qed.

(** An INSERT INTO users with an email that a row already has is refused,
    whatever the other columns. *)
Lemma insert_existing_email (d : db) (u : user) (name password : option string) :
  In u (users d) ->
  exists e, exec_stmt key (InsertUser name (Some (user_email u)) password) d = Err e.
Proof.
  intros Hin. simpl. destruct name; [|eauto]. destruct password; [|eauto].
  assert (email_taken key None (user_email u) (users d) = true) as ->; [|eauto].
  apply email_taken_spec. exists u. auto.
Qed.

Lemma numbering_same_slides (d d' : db) :
  slides d' = slides d -> numbering_ok d -> numbering_ok d'.
Proof. intros Heq H p. unfold slide_numbers. rewrite Heq. apply H. Qed.

(** C6 (amended): the numbering of slides (unique and contiguous from 1
    within each presentation) is kept by every statement on users and on
    presentations, cascading deletes included, by an INSERT of a slide at
    the next position, by an UPDATE of a slide that leaves slide_number as
    it is and by a DELETE of the slide at the last position. *)
Theorem slide_numbering_preserved (s : stmt) (d d' : db) (id : Z) :
  NoDup (map slide_id (slides d)) ->
  numbering_ok d ->
  keeps_numbering s d = true ->
  exec_stmt key s d = Ok (d', id) ->
  numbering_ok d'.
Proof.
  intros Hpk Hok Hkeep Hexec.
  destruct s as [n e p | i e | i | u t pr c | i t | i | pid num c | i num t c | i];
    simpl in Hexec.
  - destruct n as [n|], e as [e|], p as [p|]; try discriminate.
    destruct (email_taken key None e (users d)); [discriminate|].
    inversion Hexec; subst. now apply numbering_same_slides with d.
  - destruct (mem i (map user_id (users d))); [|inversion Hexec; subst; auto].
    destruct e as [e|]; [|discriminate].
    destruct (email_taken key (Some i) e (users d)); [discriminate|].
    inversion Hexec; subst. now apply numbering_same_slides with d.
  - inversion Hexec; subst; clear Hexec. intros p.
    match goal with
    | |- context [filter (fun sl => negb (mem (slide_presentation_id sl) ?gone)) _] =>
        apply (slide_numbers_cascade (fun x => negb (mem x gone)))
    end. apply Hok.
  - destruct u as [u|], t as [t|], pr as [pr|]; try discriminate.
    destruct (mem u (map user_id (users d))); [|discriminate].
    inversion Hexec; subst. now apply numbering_same_slides with d.
  - destruct (mem i (map pres_id (presentations d))); [|inversion Hexec; subst; auto].
    destruct t as [t|]; [|discriminate].
    inversion Hexec; subst. now apply numbering_same_slides with d.
  - inversion Hexec; subst; clear Hexec. intros p.
    match goal with
    | |- context [filter (fun sl => negb (mem (slide_presentation_id sl) ?gone)) _] =>
        apply (slide_numbers_cascade (fun x => negb (mem x gone)))
    end. apply Hok.
  - destruct pid as [pid|], num as [num|]; try discriminate.
    destruct (mem pid (map pres_id (presentations d))); [|discriminate].
    inversion Hexec; subst; clear Hexec.
    cbn [keeps_numbering] in Hkeep. apply Z.eqb_eq in Hkeep.
    intros p. unfold slide_numbers. cbn [slides]. rewrite filter_app, map_app.
    cbn [filter]. unfold of_presentation at 2. cbn [slide_presentation_id].
    destruct (Z.eqb_spec pid p) as [-> | Hneq]; cbn [map].
    + rewrite Hkeep. apply contiguous_snoc, Hok.
    + rewrite app_nil_r. apply Hok.
  - destruct (mem i (map slide_id (slides d))); [|inversion Hexec; subst; auto].
    destruct num as [num|]; [|discriminate].
    inversion Hexec; subst; clear Hexec. simpl in Hkeep.
    intros p. unfold slide_numbers. cbn [slides].
    rewrite set_slide_numbers by assumption. apply Hok.
  - inversion Hexec; subst; clear Hexec. simpl in Hkeep.
    destruct (@delete_by_id i (slides d) Hpk) as [Hsame | [l1 [s [l2 [Hl [Hid Hf]]]]]].
    + apply numbering_same_slides with d; [simpl; now rewrite Hsame | assumption].
    + intros p. unfold slide_numbers. cbn [slides]. rewrite Hf.
      specialize (Hok p). unfold slide_numbers in Hok. rewrite Hl in Hok.
      rewrite filter_app, map_app in *. cbn [filter] in Hok.
      unfold of_presentation at 2 in Hok.
      destruct (Z.eqb_spec (slide_presentation_id s) p) as [Hp | Hp]; [|assumption].
      cbn [map] in Hok.
      apply contiguous_remove_last with (n := slide_number s); [assumption|].
      rewrite forallb_forall in Hkeep.
      assert (In s (slides d)) as Hin by (rewrite Hl; apply in_elt).
      specialize (Hkeep s Hin). rewrite Hid, Z.eqb_refl in Hkeep. simpl in Hkeep.
      apply Z.eqb_eq in Hkeep. etransitivity; [exact Hkeep|].
      unfold slide_numbers. rewrite Hl, filter_app, map_app. cbn [filter].
      unfold of_presentation at 2. rewrite Hp, Z.eqb_refl. reflexivity.
Qed.

Lemma mem_gone (uid x : Z) (ids : list Z) :
  In uid ids -> mem x (filter (Z.eqb uid) ids) = (x =? uid).
Proof.
  intros Hin. destruct (Z.eqb_spec x uid) as [-> | Hneq].
  - apply mem_In, filter_In. split; [assumption | apply Z.eqb_refl].
  - apply mem_false. intros H. apply filter_In in H as [_ H].
    apply Z.eqb_eq in H. congruence.
Qed.

(** C7: deleting a user removes the user row, every presentation of that
    user and every slide of those presentations; the presentations of the
    other users stay, and no row that refers to the deleted user is left. *)
Theorem delete_user_cascades (d d' : db) (uid id : Z) :
  In uid (map user_id (users d)) ->
  exec_stmt key (DeleteUser uid) d = Ok (d', id) ->
  (forall u, In u (users d') -> user_id u <> uid)
  /\ (forall p, In p (presentations d') -> pres_user_id p <> uid)
  /\ (forall s p, In s (slides d') -> In p (presentations d) ->
                  pres_id p = slide_presentation_id s -> pres_user_id p <> uid)
  /\ presentations d'
     = filter (fun p => negb (pres_user_id p =? uid)) (presentations d)
  /\ (slides_reference_presentations d ->
      forall s, In s (slides d') ->
                exists p, In p (presentations d')
                          /\ pres_id p = slide_presentation_id s
                          /\ pres_user_id p <> uid).
Proof.
  intros Huser Hexec. simpl in Hexec. inversion Hexec; subst; clear Hexec. simpl.
  set (gone_users := filter (Z.eqb uid) (map user_id (users d))).
  set (gone_pres :=
         map pres_id (filter (fun p => mem (pres_user_id p) gone_users) (presentations d))).
  assert (forall x, mem x gone_users = (x =? uid)) as Hgone
      by (intros x; now apply mem_gone).
  assert (forall s p, In s (filter (fun sl => negb (mem (slide_presentation_id sl) gone_pres))
                                   (slides d)) ->
                      In p (presentations d) ->
                      pres_id p = slide_presentation_id s -> pres_user_id p <> uid) as Hslides.
  { intros s p Hs Hp Hid Howner. apply filter_In in Hs as [_ Hs].
    apply negb_true_iff, mem_false in Hs. apply Hs. unfold gone_pres.
    rewrite <- Hid. apply in_map, filter_In. split; [assumption|].
    rewrite Hgone. now apply Z.eqb_eq. }
  assert (filter (fun p => negb (mem (pres_user_id p) gone_users)) (presentations d)
          = filter (fun p => negb (pres_user_id p =? uid)) (presentations d)) as Hpres.
  { apply filter_ext. intros p. now rewrite Hgone. }
  repeat split.
  - intros u Hu. apply filter_In in Hu as [_ Hu].
    now apply negb_true_iff, Z.eqb_neq in Hu.
  - intros p Hp. rewrite Hpres in Hp. apply filter_In in Hp as [_ Hp].
    now apply negb_true_iff, Z.eqb_neq in Hp.
  - exact Hslides.
  - exact Hpres.
  - intros Hfk s Hs. pose proof Hs as Hs'. apply filter_In in Hs' as [Hin _].
    destruct (Hfk s Hin) as [p [Hp Hid]]. exists p. repeat split; auto.
    + rewrite Hpres. apply filter_In. split; [assumption|].
      apply negb_true_iff, Z.eqb_neq. now apply (Hslides s p).
    + now apply (Hslides s p).
Qed.

End Collation.

(** ** The sample store *)

Ltac concrete_numbering :=
  intros p; unfold slide_numbers; cbn -[Z.eqb]; unfold of_presentation;
  cbn -[Z.eqb];
  repeat match goal with
         | |- context [?a =? p] => destruct (Z.eqb_spec a p); subst; cbn -[Z.eqb]
         end;
  cbn; try lia;
  (split; [repeat constructor; simpl; lia | intros k; simpl; lia]).

Lemma store_numbering : numbering_ok Samples.store.
Proof. concrete_numbering. Qed.

Lemma store_slide_ids : NoDup (map slide_id (slides Samples.store)).
Proof. repeat constructor; simpl; lia. Qed.

(** C6, as stated, fails: the slides table accepts a second slide with a
    position already taken, a renumbering to a taken position and the
    deletion of the first slide; each leaves the positions of presentation
    1 not unique or not contiguous from 1. *)
Lemma slide_numbering_not_enforced :
  numbering_ok Samples.store
  /\ (exec_stmt Samples.ascii_ci (InsertSlide (Some 1) (Some 1) Samples.no_slide_cols)
                Samples.store
      = Ok (Samples.store_duplicate_number, 4)
      /\ slide_numbers 1 Samples.store_duplicate_number = [1; 2; 1]
      /\ ~ numbering_ok Samples.store_duplicate_number)
  /\ (exec_stmt Samples.ascii_ci (UpdateSlide 2 (Some 1) (Some "Causes") (Some "text"))
                Samples.store
      = Ok (Samples.store_renumbered, 0)
      /\ slide_numbers 1 Samples.store_renumbered = [1; 1]
      /\ ~ numbering_ok Samples.store_renumbered)
  /\ (exec_stmt Samples.ascii_ci (DeleteSlide 1) Samples.store
      = Ok (Samples.store_first_deleted, 0)
      /\ slide_numbers 1 Samples.store_first_deleted = [2]
      /\ ~ numbering_ok Samples.store_first_deleted).
Proof.
  split; [exact store_numbering|].
  repeat split; try reflexivity.
  - intros H. destruct (H 1) as [_ Hr]. specialize (Hr 3).
    vm_compute in Hr. destruct Hr as [_ Hr].
    destruct Hr as [Hr | [Hr | [Hr | []]]]; try discriminate Hr.
    split; discriminate.
  - intros H. destruct (H 1) as [_ Hr]. specialize (Hr 2).
    vm_compute in Hr. destruct Hr as [_ Hr].
    destruct Hr as [Hr | [Hr | []]]; try discriminate Hr.
    split; discriminate.
  - intros H. destruct (H 1) as [_ Hr]. specialize (Hr 1).
    vm_compute in Hr. destruct Hr as [_ Hr].
    destruct Hr as [Hr | []]; try discriminate Hr.
    split; discriminate.
Qed.

(** C6 on the sample store: a third slide inserted at position 3 of
    presentation 1 keeps the numbering. *)
Lemma slide_numbering_preserved_witness :
  NoDup (map slide_id (slides Samples.store))
  /\ numbering_ok Samples.store
  /\ keeps_numbering (InsertSlide (Some 1) (Some 3) Samples.no_slide_cols) Samples.store
     = true
  /\ exec_stmt Samples.ascii_ci (InsertSlide (Some 1) (Some 3) Samples.no_slide_cols)
               Samples.store
     = Ok (Samples.store_third_slide, 4)
  /\ numbering_ok Samples.store_third_slide.
Proof.
  split; [exact store_slide_ids|]. split; [exact store_numbering|].
  split; [reflexivity|]. split; [reflexivity|].
  apply (@slide_numbering_preserved Samples.ascii_ci
           (InsertSlide (Some 1) (Some 3) Samples.no_slide_cols)
           Samples.store Samples.store_third_slide 4).
  - exact store_slide_ids.
  - exact store_numbering.
  - reflexivity.
  - reflexivity.
Defined.

(** C7 on the sample store: deleting Ann leaves Bob's deck and its slide. *)
Lemma delete_user_cascades_witness :
  In 1 (map user_id (users Samples.store))
  /\ exec_stmt Samples.ascii_ci (DeleteUser 1) Samples.store
     = Ok (Samples.store_without_ann, 0)
  /\ (forall p, In p (presentations Samples.store_without_ann) -> pres_user_id p <> 1)
  /\ slides Samples.store_without_ann = [Samples.page 3 2 1 "Costs"].
Proof.
  split; [simpl; auto|]. split; [reflexivity|]. split; [|reflexivity].
  exact (proj1 (proj2 (@delete_user_cascades Samples.ascii_ci Samples.store
                         Samples.store_without_ann 1 0
                         (or_introl eq_refl) eq_refl))).
Defined.

End InitDbFacts.

(* ================================================================== *)
(** * Properties of [execute_query] *)
(* ================================================================== *)

Module DatabaseFacts.

Import InitDb Database.

Section Collation.

Variable key : string -> string.

Ltac open_call :=
  unfold execute_query, try_block, get_connection, conn_cursor, cursor_execute,
    cursor_fetchall, conn_commit, except_block, finally_block, conn_rollback,
    cursor_close, conn_close, emit, with_pool, with_connections, with_cursors,
    with_transactions, with_committed.

Ltac split_run :=
  repeat match goal with
         | |- context [if ?b then _ else _] => destruct b eqn:?; simpl
         | |- context [match run_query ?k ?q ?d with _ => _ end] =>
             destruct (run_query k q d) as [[[? ?] [?|]]|] eqn:?; simpl
         end.

(** What one call with [fetch=False] does, for every fault and every
    state of the pool. *)
Lemma execute_query_no_fetch (q : query) (f : faults) (w : world) :
  let w' := fst (execute_query key q false f w) in
  let r := snd (execute_query key q false f w) in
  open_connections w' = open_connections w
  /\ open_cursors w' = open_cursors w
  /\ open_transactions w' = open_transactions w
  /\ ((exists d' id,
         run_query key q (committed w) = Ok (d', id, None)
         /\ r = Return (LastRowId id)
         /\ committed w' = d'
         /\ log w' = log w ++ commit_trace)
      \/ (exists e t,
            r = Raise e
            /\ committed w' = committed w
            /\ In t failure_traces
            /\ log w' = log w ++ t
            /\ ((t = [EvGetConnection] /\ snd (get_connection f w) = Raise e)
                \/ ((exists c, snd (get_connection f w) = Return c)
                    /\ In EvRollback t
                    /\ last t EvGetConnection = EvConnClose
                    /\ (cursor_fails f = false -> In EvCursorClose t))))).
Proof.
  destruct w as [pool d nc ncur ntx lg]. destruct f as [f1 f2 f3 f4 f5 f6 f7].
  open_call. simpl. split_run.
  all: repeat split; auto.
  all: try (left; do 2 eexists; repeat split; try reflexivity;
            unfold commit_trace; repeat rewrite <- app_assoc; reflexivity).
  all: right; do 2 eexists; split; [reflexivity|]; split; [reflexivity|];
    (split; [|split; [repeat rewrite <- app_assoc; simpl; reflexivity|]]);
    [simpl; tauto
    |first [left; split; reflexivity
           |right; split; [eexists; reflexivity|];
            split; [simpl; tauto|]; split; [reflexivity|];
            first [discriminate|intros _; simpl; tauto]]].
Qed.

(** A call with [fetch=False] returns exactly when every connector call
    succeeds and the server accepts the statement, which has no result
    set. *)
Lemma execute_query_returns_iff (q : query) (f : faults) (w : world) :
  (exists v, snd (execute_query key q false f w) = Return v)
  <-> (exists c, snd (get_connection f w) = Return c)
      /\ cursor_fails f = false
      /\ execute_fails f = false
      /\ (exists d' id, run_query key q (committed w) = Ok (d', id, None))
      /\ commit_fails f = false.
Proof.
  destruct w as [pool d nc ncur ntx lg]. destruct f as [f1 f2 f3 f4 f5 f6 f7].
  open_call. simpl. split_run.
  all: split;
    [intros [v Hv]; try discriminate Hv;
     repeat split; try reflexivity; eauto
    |intros ([c Hc] & H2 & H3 & (d' & id & H4) & H5);
     try discriminate; eauto].
Qed.

(** A call with [fetch=False] asks for a connection once. *)
Lemma execute_query_one_call (q : query) (f : faults) (w : world) :
  calls_made (fst (execute_query key q false f w)) = S (calls_made w).
Proof.
  destruct (execute_query_no_fetch q f w)
    as (_ & _ & _ & [(d' & id & _ & _ & _ & Hlog) | (e & t & _ & _ & Ht & Hlog & _)]);
    unfold calls_made; rewrite Hlog, filter_app, length_app.
  - simpl. lia.
  - simpl in Ht. destruct Ht as [<- | [<- | [<- | [<- | []]]]]; simpl; lia.
Qed.

(** A call with [fetch=True] never commits, and closes what it opened. *)
Lemma execute_query_fetch (q : query) (f : faults) (w : world) :
  let w' := fst (execute_query key q true f w) in
  committed w' = committed w
  /\ open_connections w' = open_connections w
  /\ open_cursors w' = open_cursors w
  /\ open_transactions w' = open_transactions w.
Proof.
  destruct w as [pool d nc ncur ntx lg]. destruct f as [f1 f2 f3 f4 f5 f6 f7].
  open_call. simpl. split_run.
  all: repeat split; reflexivity.
Qed.

(** Without faults and with a connection free in the pool, a call with
    [fetch=False] commits a statement that the server accepts and that
    has no result set. *)
Lemma execute_query_fault_free (q : query) (w : world) (d' : db) (id : option Z) :
  (open_connections w < pool_size)%nat ->
  run_query key q (committed w) = Ok (d', id, None) ->
  snd (execute_query key q false no_faults w) = Return (LastRowId id)
  /\ committed (fst (execute_query key q false no_faults w)) = d'.
Proof.
  intros Hfree Hrun. destruct w as [pool d nc ncur ntx lg]. simpl in *.
  apply Nat.leb_gt in Hfree. unfold pool_size in Hfree. simpl in Hfree.
  unfold execute_query, try_block, get_connection, conn_cursor, cursor_execute.
  simpl. rewrite andb_false_r. simpl. rewrite Hfree. simpl. rewrite Hrun.
  simpl. split; reflexivity.
Qed.

(** Without faults and with a connection free in the pool, a call with
    [fetch=False] raises the error of a statement that the server
    refuses, and InternalError for a statement with a result set. *)
Lemma execute_query_fault_free_raises (q : query) (w : world) :
  (open_connections w < pool_size)%nat ->
  (forall e, run_query key q (committed w) = Err e ->
             snd (execute_query key q false no_faults w) = Raise e)
  /\ (forall d' id rows,
        run_query key q (committed w) = Ok (d', id, Some rows) ->
        snd (execute_query key q false no_faults w) = Raise InternalError).
Proof.
  intros Hfree. destruct w as [pool d nc ncur ntx lg]. simpl in *.
  apply Nat.leb_gt in Hfree. unfold pool_size in Hfree. simpl in Hfree.
  unfold execute_query, try_block, get_connection, conn_cursor, cursor_execute.
  simpl. rewrite andb_false_r. simpl. rewrite Hfree. simpl.
  split; [intros e Hrun|intros d' id rows Hrun]; rewrite Hrun; reflexivity.
Qed.

(** Every call keeps PRIMARY KEY (id) and UNIQUE (email) of users. *)
Lemma execute_query_users_ok (q : query) (fetch : bool) (f : faults) (w : world) :
  users_ok key (committed w) ->
  users_ok key (committed (fst (execute_query key q fetch f w))).
Proof.
  intros Hok. destruct fetch.
  - destruct (execute_query_fetch q f w) as [-> _]. assumption.
  - destruct (execute_query_no_fetch q f w)
      as (_ & _ & _ & [(d' & id & Hrun & _ & -> & _) | (e & t & _ & -> & _)]);
      [|assumption].
    destruct q as [s | sel]; simpl in Hrun.
    + destruct (exec_stmt key s (committed w)) as [[d1 i1]|] eqn:Hexec; [|discriminate].
      inversion Hrun; subst. eapply InitDbFacts.exec_stmt_users_ok; eauto.
    + inversion Hrun.
Qed.

(** From the empty database on, whatever calls are made, the users table
    has no two rows with the same id or the same email, and no connection
    is left open: the pool of 5 is never used up by sequential calls. *)
Lemma users_ok_reachable (cs : list (query * bool * faults)) :
  let w := run_calls key cs (initial_world empty_db) in
  users_ok key (committed w) /\ open_connections w = 0%nat.
Proof.
  cbv zeta.
  assert (forall w, users_ok key (committed w) -> open_connections w = 0%nat ->
                    users_ok key (committed (run_calls key cs w))
                    /\ open_connections (run_calls key cs w) = 0%nat) as Hgen.
  { induction cs as [|[[q fetch] f] rest IH]; intros w Hok Hconn; [now split|].
    simpl. apply IH.
    - now apply execute_query_users_ok.
    - destruct fetch.
      + destruct (execute_query_fetch q f w) as (_ & -> & _). assumption.
      + destruct (execute_query_no_fetch q f w) as (-> & _). assumption. }
  apply Hgen; [|reflexivity]. split; constructor.
Qed.

(** C9: a call of [execute_query] with [fetch=False] either commits the
    statement and returns [cursor.lastrowid], or leaves the committed data
    as they were and re-raises the error.  It commits and returns exactly
    when [get_connection], the cursor, the statement and the commit all
    succeed and the statement has no result set.  It raises without a
    rollback only when [get_connection] itself raised; in every other
    failure the rollback is called, the cursor that was opened is closed
    and the connection is closed last.  In both cases no connection,
    cursor or transaction stays open.  Without faults an accepted
    statement is committed, a statement refused by the server is re-raised
    with the server's error, and a statement with a result set (a SELECT)
    is raised as InternalError by the commit and rolled back. *)
Theorem execute_query_commits_or_rolls_back (q : query) (f : faults) (w : world) :
  let w' := fst (execute_query key q false f w) in
  let r := snd (execute_query key q false f w) in
  open_connections w' = open_connections w
  /\ open_cursors w' = open_cursors w
  /\ open_transactions w' = open_transactions w
  /\ match r with
     | Return v =>
         exists d' id,
           run_query key q (committed w) = Ok (d', id, None)
           /\ v = LastRowId id
           /\ committed w' = d'
           /\ log w' = log w ++ commit_trace
     | Raise e =>
         committed w' = committed w
         /\ exists t, log w' = log w ++ t
                      /\ In t failure_traces
                      /\ ((t = [EvGetConnection]
                           /\ snd (get_connection f w) = Raise e)
                          \/ ((exists c, snd (get_connection f w) = Return c)
                              /\ In EvRollback t
                              /\ last t EvGetConnection = EvConnClose
                              /\ (cursor_fails f = false -> In EvCursorClose t)))
     end
  /\ ((exists v, r = Return v)
      <-> (exists c, snd (get_connection f w) = Return c)
          /\ cursor_fails f = false
          /\ execute_fails f = false
          /\ (exists d' id, run_query key q (committed w) = Ok (d', id, None))
          /\ commit_fails f = false)
  /\ (forall d' id, f = no_faults -> (open_connections w < pool_size)%nat ->
                    run_query key q (committed w) = Ok (d', id, None) ->
                    r = Return (LastRowId id) /\ committed w' = d')
  /\ (forall e, f = no_faults -> (open_connections w < pool_size)%nat ->
                run_query key q (committed w) = Err e -> r = Raise e)
  /\ (forall d' id rows, f = no_faults -> (open_connections w < pool_size)%nat ->
                         run_query key q (committed w) = Ok (d', id, Some rows) ->
                         r = Raise InternalError).
Proof.
  cbv zeta.
  split; [apply (execute_query_no_fetch q f w)|].
  split; [apply (execute_query_no_fetch q f w)|].
  split; [apply (execute_query_no_fetch q f w)|].
  split; [|split; [apply execute_query_returns_iff|split; [|split]]].
  - destruct (execute_query_no_fetch q f w)
      as (_ & _ & _ & [(d' & id & Hrun & Hr & Hd & Hlog)
                      | (e & t & Hr & Hd & Ht & Hlog & Hshape)]); rewrite Hr.
    + exists d', id. auto.
    + split; [exact Hd|]. exists t. auto.
  - intros d' id -> Hfree Hrun. now apply execute_query_fault_free.
  - intros e -> Hfree Hrun. now apply (proj1 (execute_query_fault_free_raises q w Hfree)).
  - intros d' id rows -> Hfree Hrun.
    now apply (proj2 (execute_query_fault_free_raises q w Hfree)) with d' id rows.
Qed.

(** C10: in the users table two distinct rows never have the same email;
    every call of [execute_query] keeps it so; and an INSERT of a user with
    an email that a row already has raises and leaves the committed data,
    the users table with them, unchanged. *)
Theorem users_email_unique (w : world) :
  users_ok key (committed w) ->
  (forall u v, In u (users (committed w)) -> In v (users (committed w)) ->
               u <> v -> user_email u <> user_email v)
  /\ (forall q fetch f,
        users_ok key (committed (fst (execute_query key q fetch f w))))
  /\ (forall u name password f,
        In u (users (committed w)) ->
        let call :=
          execute_query key (Dml (InsertUser name (Some (user_email u)) password))
                        false f w in
        (exists e, snd call = Raise e)
        /\ committed (fst call) = committed w).
Proof.
  intros Hok. split; [|split].
  - intros u v Hu Hv Hneq Heq. apply Hneq. destruct Hok as [_ Hkeys].
    apply (InitDbFacts.NoDup_map_injective
             (fun u => key (user_email u)) (users (committed w))); auto.
    now rewrite Heq.
  - intros q fetch f. now apply execute_query_users_ok.
  - intros u name password f Hin. cbv zeta.
    destruct (InitDbFacts.insert_existing_email key (committed w) u name password Hin)
      as [e0 He].
    destruct (execute_query_no_fetch
                (Dml (InsertUser name (Some (user_email u)) password)) f w)
      as (_ & _ & _ & [(d' & id & Hrun & _) | (e & t & Hr & Hd & _)]).
    + unfold run_query in Hrun. rewrite He in Hrun. discriminate.
    + split; [eauto | assumption].
Qed.

End Collation.

(** C9 on the sample store: an INSERT of a new user is committed and its
    row id returned; an INSERT refused for a duplicate email (up to case)
    is re-raised with the server's error; a SELECT is raised as
    InternalError. *)
Lemma execute_query_commits_or_rolls_back_witness :
  let fresh := Dml (InsertUser (Some "Bea") (Some "bea@example.com") (Some "hash-c")) in
  let taken := Dml (InsertUser (Some "Bea") (Some "ANN@Example.com") (Some "hash-c")) in
  let count_users := Select (fun d => [[("n", CInt (Z.of_nat (List.length (users d))))]]) in
  let w := initial_world Samples.store in
  (open_connections w < pool_size)%nat
  /\ (snd (execute_query Samples.ascii_ci fresh false no_faults w)
      = Return (LastRowId (Some 3))
      /\ committed (fst (execute_query Samples.ascii_ci fresh false no_faults w))
         = Samples.after (InsertUser (Some "Bea") (Some "bea@example.com")
                                     (Some "hash-c")) Samples.store)
  /\ snd (execute_query Samples.ascii_ci taken false no_faults w)
     = Raise (DuplicateEntry "email")
  /\ snd (execute_query Samples.ascii_ci count_users false no_faults w)
     = Raise InternalError.
Proof.
  intros fresh taken count_users w.
  assert (open_connections w < pool_size)%nat as Hfree by (unfold pool_size; simpl; lia).
  split; [exact Hfree|]. split; [|split].
  - exact (proj1 (proj2 (proj2 (proj2 (proj2 (proj2
             (@execute_query_commits_or_rolls_back Samples.ascii_ci fresh no_faults w))))))
             _ _ eq_refl Hfree eq_refl).
  - exact (proj1 (proj2 (proj2 (proj2 (proj2 (proj2 (proj2
             (@execute_query_commits_or_rolls_back Samples.ascii_ci taken no_faults w)))))))
             _ eq_refl Hfree eq_refl).
  - exact (proj2 (proj2 (proj2 (proj2 (proj2 (proj2 (proj2
             (@execute_query_commits_or_rolls_back Samples.ascii_ci count_users
                no_faults w)))))))
             Samples.store None [[("n", CInt 2)]] eq_refl Hfree eq_refl).
Defined.

Lemma store_users_ok : users_ok Samples.ascii_ci Samples.store.
Proof.
  unfold users_ok. cbn. split.
  - repeat constructor; simpl; lia.
  - repeat constructor; simpl; intuition discriminate.
Qed.

(** C10 on the sample store: a second user with Ann's email is refused and
    the committed data stay as they were. *)
Lemma users_email_unique_witness :
  users_ok Samples.ascii_ci (committed (initial_world Samples.store))
  /\ let call :=
       execute_query Samples.ascii_ci
         (Dml (InsertUser (Some "Bea") (Some "ann@example.com") (Some "hash-c")))
         false no_faults (initial_world Samples.store) in
     (exists e, snd call = Raise e)
     /\ committed (fst call) = Samples.store.
Proof.
  split; [exact store_users_ok|].
  exact (proj2 (proj2 (@users_email_unique Samples.ascii_ci
                         (initial_world Samples.store) store_users_ok))
               Samples.ann (Some "Bea") (Some "hash-c") no_faults
               (or_introl eq_refl)).
Defined.

End DatabaseFacts.

(* ================================================================== *)
(** * Properties of database/schema.sql *)
(* ================================================================== *)

Module SchemaSqlFacts.

Import SchemaSql.










Lemma among_In (x : Z) (l : list Z) : among x l = true <-> In x l.
Proof.
  unfold among. rewrite existsb_exists. split.
  - intros [y [Hy Heq]]. apply Z.eqb_eq in Heq. now subst.
  - intros H. exists x. split; [assumption | apply Z.eqb_refl].
Qed.

(** The cascade of database/schema.sql: after the user is deleted no
    presentation, no share of such a presentation and no usage row of that
    user is left. *)
Lemma schema_sql_cascade (uid : Z) (d : db) :
  In uid (map user_id (users d)) ->
  let d' := delete_user uid d in
  (forall u, In u (users d') -> user_id u <> uid)
  /\ (forall p, In p (presentations d') -> pres_user_id p <> uid)
  /\ (forall sh p, In sh (presentation_shares d') -> In p (presentations d) ->
                   pres_id p = share_presentation_id sh -> pres_user_id p <> uid)
  /\ (forall a, In a (api_usage_log d') -> usage_user_id a <> uid).
Proof.
  intros Huser. cbv zeta. unfold delete_user. simpl.
  assert (among uid (filter (Z.eqb uid) (map user_id (users d))) = true) as Hgone.
  { apply among_In, filter_In. split; [assumption | apply Z.eqb_refl]. }
  split; [|split; [|split]].
  - intros u Hu. apply filter_In in Hu as [_ Hu].
    now apply negb_true_iff, Z.eqb_neq in Hu.
  - intros p Hp Howner. apply filter_In in Hp as [_ Hp].
    rewrite Howner, Hgone in Hp. discriminate.
  - intros sh p Hsh Hp Hid Howner. apply filter_In in Hsh as [_ Hsh].
    apply negb_true_iff in Hsh.
    assert (among (share_presentation_id sh)
              (map pres_id
                 (filter (fun p => among (pres_user_id p)
                                         (filter (Z.eqb uid) (map user_id (users d))))
                         (presentations d))) = true) as Hin; [|congruence].
    apply among_In. rewrite <- Hid. apply in_map, filter_In.
    split; [assumption|]. now rewrite Howner.
  - intros a Ha Howner. apply filter_In in Ha as [_ Ha].
    rewrite Howner, Hgone in Ha. discriminate.
Qed.


End SchemaSqlFacts.

(* ================================================================== *)
(** * Properties of js/editor.js *)
(* ================================================================== *)

Module EditorFacts.

Import Editor.

Lemma cards_from_length (index : Z) (slides : list slide_json) :
  List.length (cards_from index slides) = List.length slides.
Proof.
  revert index. induction slides as [|s t IH]; intros index; simpl; [reflexivity|].
  now rewrite IH.
Qed.

Lemma renderSlides_no_fetch (pg : page) (c : option content_json) :
  filter is_fetch (renderSlides pg c) = [].
Proof.
  unfold renderSlides. destruct c as [c|]; [|reflexivity].
  destruct (slidesPreview pg); simpl; [|reflexivity].
  destruct (contentTitle pg); reflexivity.
Qed.


(** The editor does not check the range of the slide count: the number
    typed is the number sent. *)
Lemma slides_count_not_checked :
  slides_count_of "25" = Int 25 /\ slides_count_of "2" = Int 2
  /\ slides_count_of "" = Int 10 /\ slides_count_of "0" = Int 10.
Proof. repeat split; reflexivity. Qed.

(** Whatever number of slides the answer carries is shown, as a success. *)
Lemma renderSlides_shows_all (pg : page) (c : content_json) (slides : list slide_json) :
  slidesPreview pg = true ->
  ct_slides c = Some slides ->
  exists p, In (ShowPreview p) (renderSlides pg (Some c))
            /\ List.length (pv_cards p) = List.length slides.
Proof.
  intros Hpv Hslides. unfold renderSlides. rewrite Hpv, Hslides. simpl.
  eexists. split.
  - apply in_or_app. right. left. reflexivity.
  - simpl. apply cards_from_length.
Qed.

End EditorFacts.

(* ================================================================== *)
(** * Properties of the generation pipeline *)
(* ================================================================== *)

Module GenerationFacts.

Import InitDb Database Generation.

Section Pipeline.

Variable key : string -> string.
Variable primary secondary : request -> backend_answer.

Lemma with_slides_nil (d : db) : with_slides d [] = d.
Proof. destruct d. unfold with_slides. simpl. now rewrite app_nil_r. Qed.

Lemma calls_made_emit_execute (w : Database.world) :
  calls_made (emit EvExecute w) = calls_made w.
Proof.
  unfold calls_made, emit. simpl. rewrite filter_app. simpl. now rewrite app_nil_r.
Qed.

(** One [cursor.execute] of an INSERT inside a transaction. *)
Lemma cursor_execute_in_transaction (f : faults) (s : stmt) (c : connection)
      (w : Database.world) :
  in_transaction c = true ->
  cursor_execute key f (Dml s) c w
  = if execute_fails f then (emit EvExecute w, c, Raise OperationalError)
    else match exec_stmt key s (work c) with
         | Ok (d', id) =>
             (emit EvExecute w, mkConnection d' true false, Return (Some id, None))
         | Err e => (emit EvExecute w, mkConnection (work c) true false, Raise e)
         end.
Proof.
  intros Htx. unfold cursor_execute, run_query. rewrite Htx.
  destruct (execute_fails f); [reflexivity|].
  destruct (exec_stmt key s (work c)) as [[d' id]|e]; reflexivity.
Qed.

(** The slide loop works on the data of the session only: the committed
    data, the pool and the counts of the world stay as they are.  When it
    returns, the session holds a row for every slide, numbered in order. *)
Lemma execute_slides_cases (objects : list slide_object) :
  forall (script : list faults) (pid n : Z) (c : connection) (w : Database.world),
    in_transaction c = true ->
    unread_result c = false ->
    let run := execute_slides key script pid n objects c w in
    let w' := fst (fst (fst run)) in
    let c' := snd (fst (fst run)) in
    (exists k, log w' = log w ++ repeat EvExecute k
               /\ (k <= List.length objects)%nat
               /\ (forall u, snd run = Return u -> k = List.length objects))
    /\ committed w' = committed w
    /\ connection_pool w' = connection_pool w
    /\ open_connections w' = open_connections w
    /\ open_cursors w' = open_cursors w
    /\ open_transactions w' = open_transactions w
    /\ in_transaction c' = true
    /\ unread_result c' = false
    /\ (forall u, snd run = Return u ->
          work c'
          = with_slides (work c)
              (slide_rows (next_id (map slide_id (slides (work c)))) pid n objects)).
Proof.
  induction objects as [|o rest IH]; intros script pid n c w Htx Hread; cbv zeta.
  - simpl. split; [exists 0%nat; simpl; rewrite app_nil_r; auto|].
    repeat (split; [reflexivity || assumption|]).
    intros _ _. now rewrite with_slides_nil.
  - cbn [execute_slides]. rewrite cursor_execute_in_transaction by exact Htx.
    destruct (execute_fails (hd no_faults script)).
    { cbn [fst snd]. split; [exists 1%nat; simpl; split; [reflexivity|split; [lia|discriminate]]|].
      repeat (split; [reflexivity || assumption|]). discriminate. }
    cbn [exec_stmt].
    destruct (mem pid (map pres_id (presentations (work c)))) eqn:Hpid.
    2:{ cbn [fst snd].
        split; [exists 1%nat; simpl; split; [reflexivity|split; [lia|discriminate]]|].
        repeat (split; [reflexivity|]). discriminate. }
    match goal with
    | |- context [execute_slides key ?sc pid ?m rest ?c1 ?w1] =>
        destruct (IH sc pid m c1 w1 eq_refl eq_refl)
          as ((k & Hlog & Hk & Hall) & Hd & Hpool & Hconn & Hcur & Htr & Htx' & Hread' & Hwork)
    end.
    cbv zeta in *. cbn [work] in Hwork.
    split.
    { exists (S k). rewrite Hlog. cbn [emit log repeat List.length].
      rewrite <- app_assoc. split; [reflexivity|]. split; [lia|].
      intros u Hu. f_equal. eapply Hall, Hu. }
    rewrite Hd, Hpool, Hconn, Hcur, Htr.
    repeat (split; [reflexivity || assumption|]).
    intros u Hu. rewrite (Hwork u Hu). unfold with_slides. cbn [users presentations slides].
    rewrite map_app. cbn [map slide_id]. rewrite InitDbFacts.next_id_snoc.
    rewrite <- app_assoc. reflexivity.
Qed.

(** Without faults the slide loop returns when the presentation row is
    in the session's data. *)
Lemma execute_slides_returns (objects : list slide_object) :
  forall (pid n : Z) (c : connection) (w : Database.world),
    in_transaction c = true ->
    mem pid (map pres_id (presentations (work c))) = true ->
    snd (execute_slides key [] pid n objects c w) = Return tt.
Proof.
  induction objects as [|o rest IH]; intros pid n c w Htx Hpid; [reflexivity|].
  cbn [execute_slides hd tl]. rewrite cursor_execute_in_transaction by exact Htx.
  cbn [no_faults execute_fails exec_stmt]. rewrite Hpid. apply IH; [reflexivity|exact Hpid].
Qed.

Lemma insert_presentation_present (u : Z) (t pr : string) (c : pres_cols)
      (d d1 : db) (pid : Z) :
  exec_stmt key (InsertPresentation (Some u) (Some t) (Some pr) c) d = Ok (d1, pid) ->
  mem pid (map pres_id (presentations d1)) = true.
Proof.
  simpl. destruct (mem u (map user_id (users d))); [|discriminate].
  intros H. inversion H; subst. simpl. apply InitDbFacts.mem_In.
  rewrite map_app. apply in_or_app. right. simpl. auto.
Qed.

Lemma insert_presentation_accepted (u : Z) (t pr : string) (c : pres_cols) (d : db) :
  mem u (map user_id (users d)) = true ->
  exists d1 pid, exec_stmt key (InsertPresentation (Some u) (Some t) (Some pr) c) d
                 = Ok (d1, pid).
Proof. intros H. simpl. rewrite H. eauto. Qed.

Ltac open_save :=
  unfold save_presentation, save_try_block, get_connection, conn_cursor,
    conn_commit, except_block, finally_block, conn_rollback, cursor_close,
    conn_close, emit, with_pool, with_connections, with_cursors,
    with_transactions, with_committed, committed_data.

Ltac split_flags :=
  repeat match goal with
         | |- context [if ?b then _ else _] => destruct b eqn:?; cbn
         end.

(** What the persistence step leaves: all the rows, or the committed data
    as they were. *)
Lemma save_presentation_cases (uid : Z) (r : request) (objects : list slide_object)
      (st : state) :
  let run := save_presentation key uid r objects st in
  let d := committed_data st in
  let ins := InsertPresentation (Some uid) (Some (prompt r)) (Some (prompt r))
                                (pres_cols_of r) in
  calls (fst run) = calls st
  /\ calls_made (world (fst run)) = S (calls_made (world st))
  /\ open_connections (world (fst run)) = open_connections (world st)
  /\ open_cursors (world (fst run)) = open_cursors (world st)
  /\ open_transactions (world (fst run)) = open_transactions (world st)
  /\ match snd run with
     | Return pid =>
         exists d1,
           exec_stmt key ins d = Ok (d1, pid)
           /\ committed_data (fst run)
              = with_slides d1
                  (slide_rows (next_id (map slide_id (slides d1))) pid 1 objects)
           /\ log (world (fst run))
              = log (world st)
                  ++ [EvGetConnection; EvCursor]
                  ++ repeat EvExecute (1 + List.length objects)
                  ++ [EvCommit; EvCursorClose; EvConnClose]
     | Raise e => committed_data (fst run) = d
     end.
Proof.
  cbv zeta. destruct st as [w cs sc]. destruct w as [pool d nc ncur ntx lg].
  cbn [world calls script committed_data].
  unfold save_presentation, save_try_block. cbn [world calls script].
  destruct (hd no_faults sc) as [f1 f2 f3 f4 f5 f6 f7] eqn:Hf.
  unfold get_connection, conn_cursor. cbn -[Nat.leb pool_size exec_stmt].
  unfold cursor_execute, run_query. cbn -[Nat.leb pool_size exec_stmt].
  destruct (negb pool && f1) eqn:H1; cbn -[Nat.leb pool_size exec_stmt].
  { unfold calls_made. cbn -[Nat.leb pool_size exec_stmt]. rewrite filter_app, length_app. cbn -[Nat.leb pool_size exec_stmt].
    repeat (split; [reflexivity || lia|]). reflexivity. }
  destruct (f2 || (pool_size <=? nc)%nat) eqn:H2; cbn -[Nat.leb pool_size exec_stmt].
  { unfold calls_made. cbn -[Nat.leb pool_size exec_stmt]. rewrite filter_app, length_app. cbn -[Nat.leb pool_size exec_stmt].
    repeat (split; [reflexivity || lia|]). reflexivity. }
  destruct f3; cbn -[Nat.leb pool_size exec_stmt].
  { unfold conn_rollback, conn_close, emit. cbn -[Nat.leb pool_size exec_stmt].
    destruct f7; cbn -[Nat.leb pool_size exec_stmt]; unfold calls_made; cbn -[Nat.leb pool_size exec_stmt];
      rewrite !filter_app, !length_app; cbn -[Nat.leb pool_size exec_stmt];
      repeat (split; [reflexivity || lia|]); reflexivity. }
  destruct f4; cbn -[Nat.leb pool_size exec_stmt].
  { unfold conn_rollback, cursor_close, conn_close, emit. cbn -[Nat.leb pool_size exec_stmt].
    destruct f7; cbn -[Nat.leb pool_size exec_stmt]; unfold calls_made; cbn -[Nat.leb pool_size exec_stmt];
      rewrite !filter_app, !length_app; cbn -[Nat.leb pool_size exec_stmt];
      repeat (split; [reflexivity || lia|]); reflexivity. }
  destruct (exec_stmt key
              (InsertPresentation (Some uid) (Some (prompt r)) (Some (prompt r))
                                  (pres_cols_of r)) d) as [[d1 pid]|e] eqn:Hins; cbn -[Nat.leb pool_size exec_stmt].
  2:{ unfold conn_rollback, cursor_close, conn_close, emit. cbn -[Nat.leb pool_size exec_stmt].
      destruct f7; cbn -[Nat.leb pool_size exec_stmt]; unfold calls_made; cbn -[Nat.leb pool_size exec_stmt];
        rewrite !filter_app, !length_app; cbn -[Nat.leb pool_size exec_stmt];
        repeat (split; [reflexivity || lia|]); reflexivity. }
  match goal with
  | |- context [execute_slides key ?s0 pid 1 objects ?c1 ?w1] =>
      destruct (@execute_slides_cases objects s0 pid 1 c1 w1 eq_refl eq_refl)
        as ((k & Hlog & Hk & Hall) & Hd & Hpool & Hconn & Hcur & Htr & Htx & Hread & Hwork);
      destruct (execute_slides key s0 pid 1 objects c1 w1) as [[[w2 c2] sc2] r2]
  end.
  cbv zeta in *. cbn [fst snd] in *.
  destruct w2 as [pool2 d2 nc2 ncur2 ntx2 lg2]. destruct c2 as [work2 tx2 unread2].
  cbn in Hlog, Hd, Hpool, Hconn, Hcur, Htr, Htx, Hread, Hwork. subst.
  destruct r2 as [[]|e2]; cbn -[Nat.leb pool_size exec_stmt].
  2:{ unfold conn_rollback, cursor_close, conn_close, emit. cbn -[Nat.leb pool_size exec_stmt].
      destruct f7; cbn -[Nat.leb pool_size exec_stmt]; unfold calls_made; cbn -[Nat.leb pool_size exec_stmt];
        rewrite !filter_app, !length_app; cbn -[Nat.leb pool_size exec_stmt];
        (assert (filter is_get_connection (repeat EvExecute k) = []) as ->
            by (clear; induction k; [reflexivity|assumption]));
        cbn -[Nat.leb pool_size exec_stmt]; repeat (split; [reflexivity || lia|]); reflexivity. }
  unfold conn_commit. cbn -[Nat.leb pool_size exec_stmt]. destruct f6; cbn -[Nat.leb pool_size exec_stmt].
  { unfold conn_rollback, cursor_close, conn_close, emit. cbn -[Nat.leb pool_size exec_stmt].
    destruct f7; cbn -[Nat.leb pool_size exec_stmt]; unfold calls_made; cbn -[Nat.leb pool_size exec_stmt];
      rewrite !filter_app, !length_app; cbn -[Nat.leb pool_size exec_stmt];
      (assert (filter is_get_connection (repeat EvExecute k) = []) as ->
          by (clear; induction k; [reflexivity|assumption]));
      cbn -[Nat.leb pool_size exec_stmt]; repeat (split; [reflexivity || lia|]); reflexivity. }
  unfold cursor_close, conn_close, emit. cbn -[Nat.leb pool_size exec_stmt].
  unfold calls_made. cbn -[Nat.leb pool_size exec_stmt]. rewrite !filter_app, !length_app. cbn -[Nat.leb pool_size exec_stmt].
  assert (filter is_get_connection (repeat EvExecute k) = []) as ->
      by (clear; induction k; [reflexivity|assumption]).
  cbn -[Nat.leb pool_size exec_stmt]. repeat (split; [reflexivity || lia|]).
  exists d1. split; [reflexivity|]. split; [exact (Hwork tt eq_refl)|].
  rewrite (Hall tt eq_refl). repeat rewrite <- app_assoc. reflexivity.
Qed.



(** Without faults, with a connection free in the pool and for a user
    that exists, the persistence step returns. *)
Lemma save_presentation_returns (uid : Z) (r : request) (objects : list slide_object)
      (st : state) :
  script st = [] ->
  (open_connections (world st) < pool_size)%nat ->
  mem uid (map user_id (users (committed_data st))) = true ->
  exists pid, snd (save_presentation key uid r objects st) = Return pid.
Proof.
  destruct st as [w cs sc]. destruct w as [pool d nc ncur ntx lg].
  cbn [world calls script committed_data committed open_connections].
  intros -> Hfree Huser. apply Nat.leb_gt in Hfree.
  destruct (@insert_presentation_accepted uid (prompt r) (prompt r) (pres_cols_of r) d Huser)
    as (d1 & pid & Hins).
  exists pid. unfold save_presentation, save_try_block. cbn [world calls script hd tl].
  unfold get_connection, conn_cursor. cbn -[Nat.leb pool_size exec_stmt]. rewrite andb_false_r. cbn -[Nat.leb pool_size exec_stmt].
  rewrite Hfree. cbn -[exec_stmt]. unfold cursor_execute, run_query.
  cbn -[exec_stmt].
  rewrite Hins. cbn -[exec_stmt].
  match goal with
  | |- context [execute_slides key [] pid 1 objects ?c1 ?w1] =>
      pose proof (@execute_slides_returns objects pid 1 c1 w1 eq_refl
                    (insert_presentation_present _ _ _ _ _ Hins)) as Hret;
      destruct (@execute_slides_cases objects [] pid 1 c1 w1 eq_refl eq_refl)
        as (_ & _ & _ & _ & _ & _ & _ & Hread & _);
      destruct (execute_slides key [] pid 1 objects c1 w1) as [[[w2 c2] sc2] r2]
  end.
  cbv zeta in *. cbn [fst snd] in *. subst r2. cbn.
  unfold conn_commit. rewrite Hread. cbn. reflexivity.
Qed.






(** C4: a request whose slide count is below 3 or above 20 is answered by a
    validation error; no AI backend is called, no database call is made
    and the state is as it was. *)
Theorem out_of_range_is_rejected (uid : Z) (r : request) (st : state) :
  slides_count r < 3 \/ 20 < slides_count r ->
  generate_presentation key primary secondary uid r st = (st, ValidationError).
Proof.
  intros Hrange. unfold generate_presentation, valid_request.
  assert ((3 <=? slides_count r) && (slides_count r <=? 20) = false) as ->.
  { apply andb_false_iff. destruct Hrange; [left | right]; now apply Z.leb_gt. }
  reflexivity.
Qed.

(** C2: the persistence step is one transaction.  When it returns, the
    presentation row and all its slide rows, numbered from 1 in order, are
    committed together by the one commit that follows the INSERT of the
    presentation and of every slide.  When it raises, whatever statement
    or connector call failed, the committed data are as they were before
    the step: no partial rows remain.  In both cases no connection, cursor
    or transaction stays open.  Without faults, with a connection free in
    the pool and for a user that exists, the step returns.  For a whole
    request, the committed data change only when the answer is a success,
    and then by the presentation row and all the slides returned. *)
Theorem persistence_is_atomic (uid : Z) (r : request) (objects : list slide_object)
        (st : state) :
  let run := save_presentation key uid r objects st in
  let whole := generate_presentation key primary secondary uid r st in
  let d := committed_data st in
  let ins := InsertPresentation (Some uid) (Some (prompt r)) (Some (prompt r))
                                (pres_cols_of r) in
  match snd run with
  | Return pid =>
      exists d1,
        exec_stmt key ins d = Ok (d1, pid)
        /\ committed_data (fst run)
           = with_slides d1
               (slide_rows (next_id (map slide_id (slides d1))) pid 1 objects)
        /\ log (world (fst run))
           = log (world st)
               ++ [EvGetConnection; EvCursor]
               ++ repeat EvExecute (1 + List.length objects)
               ++ [EvCommit; EvCursorClose; EvConnClose]
  | Raise e => committed_data (fst run) = d
  end
  /\ open_connections (world (fst run)) = open_connections (world st)
  /\ open_cursors (world (fst run)) = open_cursors (world st)
  /\ open_transactions (world (fst run)) = open_transactions (world st)
  /\ (script st = [] ->
      (open_connections (world st) < pool_size)%nat ->
      mem uid (map user_id (users d)) = true ->
      exists pid, snd run = Return pid)
  /\ match snd whole with
     | Success pid returned =>
         exists d1,
           exec_stmt key ins d = Ok (d1, pid)
           /\ committed_data (fst whole)
              = with_slides d1
                  (slide_rows (next_id (map slide_id (slides d1))) pid 1 returned)
     | _ => committed_data (fst whole) = d
     end.
Proof.
  cbv zeta.
  destruct (save_presentation_cases uid r objects st) as (_ & _ & H1 & H2 & H3 & H4).
  split; [exact H4|]. split; [exact H1|]. split; [exact H2|]. split; [exact H3|].
  split; [apply save_presentation_returns|].
  assert (forall objs st0,
             committed_data st0 = committed_data st ->
             match snd (deliver key uid r objs st0) with
             | Success pid returned =>
                 exists d1,
                   exec_stmt key
                     (InsertPresentation (Some uid) (Some (prompt r)) (Some (prompt r))
                                         (pres_cols_of r)) (committed_data st)
                   = Ok (d1, pid)
                   /\ committed_data (fst (deliver key uid r objs st0))
                      = with_slides d1
                          (slide_rows (next_id (map slide_id (slides d1))) pid 1 returned)
             | _ => committed_data (fst (deliver key uid r objs st0)) = committed_data st
             end) as Hdeliver.
  { intros objs st0 Hsame. unfold deliver. destruct (conforms r objs); [|exact Hsame].
    unfold persist, bind.
    destruct (save_presentation_cases uid r objs st0) as (_ & _ & _ & _ & _ & Hres).
    destruct (save_presentation key uid r objs st0) as [st1 [pid|e]]; cbn in *.
    - destruct Hres as (d1 & Hins & Hd & _). exists d1. rewrite <- Hsame. auto.
    - now rewrite Hres. }
  unfold generate_presentation. destruct (valid_request r); cbn; [|reflexivity].
  unfold bind, call_backend. cbn.
  destruct (usable (primary r)) as [objs|]; [apply Hdeliver; reflexivity|].
  cbn. destruct (usable (secondary r)) as [objs|]; [apply Hdeliver; reflexivity|].
  reflexivity.
Qed.

End Pipeline.



(** C4 on a sample run: a request for 25 slides. *)
Lemma out_of_range_is_rejected_witness :
  (slides_count Samples.too_many < 3 \/ 20 < slides_count Samples.too_many)
  /\ generate_presentation Samples.ascii_ci Samples.answers_two Samples.answers_two
       1 Samples.too_many (Samples.start [])
     = (Samples.start [], ValidationError).
Proof.
  assert (slides_count Samples.too_many < 3 \/ 20 < slides_count Samples.too_many) as H
      by (right; reflexivity).
  split; [exact H|].
  exact (@out_of_range_is_rejected Samples.ascii_ci Samples.answers_two
           Samples.answers_two 1 Samples.too_many (Samples.start []) H).
Defined.

(** C2 on sample runs: without faults the presentation row and the five
    slide rows are committed; when the connection is lost as the second
    slide row is inserted, the request ends in a server failure and the
    committed data are as before, without the presentation row and the
    first slide row. *)
Lemma persistence_is_atomic_witness :
  (exists pid, snd (save_presentation Samples.ascii_ci 1 Samples.climate
                      Samples.five_slides (Samples.start [])) = Return pid)
  /\ map slide_number
       (slides (committed_data
                  (fst (save_presentation Samples.ascii_ci 1 Samples.climate
                          Samples.five_slides (Samples.start [])))))
     = [1; 2; 3; 4; 5]
  /\ snd (generate_presentation Samples.ascii_ci Samples.answers_five Samples.times_out
            1 Samples.climate (Samples.start Samples.second_slide_fails))
     = ServerFailure OperationalError
  /\ committed_data
       (fst (generate_presentation Samples.ascii_ci Samples.answers_five
               Samples.times_out 1 Samples.climate
               (Samples.start Samples.second_slide_fails)))
     = Samples.users_only.
Proof.
  assert (0 < pool_size)%nat as Hfree by (unfold pool_size; lia).
  split; [|split; [reflexivity|]].
  - exact (proj1 (proj2 (proj2 (proj2 (proj2
             (@persistence_is_atomic Samples.ascii_ci Samples.answers_five
                Samples.times_out 1 Samples.climate Samples.five_slides
                (Samples.start []))))))
             eq_refl Hfree eq_refl).
  - pose proof (proj2 (proj2 (proj2 (proj2 (proj2
                 (@persistence_is_atomic Samples.ascii_ci Samples.answers_five
                    Samples.times_out 1 Samples.climate Samples.five_slides
                    (Samples.start Samples.second_slide_fails))))))) as H.
    split; [reflexivity | exact H].
Defined.

End GenerationFacts.

(* ================================================================== *)
(** * Properties of [init_db] (models/database.PY) *)
(* ================================================================== *)

Module InitDbRunFacts.

Import InitDbRun.

Lemma lookup_snoc {A : Type} (k k' : string) (v : A) (l : list (string * A)) :
  lookup k (l ++ [(k', v)])
  = match lookup k l with
    | Some x => Some x
    | None => if String.eqb k k' then Some v else None
    end.
Proof.
  induction l as [|[k0 v0] rest IH]; simpl; [reflexivity|].
  destruct (String.eqb k k0); [reflexivity | exact IH].
Qed.

Lemma lookup_replace_same {A : Type} (k : string) (v old : A) (l : list (string * A)) :
  lookup k l = Some old -> lookup k (replace k v l) = Some v.
Proof.
  induction l as [|[k0 v0] rest IH]; simpl; [discriminate|].
  destruct (String.eqb k k0) eqn:Hk; simpl; rewrite Hk; auto.
Qed.

Lemma lookup_replace_other {A : Type} (k k' : string) (v : A) (l : list (string * A)) :
  k <> k' -> lookup k (replace k' v l) = lookup k l.
Proof.
  intros Hneq. induction l as [|[k0 v0] rest IH]; simpl; [reflexivity|].
  destruct (String.eqb k' k0) eqn:Hk'; simpl.
  - apply String.eqb_eq in Hk'. subst k0.
    destruct (String.eqb_spec k k'); [contradiction | reflexivity].
  - destruct (String.eqb k k0); [reflexivity | exact IH].
Qed.

Lemma replace_snoc {A : Type} (k : string) (v v' : A) (l : list (string * A)) :
  lookup k l = None -> replace k v' (l ++ [(k, v)]) = l ++ [(k, v')].
Proof.
  induction l as [|[k0 v0] rest IH]; simpl.
  - intros _. now rewrite String.eqb_refl.
  - destruct (String.eqb k k0); [discriminate|]. intros H. now rewrite IH.
Qed.

(** A statement never drops a table and never changes its columns. *)
Lemma exec_ddl_keeps (s : ddl) (current : option string) (sv : server)
      (d t : string) (cols : columns) :
  table_columns d t sv = Some cols ->
  table_columns d t (fst (fst (exec_ddl s current sv))) = Some cols.
Proof.
  unfold table_columns. intros H.
  destruct (lookup d sv) as [c|] eqn:Hd; [|discriminate].
  destruct s as [name | name | name cs fks]; simpl.
  - destruct (lookup name sv); simpl; [now rewrite Hd|].
    rewrite lookup_snoc, Hd. exact H.
  - destruct (lookup name sv); simpl; now rewrite Hd.
  - destruct current as [d0|]; simpl; [|now rewrite Hd].
    destruct (lookup d0 sv) as [c0|] eqn:Hd0; simpl; [|now rewrite Hd].
    destruct (lookup name c0) eqn:Hname; simpl; [now rewrite Hd|].
    destruct (forallb (references_exist c0) fks); simpl; [|now rewrite Hd].
    destruct (String.eqb_spec d d0) as [-> | Hneq].
    + assert (c0 = c) as -> by congruence.
      erewrite lookup_replace_same by eassumption. rewrite lookup_snoc.
      now rewrite H.
    + rewrite lookup_replace_other by assumption. now rewrite Hd.
Qed.

(** The texts of [init_db] when DB_NAME names a database. *)
Lemma init_db_statements_named (p : parser) (d : string) :
  names_a_database p d = true ->
  init_db_statements p d = map Sql (init_db_ddl d).
Proof.
  intros H. unfold init_db_statements, with_name. rewrite H. reflexivity.
Qed.

Lemma execute_all_keeps (stmts : list ddl) :
  forall (n : nat) (f : faults) (current : option string) (w : world)
         (d t : string) (cols : columns),
    table_columns d t (catalogs w) = Some cols ->
    table_columns d t (catalogs (fst (execute_all (map Sql stmts) n f current w)))
    = Some cols.
Proof.
  induction stmts as [|s rest IH]; intros n f current w d t cols H; simpl; [exact H|].
  destruct (match lost_at f with Some k => Nat.eqb k n | None => false end);
    [exact H|].
  pose proof (exec_ddl_keeps s current (catalogs w) d t H) as Hs.
  destruct (exec_ddl s current (catalogs w)) as [[sv cur] [e|]]; simpl in *.
  - exact Hs.
  - apply IH. exact Hs.
Qed.

Lemma execute_all_counts (stmts : list statement) :
  forall (n : nat) (f : faults) (current : option string) (w : world),
    connections (fst (execute_all stmts n f current w)) = connections w
    /\ cursors (fst (execute_all stmts n f current w)) = cursors w
    /\ sql_parser (fst (execute_all stmts n f current w)) = sql_parser w.
Proof.
  induction stmts as [|s rest IH]; intros n f current w; simpl; [auto|].
  destruct (match lost_at f with Some k => Nat.eqb k n | None => false end);
    [auto|].
  destruct (exec_statement (sql_parser w) s current (catalogs w)) as [[sv cur] [e|]];
    simpl; [auto|].
  match goal with
  | |- context [execute_all rest ?m f cur ?w0] =>
      destruct (IH m f cur w0) as (-> & -> & ->)
  end.
  auto.
Qed.

(** [init_db] leaves the server the one it is, and closes the connection
    and the cursor it opened. *)
Lemma init_db_counts (e : Config.env) (f : faults) (w : world) :
  connections (fst (init_db e f w)) = connections w
  /\ cursors (fst (init_db e f w)) = cursors w
  /\ sql_parser (fst (init_db e f w)) = sql_parser w.
Proof.
  unfold init_db, try_block.
  destruct (connect_fails f); [simpl; auto|].
  destruct (cursor_fails f).
  { simpl. destruct (rollback_fails f); simpl; auto. }
  match goal with
  | |- context [execute_all ?stmts 0 f None ?w0] =>
      pose proof (execute_all_counts stmts 0 f None w0) as (Hc1 & Hc2 & Hc3);
      destruct (execute_all stmts 0 f None w0) as [w1 [err|]]
  end; simpl in *.
  - destruct (rollback_fails f); simpl; rewrite Hc1, Hc2, Hc3; auto.
  - destruct (commit_fails f); simpl; [destruct (rollback_fails f); simpl|];
      rewrite Hc1, Hc2, Hc3; auto.
Qed.

(** When the value of DB_NAME is written like the name of a database (a
    plain name that the server does not reserve), [init_db] never drops a
    table and never changes the columns of a table that exists, in any
    database of the server, whether it returns or raises; and it closes
    the connection and the cursor it opened. *)
Theorem init_db_keeps_existing_tables (e : Config.env) (f : faults) (w : world)
        (d t : string) (cols : columns) :
  names_a_database (sql_parser w) (Config.database (Config.get_db_config e)) = true ->
  table_columns d t (catalogs w) = Some cols ->
  let w' := fst (init_db e f w) in
  table_columns d t (catalogs w') = Some cols
  /\ connections w' = connections w
  /\ cursors w' = cursors w.
Proof.
  intros Hname H. cbv zeta.
  destruct (init_db_counts e f w) as (Hc1 & Hc2 & _).
  split; [|split; assumption]. clear Hc1 Hc2.
  unfold init_db, try_block.
  destruct (connect_fails f); [simpl; auto|].
  destruct (cursor_fails f).
  { simpl. destruct (rollback_fails f); simpl; auto. }
  cbn [sql_parser emit]. rewrite (init_db_statements_named _ _ Hname).
  match goal with
  | |- context [execute_all (map Sql ?stmts) 0 f None ?w0] =>
      pose proof (execute_all_keeps stmts 0 f None w0 d t H) as Hk;
      destruct (execute_all (map Sql stmts) 0 f None w0) as [w1 [err|]]
  end; simpl in *.
  - destruct (rollback_fails f); simpl; auto.
  - destruct (commit_fails f); simpl; [destruct (rollback_fails f); simpl|]; auto.
Qed.

(** ** What a successful run leaves *)

Lemma create_table_spec (name : string) (cols : columns) (fks : list foreign_key)
      (d : string) (sv sv' : server) (cur : option string) :
  exec_ddl (CreateTable name cols fks) (Some d) sv = (sv', cur, None) ->
  cur = Some d
  /\ lookup d sv' <> None
  /\ forall t,
       table_columns d t sv'
       = if String.eqb t name
         then Some (kept_or cols (table_columns d t sv))
         else table_columns d t sv.
Proof.
  simpl. unfold table_columns.
  destruct (lookup d sv) as [c|] eqn:Hd; [|discriminate].
  destruct (lookup name c) as [old|] eqn:Hname.
  - intros H. inversion H; subst. rewrite Hd.
    split; [reflexivity|]. split; [discriminate|].
    intros t. destruct (String.eqb_spec t name) as [-> | _]; [|reflexivity].
    now rewrite Hname.
  - destruct (forallb (references_exist c) fks); [|discriminate].
    intros H. inversion H; subst. clear H.
    erewrite lookup_replace_same by eassumption.
    split; [reflexivity|]. split; [discriminate|].
    intros t. rewrite lookup_snoc.
    destruct (String.eqb_spec t name) as [-> | Hneq].
    + now rewrite Hname.
    + now destruct (lookup t c).
Qed.

Lemma create_database_spec (d : string) (sv : server) :
  let sv' := fst (fst (exec_ddl (CreateDatabase d) None sv)) in
  exec_ddl (CreateDatabase d) None sv = (sv', None, None)
  /\ lookup d sv' <> None
  /\ forall t, table_columns d t sv' = table_columns d t sv.
Proof.
  simpl. unfold table_columns. destruct (lookup d sv) as [c|] eqn:Hd; simpl.
  - rewrite Hd. split; [reflexivity|]. split; [discriminate|].
    intros t. reflexivity.
  - rewrite lookup_snoc, Hd, String.eqb_refl.
    split; [reflexivity|]. split; [discriminate|].
    intros t. reflexivity.
Qed.

Lemma apply_all_ok (s : ddl) (rest : list ddl) (cur cur1 : option string)
      (sv sv1 : server) :
  exec_ddl s cur sv = (sv1, cur1, None) ->
  apply_all (s :: rest) cur sv = apply_all rest cur1 sv1.
Proof. intros H. cbn [apply_all]. now rewrite H. Qed.

Lemma apply_all_failed (s : ddl) (rest : list ddl) (cur cur1 : option string)
      (sv sv1 : server) (e : ddl_error) :
  exec_ddl s cur sv = (sv1, cur1, Some e) ->
  apply_all (s :: rest) cur sv = (sv1, cur1, Some e).
Proof. intros H. cbn [apply_all]. now rewrite H. Qed.

Lemma use_existing (d : string) (cur : option string) (sv : server) :
  lookup d sv <> None -> exec_ddl (Use d) cur sv = (sv, Some d, None).
Proof. simpl. destruct (lookup d sv); [reflexivity | congruence]. Qed.

(** The five statements on a catalog: when none fails, each of the three
    tables exists afterwards, with the columns it had if it existed and
    with the columns of the statement if it did not. *)
Lemma init_statements_success (d : string) (sv sv' : server) (cur : option string) :
  apply_all (init_db_ddl d) None sv = (sv', cur, None) ->
  table_columns d "users" sv'
  = Some (kept_or users_columns (table_columns d "users" sv))
  /\ table_columns d "presentations" sv'
     = Some (kept_or presentations_columns (table_columns d "presentations" sv))
  /\ table_columns d "slides" sv'
     = Some (kept_or slides_columns (table_columns d "slides" sv)).
Proof.
  unfold init_db_ddl.
  destruct (create_database_spec d sv) as (H1 & Hd1 & Ht1).
  set (sv1 := fst (fst (exec_ddl (CreateDatabase d) None sv))) in *.
  erewrite apply_all_ok by exact H1.
  erewrite apply_all_ok by (apply use_existing; exact Hd1).
  destruct (exec_ddl (CreateTable "users" users_columns []) (Some d) sv1)
    as [[sv2 c2] [e2|]] eqn:H2;
    [erewrite apply_all_failed by exact H2; discriminate|].
  erewrite apply_all_ok by exact H2.
  apply create_table_spec in H2 as (-> & Hd2 & Ht2).
  destruct (exec_ddl (CreateTable "presentations" presentations_columns
                        [mkForeignKey "user_id" "users" "id"]) (Some d) sv2)
    as [[sv3 c3] [e3|]] eqn:H3;
    [erewrite apply_all_failed by exact H3; discriminate|].
  erewrite apply_all_ok by exact H3.
  apply create_table_spec in H3 as (-> & Hd3 & Ht3).
  destruct (exec_ddl (CreateTable "slides" slides_columns
                        [mkForeignKey "presentation_id" "presentations" "id"])
                     (Some d) sv3)
    as [[sv4 c4] [e4|]] eqn:H4;
    [erewrite apply_all_failed by exact H4; discriminate|].
  erewrite apply_all_ok by exact H4.
  apply create_table_spec in H4 as (-> & Hd4 & Ht4).
  cbn [apply_all]. intros H. inversion H; subst sv' cur. clear H.
  rewrite !Ht4, !Ht3, !Ht2, !Ht1. simpl. auto.
Qed.

(** Without a lost connection the [cursor.execute] calls do what the
    statements do. *)
Lemma execute_all_apply (stmts : list ddl) :
  forall (n : nat) (f : faults) (current : option string) (w : world),
    snd (execute_all (map Sql stmts) n f current w) = None ->
    exists cur,
      apply_all stmts current (catalogs w)
      = (catalogs (fst (execute_all (map Sql stmts) n f current w)), cur, None).
Proof.
  induction stmts as [|s rest IH]; intros n f current w; simpl; [eauto|].
  destruct (match lost_at f with Some k => Nat.eqb k n | None => false end);
    [discriminate|].
  destruct (exec_ddl s current (catalogs w)) as [[sv cur] [e|]]; simpl;
    [discriminate|].
  intros H. apply IH in H. exact H.
Qed.

Lemma apply_execute_all (stmts : list ddl) :
  forall (n : nat) (current cur : option string) (w : world) (sv : server),
    apply_all stmts current (catalogs w) = (sv, cur, None) ->
    snd (execute_all (map Sql stmts) n no_faults current w) = None
    /\ catalogs (fst (execute_all (map Sql stmts) n no_faults current w)) = sv.
Proof.
  induction stmts as [|s rest IH]; intros n current cur w sv; simpl.
  - intros H. inversion H. auto.
  - destruct (exec_ddl s current (catalogs w)) as [[sv1 cur1] [e|]]; simpl.
    + discriminate.
    + intros H. eapply IH. simpl. exact H.
Qed.

Lemma init_db_returns (e : Config.env) (f : faults) (w : world) :
  names_a_database (sql_parser w) (Config.database (Config.get_db_config e)) = true ->
  snd (init_db e f w) = None ->
  exists cur,
    apply_all (init_db_ddl (Config.database (Config.get_db_config e))) None
              (catalogs w)
    = (catalogs (fst (init_db e f w)), cur, None).
Proof.
  intros Hname. unfold init_db, try_block.
  destruct (connect_fails f); [simpl; discriminate|].
  destruct (cursor_fails f).
  { simpl. destruct (rollback_fails f); simpl; discriminate. }
  cbn [sql_parser emit]. rewrite (init_db_statements_named _ _ Hname).
  match goal with
  | |- context [execute_all (map Sql ?stmts) 0 f None ?w0] =>
      pose proof (execute_all_apply stmts 0 f None w0) as Ha;
      destruct (execute_all (map Sql stmts) 0 f None w0) as [w1 [err|]]
  end; simpl in *.
  - destruct (rollback_fails f); simpl; discriminate.
  - destruct (commit_fails f); simpl; [destruct (rollback_fails f); discriminate|].
    intros _. destruct (Ha eq_refl) as [cur Hcur]. exists cur. exact Hcur.
Qed.

(** When the value of DB_NAME is written like the name of a database and
    [init_db] returns, the database of that name has the tables users,
    presentations and slides: a table that existed keeps the columns it
    had, a table that did not has the columns of [init_db]. *)
Theorem init_db_creates_missing_tables (e : Config.env) (f : faults) (w : world) :
  names_a_database (sql_parser w) (Config.database (Config.get_db_config e)) = true ->
  snd (init_db e f w) = None ->
  let d := Config.database (Config.get_db_config e) in
  let before := catalogs w in
  let after := catalogs (fst (init_db e f w)) in
  table_columns d "users" after
  = Some (kept_or users_columns (table_columns d "users" before))
  /\ table_columns d "presentations" after
     = Some (kept_or presentations_columns (table_columns d "presentations" before))
  /\ table_columns d "slides" after
     = Some (kept_or slides_columns (table_columns d "slides" before)).
Proof.
  intros Hname H. cbv zeta. destruct (init_db_returns e f w Hname H) as [cur Hcur].
  eapply init_statements_success. exact Hcur.
Qed.

Lemma create_table_existing (name : string) (cols old : columns)
      (fks : list foreign_key) (d : string) (sv : server) :
  table_columns d name sv = Some old ->
  exec_ddl (CreateTable name cols fks) (Some d) sv = (sv, Some d, None).
Proof.
  unfold table_columns. cbn [exec_ddl].
  destruct (lookup d sv) as [c|]; [|discriminate]. now intros ->.
Qed.

Lemma init_statements_again (d : string) (sv : server) (u p s : columns) :
  table_columns d "users" sv = Some u ->
  table_columns d "presentations" sv = Some p ->
  table_columns d "slides" sv = Some s ->
  apply_all (init_db_ddl d) None sv = (sv, Some d, None).
Proof.
  intros Hu Hp Hs. unfold init_db_ddl.
  assert (lookup d sv <> None) as Hd.
  { unfold table_columns in Hu. destruct (lookup d sv); [discriminate | discriminate]. }
  assert (exec_ddl (CreateDatabase d) None sv = (sv, None, None)) as H1.
  { cbn [exec_ddl]. destruct (lookup d sv); [reflexivity | congruence]. }
  erewrite apply_all_ok by exact H1.
  erewrite apply_all_ok by (apply use_existing; exact Hd).
  erewrite apply_all_ok by (eapply create_table_existing; exact Hu).
  erewrite apply_all_ok by (eapply create_table_existing; exact Hp).
  erewrite apply_all_ok by (eapply create_table_existing; exact Hs).
  reflexivity.
Qed.

Lemma init_db_no_faults (e : Config.env) (w : world) (sv : server)
      (cur : option string) :
  names_a_database (sql_parser w) (Config.database (Config.get_db_config e)) = true ->
  apply_all (init_db_ddl (Config.database (Config.get_db_config e))) None
            (catalogs w) = (sv, cur, None) ->
  snd (init_db e no_faults w) = None
  /\ catalogs (fst (init_db e no_faults w)) = sv.
Proof.
  intros Hname H. unfold init_db, try_block.
  cbn [no_faults connect_fails cursor_fails].
  cbn [sql_parser emit]. rewrite (init_db_statements_named _ _ Hname).
  match goal with
  | |- context [execute_all (map Sql ?stmts) 0 no_faults None ?w0] =>
      destruct (@apply_execute_all stmts 0 None cur w0 sv H) as [Hnone Hcat];
      destruct (execute_all (map Sql stmts) 0 no_faults None w0) as [w2 r2]
  end.
  cbn [fst snd] in Hnone, Hcat. subst r2. simpl. split; [reflexivity | exact Hcat].
Qed.

(** When the value of DB_NAME is written like the name of a database,
    [init_db] is idempotent: after a run that returned, a second run
    without faults returns too and leaves the catalog as it is. *)
Theorem init_db_idempotent (e : Config.env) (f : faults) (w : world) :
  names_a_database (sql_parser w) (Config.database (Config.get_db_config e)) = true ->
  snd (init_db e f w) = None ->
  let w1 := fst (init_db e f w) in
  snd (init_db e no_faults w1) = None
  /\ catalogs (fst (init_db e no_faults w1)) = catalogs w1.
Proof.
  intros Hname H. cbv zeta.
  destruct (init_db_returns e f w Hname H) as [cur Hcur].
  apply init_statements_success in Hcur as (Hu & Hp & Hs).
  eapply init_db_no_faults.
  - destruct (init_db_counts e f w) as (_ & _ & ->). exact Hname.
  - eapply init_statements_again; eassumption.
Qed.

(** ** What a failed run leaves *)

Lemma execute_all_lost (stmts : list ddl) :
  forall (n0 n : nat) (f : faults) (current cur_n : option string) (w : world)
         (sv_n : server),
    lost_at f = Some (n0 + n)%nat ->
    (n < List.length stmts)%nat ->
    apply_all (firstn n stmts) current (catalogs w) = (sv_n, cur_n, None) ->
    catalogs (fst (execute_all (map Sql stmts) n0 f current w)) = sv_n
    /\ snd (execute_all (map Sql stmts) n0 f current w) = Some ConnectionError.
Proof.
  induction stmts as [|s rest IH]; intros n0 n f current cur_n w sv_n Hlost Hn Happ;
    [simpl in Hn; lia|].
  cbn [map execute_all]. rewrite Hlost. destruct n as [|n].
  - rewrite Nat.add_0_r, Nat.eqb_refl. simpl in Happ. inversion Happ. auto.
  - assert (Nat.eqb (n0 + S n) n0 = false) as -> by (apply Nat.eqb_neq; lia).
    cbn [firstn apply_all] in Happ.
    destruct (exec_ddl s current (catalogs w)) as [[sv1 cur1] [e|]] eqn:Hs;
      [discriminate|].
    cbn [emit catalogs sql_parser exec_statement]. rewrite Hs.
    apply (IH (S n0) n f cur1 cur_n); [| simpl in Hn; lia | exact Happ].
    rewrite Hlost. f_equal. lia.
Qed.

(** When the value of DB_NAME is written like the name of a database and
    the connection is lost as statement number [n] is sent, [init_db]
    raises, and the statements run before stay applied: the tables they
    created are there, the rollback takes none of them back. *)
Theorem init_db_keeps_what_it_created (e : Config.env) (f : faults) (w : world)
        (n : nat) (sv_n : server) (cur_n : option string) :
  names_a_database (sql_parser w) (Config.database (Config.get_db_config e)) = true ->
  connect_fails f = false ->
  cursor_fails f = false ->
  lost_at f = Some n ->
  (n < 5)%nat ->
  apply_all (firstn n (init_db_ddl (Config.database (Config.get_db_config e))))
            None (catalogs w) = (sv_n, cur_n, None) ->
  snd (init_db e f w) <> None
  /\ catalogs (fst (init_db e f w)) = sv_n.
Proof.
  intros Hname Hconnect Hcursor Hlost Hn Happ.
  unfold init_db, try_block. rewrite Hconnect, Hcursor.
  cbn [sql_parser emit]. rewrite (init_db_statements_named _ _ Hname).
  match goal with
  | |- context [execute_all (map Sql ?stmts) 0 f None ?w0] =>
      destruct (@execute_all_lost stmts 0 n f None cur_n w0 sv_n Hlost Hn Happ)
        as [Hcat Herr];
      destruct (execute_all (map Sql stmts) 0 f None w0) as [w1 r1]
  end.
  cbn [fst snd] in Hcat, Herr. subst r1. simpl.
  destruct (rollback_fails f); simpl; split; try discriminate; exact Hcat.
Qed.

(** ** database/schema.sql first, [init_db] second *)

Lemma run_schema_sql_fresh (sv : server) :
  lookup "gamma_ai" sv = None ->
  run_schema_sql sv = sv ++ [("gamma_ai", schema_sql_catalog)].
Proof.
  intros H. unfold run_schema_sql, schema_sql_statements.
  cbn [apply_all exec_ddl]. rewrite H.
  repeat (rewrite ?lookup_snoc, ?H; cbn;
          rewrite ?replace_snoc by exact H).
  reflexivity.
Qed.

(** On a server where database/schema.sql was run first (the README's
    order of installation) and DB_NAME names gamma_ai, [init_db] returns
    and only adds the slides table: users and presentations keep the
    columns of schema.sql, so users has no column [name] and presentations
    no column [prompt], which the tables of [init_db] have. *)
Theorem init_db_after_schema_sql (e : Config.env) (sv : server) (w : world) :
  lookup "gamma_ai" sv = None ->
  Config.database (Config.get_db_config e) = "gamma_ai" ->
  catalogs w = run_schema_sql sv ->
  let after := catalogs (fst (init_db e no_faults w)) in
  snd (init_db e no_faults w) = None
  /\ after = sv ++ [("gamma_ai", schema_sql_catalog ++ [("slides", slides_columns)])]
  /\ table_columns "gamma_ai" "users" after = Some schema_sql_users
  /\ table_columns "gamma_ai" "presentations" after = Some schema_sql_presentations
  /\ ~ In "name" schema_sql_users /\ In "name" users_columns
  /\ ~ In "prompt" schema_sql_presentations /\ In "prompt" presentations_columns.
Proof.
  intros Hfresh Hname Hcat. cbv zeta.
  rewrite (run_schema_sql_fresh sv Hfresh) in Hcat.
  assert (names_a_database (sql_parser w) (Config.database (Config.get_db_config e))
          = true) as Hnamed by (rewrite Hname; reflexivity).
  assert (apply_all (init_db_ddl (Config.database (Config.get_db_config e)))
                    None (catalogs w)
          = (sv ++ [("gamma_ai", schema_sql_catalog ++ [("slides", slides_columns)])],
             Some "gamma_ai", None)) as Happ.
  { rewrite Hname, Hcat. unfold init_db_ddl.
    cbn [apply_all exec_ddl].
    repeat (rewrite ?lookup_snoc, ?Hfresh; cbn;
            rewrite ?replace_snoc by exact Hfresh).
    reflexivity. }
  destruct (init_db_no_faults e w Hnamed Happ) as [Hnone Hafter].
  rewrite Hafter. unfold table_columns. rewrite !lookup_snoc, Hfresh. cbn.
  split; [exact Hnone|]. split; [reflexivity|].
  split; [reflexivity|]. split; [reflexivity|].
  split; [|split; [|split]].
  - intros H. repeat (destruct H as [H | H]; [discriminate H|]). exact H.
  - simpl. auto.
  - intros H. repeat (destruct H as [H | H]; [discriminate H|]). exact H.
  - simpl. auto.
Qed.

(** ** On the sample servers *)

(** An interrupted run on a server that has the users table. *)
Lemma init_db_keeps_existing_tables_witness :
  names_a_database (sql_parser SetupSamples.with_users)
    (Config.database (Config.get_db_config SetupSamples.bare_env)) = true
  /\ table_columns "gamma_ai" "users" (catalogs SetupSamples.with_users)
     = Some users_columns
  /\ let w' := fst (init_db SetupSamples.bare_env SetupSamples.lost_at_presentations
                            SetupSamples.with_users) in
     table_columns "gamma_ai" "users" (catalogs w') = Some users_columns
     /\ connections w' = 0%nat
     /\ cursors w' = 0%nat.
Proof.
  split; [reflexivity|]. split; [reflexivity|].
  exact (@init_db_keeps_existing_tables SetupSamples.bare_env
           SetupSamples.lost_at_presentations SetupSamples.with_users
           "gamma_ai" "users" users_columns eq_refl eq_refl).
Defined.

(** A first run on a server without databases, for DB_NAME set to
    [decks]. *)
Lemma init_db_creates_missing_tables_witness :
  names_a_database (sql_parser SetupSamples.fresh)
    (Config.database (Config.get_db_config SetupSamples.other_name_env)) = true
  /\ snd (init_db SetupSamples.other_name_env no_faults SetupSamples.fresh) = None
  /\ table_columns "decks" "slides"
       (catalogs (fst (init_db SetupSamples.other_name_env no_faults SetupSamples.fresh)))
     = Some slides_columns.
Proof.
  split; [reflexivity|]. split; [reflexivity|].
  exact (proj2 (proj2 (@init_db_creates_missing_tables SetupSamples.other_name_env
                         no_faults SetupSamples.fresh eq_refl eq_refl))).
Defined.

(** A second run after the first. *)
Lemma init_db_idempotent_witness :
  names_a_database (sql_parser SetupSamples.fresh)
    (Config.database (Config.get_db_config SetupSamples.bare_env)) = true
  /\ snd (init_db SetupSamples.bare_env no_faults SetupSamples.fresh) = None
  /\ let w1 := fst (init_db SetupSamples.bare_env no_faults SetupSamples.fresh) in
     snd (init_db SetupSamples.bare_env no_faults w1) = None
     /\ catalogs (fst (init_db SetupSamples.bare_env no_faults w1)) = catalogs w1.
Proof.
  split; [reflexivity|]. split; [reflexivity|].
  exact (@init_db_idempotent SetupSamples.bare_env no_faults SetupSamples.fresh
           eq_refl eq_refl).
Defined.

(** The connection is lost at the fourth statement: the users table stays. *)
Lemma init_db_keeps_what_it_created_witness :
  names_a_database (sql_parser SetupSamples.fresh)
    (Config.database (Config.get_db_config SetupSamples.bare_env)) = true
  /\ connect_fails SetupSamples.lost_at_presentations = false
  /\ cursor_fails SetupSamples.lost_at_presentations = false
  /\ lost_at SetupSamples.lost_at_presentations = Some 3%nat
  /\ (3 < 5)%nat
  /\ apply_all (firstn 3 (init_db_ddl
                            (Config.database (Config.get_db_config SetupSamples.bare_env))))
               None (catalogs SetupSamples.fresh)
     = (SetupSamples.only_users, Some "gamma_ai", None)
  /\ snd (init_db SetupSamples.bare_env SetupSamples.lost_at_presentations
                  SetupSamples.fresh) <> None
  /\ catalogs (fst (init_db SetupSamples.bare_env SetupSamples.lost_at_presentations
                            SetupSamples.fresh))
     = SetupSamples.only_users.
Proof.
  assert (3 < 5)%nat as Hlt by lia.
  split; [reflexivity|].
  split; [reflexivity|]. split; [reflexivity|]. split; [reflexivity|].
  split; [exact Hlt|]. split; [reflexivity|].
  exact (@init_db_keeps_what_it_created SetupSamples.bare_env
           SetupSamples.lost_at_presentations SetupSamples.fresh 3
           SetupSamples.only_users (Some "gamma_ai")
           eq_refl eq_refl eq_refl eq_refl Hlt eq_refl).
Defined.

(** database/schema.sql on a server without databases, then [init_db]. *)
Lemma init_db_after_schema_sql_witness :
  lookup "gamma_ai" (@nil (string * catalog)) = None
  /\ Config.database (Config.get_db_config SetupSamples.bare_env) = "gamma_ai"
  /\ catalogs SetupSamples.after_schema_sql = run_schema_sql []
  /\ table_columns "gamma_ai" "users"
       (catalogs (fst (init_db SetupSamples.bare_env no_faults
                               SetupSamples.after_schema_sql)))
     = Some schema_sql_users.
Proof.
  split; [reflexivity|]. split; [reflexivity|]. split; [reflexivity|].
  exact (proj1 (proj2 (proj2 (@init_db_after_schema_sql SetupSamples.bare_env []
                                SetupSamples.after_schema_sql
                                eq_refl eq_refl eq_refl)))).
Defined.

(** A value of DB_NAME that is not written like a name is sent as it is:
    for [my-db] the sample server answers the first text with a syntax
    error, [init_db] raises and no database is created. *)
Lemma init_db_sends_the_name_unquoted :
  names_a_database SetupSamples.a_parser "my-db" = false
  /\ init_db_statements SetupSamples.a_parser "my-db"
     = Text "CREATE DATABASE IF NOT EXISTS my-db" :: Text "USE my-db"
         :: map Sql (skipn 2 (init_db_ddl "my-db"))
  /\ snd (init_db SetupSamples.hyphen_env no_faults SetupSamples.fresh)
     = Some SyntaxError
  /\ catalogs (fst (init_db SetupSamples.hyphen_env no_faults SetupSamples.fresh)) = [].
Proof. repeat split; reflexivity. Qed.

End InitDbRunFacts.

(* ================================================================== *)
(** * Properties of [get_db_config] and of database/init_db.sh *)
(* ================================================================== *)

Module ConfigFacts.

Import Config.

Lemma getenv_or_default (e : env) (name fallback : string) :
  fallback <> "" ->
  (getenv e name fallback = or_default e name fallback <-> e name <> Some "").
Proof.
  intros Hfallback. unfold getenv, or_default.
  destruct (e name) as [v|]; [|split; [discriminate | reflexivity]].
  destruct (String.eqb_spec v "") as [-> | Hv].
  - split; [intros H; now symmetry in H | intros H; now elim H].
  - split; [intros _ H; inversion H; contradiction | reflexivity].
Qed.

(** The application and the installation script read DB_HOST, DB_USER and
    DB_NAME alike exactly when the variable is not set to the empty string:
    [os.getenv] keeps an empty value, [${VAR:-default}] replaces it. *)
Theorem python_and_shell_defaults (e : env) :
  (host (get_db_config e) = or_default e "DB_HOST" "localhost"
   <-> e "DB_HOST" <> Some "")
  /\ (user (get_db_config e) = or_default e "DB_USER" "root"
      <-> e "DB_USER" <> Some "")
  /\ (database (get_db_config e) = or_default e "DB_NAME" "gamma_ai"
      <-> e "DB_NAME" <> Some "").
Proof.
  simpl. repeat split; try (apply getenv_or_default; discriminate);
    apply getenv_or_default; discriminate.
Qed.

(** database/init_db.sh runs the schema only when the mysql client was
    found and the test connection succeeded, with the host, the user and
    the password option of the test: the word [-p] followed by the value
    that [read] left in DB_PASSWORD, [-p] alone when that value is empty.
    It exits with 0 exactly when the schema ran and succeeded. *)
Theorem init_db_sh_runs_schema_after_test (e : env) (mysql_found : bool)
        (DB_PASSWORD : string) (succeeds : command -> bool) :
  let r := init_db_sh e mysql_found DB_PASSWORD succeeds in
  let h := or_default e "DB_HOST" "localhost" in
  let u := or_default e "DB_USER" "root" in
  let p := ("-p" ++ DB_PASSWORD)%string in
  (forall c, In c (commands r) -> is_run_schema c = true ->
             c = RunSchema h u p
             /\ mysql_found = true
             /\ succeeds (TestConnection h u p) = true)
  /\ (exit_code r = 0%nat
      <-> mysql_found = true
          /\ succeeds (TestConnection h u p) = true
          /\ succeeds (RunSchema h u p) = true)
  /\ (exit_code r = 0%nat \/ exit_code r = 1%nat)
  /\ (DB_PASSWORD = "" -> p = "-p").
Proof.
  cbv zeta. unfold init_db_sh.
  split; [|split; [|split]]; [| | |intros ->; reflexivity];
    revert e mysql_found succeeds;
    [intros e mysql_found succeeds | intros e mysql_found succeeds
     | intros e mysql_found succeeds].
  all: destruct mysql_found; cbn [negb commands exit_code].
  all: try destruct (succeeds (TestConnection _ _ _)) eqn:Htest;
    cbn [commands exit_code].
  all: try destruct (succeeds (RunSchema _ _ _)) eqn:Hschema;
    cbn [commands exit_code].
  all: try (intros c Hin Hc; cbn [In] in Hin;
            repeat (destruct Hin as [<- | Hin]; [try discriminate Hc; auto|]);
            destruct Hin).
  all: try (split; [discriminate || auto | intros (H1 & H2 & H3); congruence]).
  all: auto.
Qed.

(** database/init_db.sh never uses DB_NAME (it only prints it) nor the
    DB_PASSWORD of the environment, which [read] overwrites: whatever
    they are set to, it runs the same commands, and the schema goes to the
    database named in database/schema.sql with the password read;
    [get_db_config] takes both from the environment. *)
Theorem init_db_sh_ignores_name_and_password (e : env) (name pw : string)
        (mysql_found : bool) (DB_PASSWORD : string) (succeeds : command -> bool) :
  let e' := setenv "DB_NAME" name (setenv "DB_PASSWORD" pw e) in
  init_db_sh e' mysql_found DB_PASSWORD succeeds
  = init_db_sh e mysql_found DB_PASSWORD succeeds
  /\ database (get_db_config e') = name
  /\ password (get_db_config e') = pw.
Proof. cbv zeta. repeat split. Qed.

End ConfigFacts.

(* ================================================================== *)
(** * More properties of [get_connection] and [execute_query] *)
(* ================================================================== *)

Module PoolFacts.

Import InitDb Database.

Section Collation.

Variable key : string -> string.

Ltac open_call :=
  unfold execute_query, try_block, get_connection, conn_cursor, cursor_execute,
    cursor_fetchall, conn_commit, except_block, finally_block, conn_rollback,
    cursor_close, conn_close, emit, with_pool, with_connections, with_cursors,
    with_transactions, with_committed.

Ltac split_call :=
  repeat match goal with
         | |- context [if ?b then _ else _] => destruct b eqn:?; simpl
         | |- context [match run_query ?k ?q ?d with _ => _ end] =>
             destruct (run_query k q d) as [[[? ?] ?]|] eqn:?; simpl
         | |- context [match ?o with Some _ => _ | None => _ end] =>
             destruct o eqn:?; simpl
         end.

(** Once the pool exists it is not created again, and a call never
    unsets it. *)
Lemma execute_query_keeps_pool (q : query) (fetch : bool) (f : faults) (w : world) :
  connection_pool w = true ->
  connection_pool (fst (execute_query key q fetch f w)) = true.
Proof.
  destruct w as [pool d nc ncur ntx lg]. destruct f as [f1 f2 f3 f4 f5 f6 f7].
  simpl. intros ->. open_call. simpl. destruct fetch; split_call; reflexivity.
Qed.

Lemma execute_query_balanced (q : query) (fetch : bool) (f : faults) (w : world) :
  let w' := fst (execute_query key q fetch f w) in
  open_connections w' = open_connections w
  /\ open_cursors w' = open_cursors w
  /\ open_transactions w' = open_transactions w.
Proof.
  destruct fetch.
  - destruct (DatabaseFacts.execute_query_fetch key q f w) as (_ & H1 & H2 & H3). auto.
  - destruct (DatabaseFacts.execute_query_no_fetch key q f w) as (H1 & H2 & H3 & _). auto.
Qed.

(** With [fetch=True] nothing is ever committed, whatever the query: a
    statement that writes is lost when the connection goes back to the
    pool.  The call never returns a row id; without faults and with a
    connection free in the pool a SELECT returns its rows on the committed
    data.  Connection, cursor and transaction are closed in every case. *)
Theorem fetch_never_writes (q : query) (f : faults) (w : world) :
  let run := execute_query key q true f w in
  committed (fst run) = committed w
  /\ open_connections (fst run) = open_connections w
  /\ open_cursors (fst run) = open_cursors w
  /\ open_transactions (fst run) = open_transactions w
  /\ (forall id, snd run <> Return (LastRowId id))
  /\ (forall sel, q = Select sel -> f = no_faults ->
                  (open_connections w < pool_size)%nat ->
                  snd run = Return (Rows (sel (committed w)))).
Proof.
  cbv zeta.
  destruct (DatabaseFacts.execute_query_fetch key q f w) as (H0 & H1 & H2 & H3).
  repeat (split; [assumption|]). split.
  - intros id. destruct w as [pool d nc ncur ntx lg].
    destruct f as [f1 f2 f3 f4 f5 f6 f7]. open_call. simpl.
    split_call; discriminate.
  - intros sel -> -> Hfree. destruct w as [pool d nc ncur ntx lg]. simpl in *.
    apply Nat.leb_gt in Hfree. unfold pool_size in Hfree. simpl in Hfree.
    unfold execute_query, try_block, get_connection, conn_cursor, cursor_execute.
    simpl. rewrite andb_false_r. simpl. rewrite Hfree. reflexivity.
Qed.

(** A sequence of calls leaves open what was open before it: no
    connection, cursor or transaction is leaked, and the pool, once
    created, stays.  So the pool of 5 is never used up by calls made one
    after the other: after any sequence, a call with [fetch=False] and
    without faults still commits a statement that the server accepts and
    that has no result set, and still raises InternalError for a
    statement with a result set, which it leaves unread. *)
Theorem calls_leak_nothing (cs : list (query * bool * faults)) (w : world) :
  let w' := run_calls key cs w in
  open_connections w' = open_connections w
  /\ open_cursors w' = open_cursors w
  /\ open_transactions w' = open_transactions w
  /\ (connection_pool w = true -> connection_pool w' = true)
  /\ (forall q d' id,
        (open_connections w < pool_size)%nat ->
        run_query key q (committed w') = Ok (d', id, None) ->
        snd (execute_query key q false no_faults w') = Return (LastRowId id)
        /\ committed (fst (execute_query key q false no_faults w')) = d')
  /\ (forall q d' id rows,
        (open_connections w < pool_size)%nat ->
        run_query key q (committed w') = Ok (d', id, Some rows) ->
        snd (execute_query key q false no_faults w') = Raise InternalError).
Proof.
  cbv zeta.
  assert (open_connections (run_calls key cs w) = open_connections w
          /\ open_cursors (run_calls key cs w) = open_cursors w
          /\ open_transactions (run_calls key cs w) = open_transactions w
          /\ (connection_pool w = true -> connection_pool (run_calls key cs w) = true))
    as (H1 & H2 & H3 & H4).
  { revert w. induction cs as [|[[q fetch] f] rest IH]; intros w; [simpl; auto|].
    simpl. destruct (IH (fst (execute_query key q fetch f w))) as (I1 & I2 & I3 & I4).
    destruct (execute_query_balanced q fetch f w) as (B1 & B2 & B3).
    rewrite I1, I2, I3, B1, B2, B3. repeat split.
    intros Hpool. apply I4. now apply execute_query_keeps_pool. }
  repeat (split; [assumption|]).
  split.
  - intros q d' id Hfree Hrun.
    apply (@DatabaseFacts.execute_query_fault_free key q (run_calls key cs w) d' id);
      [|exact Hrun].
    now rewrite H1.
  - intros q d' id rows Hfree Hrun.
    assert (open_connections (run_calls key cs w) < pool_size)%nat as Hfree'
        by now rewrite H1.
    exact (proj2 (@DatabaseFacts.execute_query_fault_free_raises key q
                    (run_calls key cs w) Hfree') d' id rows Hrun).
Qed.

End Collation.

(** A SELECT on the sample store. *)
Lemma fetch_never_writes_witness :
  let count_users (d : db) : list dict_row :=
    [[("n", CInt (Z.of_nat (List.length (users d))))]] in
  Select count_users = Select count_users
  /\ no_faults = no_faults
  /\ (open_connections (initial_world Samples.store) < pool_size)%nat
  /\ snd (execute_query Samples.ascii_ci (Select count_users) true no_faults
                        (initial_world Samples.store))
     = Return (Rows [[("n", CInt 2)]]).
Proof.
  cbv zeta.
  assert (0 < pool_size)%nat as Hfree by (unfold pool_size; lia).
  split; [reflexivity|]. split; [reflexivity|]. split; [exact Hfree|].
  exact (proj2 (proj2 (proj2 (proj2 (proj2
           (@fetch_never_writes Samples.ascii_ci _ no_faults
              (initial_world Samples.store))))))
           _ eq_refl eq_refl Hfree).
Defined.

(** After a failed and a successful call on the sample store, a third
    call still commits, and a SELECT with [fetch=False] raises. *)
Lemma calls_leak_nothing_witness :
  let history :=
    [ (Dml (InsertUser (Some "Bea") (Some "ann@example.com") (Some "h")), false,
       no_faults);
      (Dml (DeleteSlide 3), false, mkFaults false false false false false true true) ] in
  let w' := run_calls Samples.ascii_ci history (initial_world Samples.store) in
  (open_connections (initial_world Samples.store) < pool_size)%nat
  /\ run_query Samples.ascii_ci (Dml (DeleteSlide 3)) (committed w')
     = Ok (Samples.after (DeleteSlide 3) Samples.store, Some 0, None)
  /\ snd (execute_query Samples.ascii_ci (Dml (DeleteSlide 3)) false no_faults w')
     = Return (LastRowId (Some 0))
  /\ snd (execute_query Samples.ascii_ci (Select (fun _ => [])) false no_faults w')
     = Raise InternalError.
Proof.
  intros history w'.
  assert (0 < pool_size)%nat as Hfree by (unfold pool_size; lia).
  assert (run_query Samples.ascii_ci (Dml (DeleteSlide 3)) (committed w')
          = Ok (Samples.after (DeleteSlide 3) Samples.store, Some 0, None)) as Hrun
      by reflexivity.
  split; [exact Hfree|]. split; [exact Hrun|]. split.
  - exact (proj1 (proj1 (proj2 (proj2 (proj2 (proj2
             (@calls_leak_nothing Samples.ascii_ci history
                (initial_world Samples.store))))))
             (Dml (DeleteSlide 3)) (Samples.after (DeleteSlide 3) Samples.store)
             (Some 0) Hfree Hrun)).
  - exact (proj2 (proj2 (proj2 (proj2 (proj2
             (@calls_leak_nothing Samples.ascii_ci history
                (initial_world Samples.store))))))
             (Select (fun _ => [])) (committed w') None [] Hfree eq_refl).
Defined.

End PoolFacts.

(* ================================================================== *)
(** * Properties of the views and of the admin row (database/schema.sql) *)
(* ================================================================== *)

Module SchemaSqlViewsFacts.

Import SchemaSql SchemaSqlViews.

Lemma views_leb_refl (a : option Z) : views_leb a a = true.
Proof. destruct a as [x|]; simpl; [apply Z.leb_refl|reflexivity]. Qed.

Lemma views_leb_total (a b : option Z) : views_leb a b = false -> views_leb b a = true.
Proof.
  destruct a as [x|], b as [y|]; simpl; try discriminate; try reflexivity.
  intros H. apply Z.leb_gt in H. apply Z.leb_le. lia.
Qed.

Lemma views_leb_trans (a b c : option Z) :
  views_leb a b = true -> views_leb b c = true -> views_leb a c = true.
Proof.
  destruct a as [x|], b as [y|], c as [z|]; simpl; try discriminate; try reflexivity.
  intros H1 H2. apply Z.leb_le in H1, H2. apply Z.leb_le. lia.
Qed.

Lemma insert_by_views_iff (r x : popular_row) (rows : list popular_row) :
  In x (insert_by_views r rows) <-> x = r \/ In x rows.
Proof.
  induction rows as [|h rest IH]; simpl.
  - intuition.
  - destruct (views_leb (pop_views h) (pop_views r)); simpl; [intuition|].
    rewrite IH. intuition.
Qed.

Lemma insert_by_views_length (r : popular_row) (rows : list popular_row) :
  List.length (insert_by_views r rows) = S (List.length rows).
Proof.
  induction rows as [|h rest IH]; simpl; [reflexivity|].
  destruct (views_leb (pop_views h) (pop_views r)); simpl; [reflexivity|].
  now rewrite IH.
Qed.

Lemma insert_by_views_descending (r : popular_row) (rows : list popular_row) :
  descending rows -> descending (insert_by_views r rows).
Proof.
  induction rows as [|h rest IH]; simpl.
  - intros _. split; [intros x []|exact I].
  - intros [Hh Hrest].
    destruct (views_leb (pop_views h) (pop_views r)) eqn:Hcmp.
    + simpl. split; [|split; assumption].
      intros x [<-|Hx]; [exact Hcmp|].
      unfold before. apply views_leb_trans with (b := pop_views h); [apply Hh, Hx|exact Hcmp].
    + simpl. split; [|apply IH, Hrest].
      intros x Hx. apply insert_by_views_iff in Hx. destruct Hx as [->|Hx].
      * unfold before. apply views_leb_total, Hcmp.
      * apply Hh, Hx.
Qed.

Lemma order_by_views_desc_In (x : popular_row) (rows : list popular_row) :
  In x (order_by_views_desc rows) <-> In x rows.
Proof.
  unfold order_by_views_desc. induction rows as [|h rest IH]; simpl; [tauto|].
  rewrite insert_by_views_iff, IH. intuition.
Qed.

Lemma order_by_views_desc_length (rows : list popular_row) :
  List.length (order_by_views_desc rows) = List.length rows.
Proof.
  unfold order_by_views_desc. induction rows as [|h rest IH]; simpl; [reflexivity|].
  now rewrite insert_by_views_length, IH.
Qed.

Lemma order_by_views_desc_descending (rows : list popular_row) :
  descending (order_by_views_desc rows).
Proof.
  unfold order_by_views_desc. induction rows as [|h rest IH]; simpl; [exact I|].
  apply insert_by_views_descending, IH.
Qed.

Lemma limit_In (n : nat) (x : popular_row) (rows : list popular_row) :
  In x (firstn n rows) -> In x rows.
Proof.
  revert n. induction rows as [|h rest IH]; intros [|n]; simpl; try tauto.
  intros [->|Hx]; [now left|right; eapply IH, Hx].
Qed.

Lemma limit_descending (n : nat) (rows : list popular_row) :
  descending rows -> descending (firstn n rows).
Proof.
  revert n. induction rows as [|h rest IH]; intros [|n]; simpl; try tauto.
  intros [Hh Hrest]. split; [|apply IH, Hrest].
  intros x Hx. apply Hh. eapply limit_In, Hx.
Qed.

Lemma descending_nth (rows : list popular_row) (i j : nat) (ri rj : popular_row) :
  descending rows -> (i <= j)%nat ->
  nth_error rows i = Some ri -> nth_error rows j = Some rj -> before ri rj.
Proof.
  revert i j. induction rows as [|h rest IH]; intros i j Hd Hij Hi Hj.
  - destruct i; discriminate.
  - destruct Hd as [Hh Hrest]. destruct i as [|i], j as [|j]; simpl in Hi, Hj.
    + inversion Hi; inversion Hj; subst. unfold before. apply views_leb_refl.
    + inversion Hi; subst. apply Hh. eapply nth_error_In, Hj.
    + lia.
    + apply (IH i j); [assumption|lia|assumption|assumption].
Qed.

Lemma descending_cut (n : nat) (rows : list popular_row) (a b : popular_row) :
  descending rows -> In a (firstn n rows) -> In b (skipn n rows) -> before a b.
Proof.
  revert n. induction rows as [|h rest IH]; intros [|n]; simpl; try tauto.
  intros [Hh Hrest] [<-|Ha] Hb.
  - apply Hh. clear -Hb. revert n Hb.
    induction rest as [|h' t IHt]; intros [|n]; simpl; try tauto.
    intros Hb. right. eapply IHt, Hb.
  - eapply IH; eassumption.
Qed.

(** The view [popular_presentations] is the top 100 of the public rows by
    views: it has at most 100 rows, all of them public rows, in descending
    order of views (NULL last); a public row that is left out has no more
    views than any row shown, and none is left out when there are at most
    100. *)
Theorem popular_presentations_top_100 (d : db) :
  let shown := popular_presentations d in
  (List.length shown <= 100)%nat
  /\ (forall r, In r shown -> In r (public_rows d))
  /\ (forall i j ri rj,
        (i <= j)%nat -> nth_error shown i = Some ri -> nth_error shown j = Some rj ->
        views_leb (pop_views rj) (pop_views ri) = true)
  /\ (forall r r',
        In r (public_rows d) -> ~ In r shown -> In r' shown ->
        views_leb (pop_views r) (pop_views r') = true)
  /\ ((List.length (public_rows d) <= 100)%nat ->
      forall r, In r (public_rows d) -> In r shown).
Proof.
  cbv zeta. unfold popular_presentations. fold (public_rows d).
  set (sorted := order_by_views_desc (public_rows d)).
  assert (descending sorted) as Hsorted by apply order_by_views_desc_descending.
  split; [apply firstn_le_length|]. split; [|split; [|split]].
  - intros r Hr. apply order_by_views_desc_In. eapply limit_In, Hr.
  - intros i j ri rj Hij Hi Hj.
    eapply descending_nth; [apply limit_descending, Hsorted|exact Hij|exact Hi|exact Hj].
  - intros r r' Hr Hout Hin.
    apply (@descending_cut 100%nat sorted r' r Hsorted Hin).
    apply order_by_views_desc_In in Hr. fold sorted in Hr.
    rewrite <- (firstn_skipn 100 sorted) in Hr. apply in_app_or in Hr.
    destruct Hr as [Hr|Hr]; [contradiction|exact Hr].
  - intros Hlen r Hr. rewrite firstn_all2.
    + apply order_by_views_desc_In, Hr.
    + unfold sorted. now rewrite order_by_views_desc_length.
Qed.

(** ** [user_statistics] *)

Lemma group_ids_In (i : Z) (ids : list Z) : In i (group_ids ids) -> In i ids.
Proof.
  induction ids as [|h rest IH]; simpl; [tauto|].
  intros [->|Hi]; [now left|]. apply filter_In in Hi. right. apply IH, Hi.
Qed.

Lemma filter_other_ids (i : Z) (ids : list Z) :
  ~ In i ids -> filter (fun j => negb (j =? i)) ids = ids.
Proof.
  induction ids as [|h rest IH]; simpl; [reflexivity|].
  intros Hno. destruct (Z.eqb_spec h i) as [->|Hne]; simpl.
  - exfalso. apply Hno. now left.
  - rewrite IH; [reflexivity|]. intros Hi. apply Hno. now right.
Qed.

Lemma group_ids_repeat (i : Z) (n : nat) (ids : list Z) :
  ~ In i ids ->
  filter (fun j => negb (j =? i)) (group_ids (repeat i n ++ ids)) = group_ids ids.
Proof.
  intros Hno. induction n as [|n IH]; simpl.
  - apply filter_other_ids. intros Hi. apply Hno, group_ids_In, Hi.
  - rewrite Z.eqb_refl. simpl. rewrite IH.
    apply filter_other_ids. intros Hi. apply Hno, group_ids_In, Hi.
Qed.

Lemma left_join_presentations_keys (ps : list presentation) (u : user) :
  exists n, map group_key (left_join_presentations ps u) = repeat (user_id u) (S n).
Proof.
  unfold left_join_presentations.
  destruct (filter (fun p => user_id u =? pres_user_id p) ps) as [|p joined].
  - exists 0%nat. reflexivity.
  - exists (List.length joined). simpl. f_equal.
    induction joined as [|q t IH]; simpl; [reflexivity|now rewrite IH].
Qed.

Lemma from_left_join_keys (ps : list presentation) (us : list user) (i : Z) :
  In i (map group_key (flat_map (left_join_presentations ps) us)) ->
  In i (map user_id us).
Proof.
  induction us as [|u rest IH]; simpl; [tauto|].
  rewrite map_app, in_app_iff.
  destruct (left_join_presentations_keys ps u) as [n ->].
  intros [Hi|Hi]; [left; symmetry; eapply repeat_spec, Hi|right; apply IH, Hi].
Qed.

Lemma group_ids_from_left_join (ps : list presentation) (us : list user) :
  NoDup (map user_id us) ->
  group_ids (map group_key (flat_map (left_join_presentations ps) us)) = map user_id us.
Proof.
  induction us as [|u rest IH]; simpl; [reflexivity|].
  intros Hnd. inversion Hnd as [|x l Hno Hrest]; subst.
  rewrite map_app. destruct (left_join_presentations_keys ps u) as [n ->].
  simpl. rewrite group_ids_repeat.
  - now rewrite IH.
  - intros Hi. apply Hno. eapply from_left_join_keys, Hi.
Qed.

Lemma filter_group_same (ps : list presentation) (u : user) :
  filter (fun r => group_key r =? user_id u) (left_join_presentations ps u)
  = left_join_presentations ps u.
Proof.
  unfold left_join_presentations.
  destruct (filter (fun p => user_id u =? pres_user_id p) ps) as [|p joined].
  - simpl. unfold group_key. simpl. now rewrite Z.eqb_refl.
  - remember (p :: joined) as l eqn:E. clear E.
    induction l as [|q t IH]; simpl; [reflexivity|].
    unfold group_key at 1. simpl. rewrite Z.eqb_refl. now rewrite IH.
Qed.

Lemma filter_group_other (ps : list presentation) (u : user) (i : Z) :
  user_id u <> i ->
  filter (fun r => group_key r =? i) (left_join_presentations ps u) = [].
Proof.
  intros Hne. unfold left_join_presentations.
  destruct (filter (fun p => user_id u =? pres_user_id p) ps) as [|p joined].
  - simpl. unfold group_key. simpl.
    destruct (Z.eqb_spec (user_id u) i); [contradiction|reflexivity].
  - remember (p :: joined) as l eqn:E. clear E.
    induction l as [|q t IH]; simpl; [reflexivity|].
    unfold group_key at 1. simpl.
    destruct (Z.eqb_spec (user_id u) i); [contradiction|exact IH].
Qed.

Lemma filter_group_absent (ps : list presentation) (us : list user) (i : Z) :
  ~ In i (map user_id us) ->
  filter (fun r => group_key r =? i) (flat_map (left_join_presentations ps) us) = [].
Proof.
  induction us as [|u rest IH]; simpl; [reflexivity|].
  intros Hno. rewrite filter_app, filter_group_other, IH; [reflexivity| |].
  - intros Hi. apply Hno. now right.
  - intros E. apply Hno. now left.
Qed.

Lemma group_of_user (ps : list presentation) (us : list user) (u : user) :
  NoDup (map user_id us) -> In u us ->
  filter (fun r => group_key r =? user_id u) (flat_map (left_join_presentations ps) us)
  = left_join_presentations ps u.
Proof.
  induction us as [|a rest IH]; simpl; [tauto|].
  intros Hnd Hin. inversion Hnd as [|x l Hno Hrest]; subst.
  rewrite filter_app. destruct Hin as [->|Hin].
  - rewrite filter_group_same, filter_group_absent; [apply app_nil_r|exact Hno].
  - rewrite filter_group_other, IH; [reflexivity|exact Hrest|exact Hin|].
    intros E. apply Hno. rewrite E. apply in_map, Hin.
Qed.

Lemma group_by_user_id_from_left_join (d : db) :
  NoDup (map user_id (users d)) ->
  group_by_user_id (from_left_join d)
  = map (left_join_presentations (presentations d)) (users d).
Proof.
  intros Hnd. unfold group_by_user_id, from_left_join.
  rewrite group_ids_from_left_join by exact Hnd.
  rewrite map_map. apply map_ext_in. intros u Hu. now apply group_of_user.
Qed.

(** The presentations joined with [u] are the ones [u] owns. *)
Lemma joined_owned (ps : list presentation) (u : user) :
  filter (fun p => user_id u =? pres_user_id p) ps = filter (owned_by (user_id u)) ps.
Proof. apply filter_ext. intros p. unfold owned_by. apply Z.eqb_sym. Qed.

Lemma column_values_left_join (column : presentation -> option Z)
      (ps : list presentation) (u : user) :
  column_values column (left_join_presentations ps u)
  = flat_map (fun p => match column p with Some v => [v] | None => [] end)
             (filter (owned_by (user_id u)) ps).
Proof.
  unfold left_join_presentations. rewrite joined_owned.
  destruct (filter (owned_by (user_id u)) ps) as [|p joined]; [reflexivity|].
  remember (p :: joined) as l eqn:E. clear E. unfold column_values.
  induction l as [|q t IH]; simpl; [reflexivity|now rewrite IH].
Qed.

Lemma select_statistics_left_join (since : user -> option Z)
      (ps : list presentation) (u : user) :
  select_statistics since (left_join_presentations ps u)
  = [mkStatistics (user_id u) (username u) (email u)
       (count_id (left_join_presentations ps u))
       (sum (column_values views (left_join_presentations ps u)))
       (maximum (column_values created_at (left_join_presentations ps u)))
       (since u)].
Proof.
  unfold select_statistics.
  destruct (left_join_presentations ps u) as [|[u' p'] rest] eqn:E.
  - exfalso. unfold left_join_presentations in E.
    destruct (filter (fun p => user_id u =? pres_user_id p) ps); discriminate.
  - assert (u' = u) as ->; [|reflexivity].
    unfold left_join_presentations in E.
    destruct (filter (fun p => user_id u =? pres_user_id p) ps); simpl in E;
      now inversion E.
Qed.

Lemma sum_values (column : presentation -> option Z) (ps : list presentation) :
  fold_right Z.add 0
    (flat_map (fun p => match column p with Some v => [v] | None => [] end) ps)
  = fold_right Z.add 0
      (map (fun p => match column p with Some v => v | None => 0 end) ps).
Proof.
  induction ps as [|p rest IH]; simpl; [reflexivity|].
  destruct (column p); simpl; rewrite IH; reflexivity.
Qed.

Lemma no_values (column : presentation -> option Z) (ps : list presentation) :
  flat_map (fun p => match column p with Some v => [v] | None => [] end) ps = []
  <-> (forall p, In p ps -> column p = None).
Proof.
  induction ps as [|p rest IH]; simpl; [intuition|].
  destruct (column p) as [v|] eqn:E; simpl.
  - split; [discriminate|]. intros H. specialize (H p (or_introl eq_refl)). congruence.
  - rewrite IH. split.
    + intros H q [<-|Hq]; [exact E|apply H, Hq].
    + intros H q Hq. apply H. now right.
Qed.

(** With [id] the primary key of users, the view [user_statistics] has one
    row for every user, with or without presentations.  [total_presentations]
    is the number of presentations the user owns; [total_views] is the sum of
    their views, and NULL (not 0) when the user owns no presentation with a
    views value, as is [last_presentation_date] for the dates. *)
Theorem user_statistics_one_row_per_user (since : user -> option Z) (d : db) :
  NoDup (map user_id (users d)) ->
  map stat_id (user_statistics since d) = map user_id (users d)
  /\ forall row, In row (user_statistics since d) ->
       exists u, In u (users d)
         /\ stat_id row = user_id u
         /\ stat_username row = username u
         /\ stat_email row = email u
         /\ user_since row = since u
         /\ let owned := filter (owned_by (user_id u)) (presentations d) in
            total_presentations row = Z.of_nat (List.length owned)
            /\ (total_views row = None <-> forall p, In p owned -> views p = None)
            /\ (forall total, total_views row = Some total ->
                  total = fold_right Z.add 0
                            (map (fun p => match views p with Some v => v | None => 0 end)
                                 owned))
            /\ (last_presentation_date row = None
                <-> forall p, In p owned -> created_at p = None).
Proof.
  intros Hnd. unfold user_statistics.
  rewrite group_by_user_id_from_left_join by exact Hnd.
  rewrite flat_map_concat_map, map_map.
  rewrite (map_ext _ (fun u => [mkStatistics (user_id u) (username u) (email u)
       (count_id (left_join_presentations (presentations d) u))
       (sum (column_values views (left_join_presentations (presentations d) u)))
       (maximum (column_values created_at (left_join_presentations (presentations d) u)))
       (since u)]))
    by (intros u; apply select_statistics_left_join).
  rewrite <- flat_map_concat_map. split.
  - clear Hnd. induction (users d) as [|u rest IH]; [reflexivity|].
    cbn [flat_map app map stat_id]. now rewrite IH.
  - intros row Hrow. apply in_flat_map in Hrow. destruct Hrow as (u & Hu & [<-|[]]).
    exists u. cbn [stat_id stat_username stat_email user_since total_presentations
                   total_views last_presentation_date].
    repeat (split; [first [exact Hu|reflexivity]|]).
    unfold count_id. rewrite !column_values_left_join.
    set (owned := filter (owned_by (user_id u)) (presentations d)).
    split; [|split; [|split]].
    + f_equal. induction owned as [|p t IH]; simpl; [reflexivity|now rewrite IH].
    + rewrite <- no_values. unfold sum.
      destruct (flat_map _ owned); split; congruence.
    + intros total. unfold sum. rewrite <- sum_values.
      destruct (flat_map _ owned); [discriminate|]. now intros [= <-].
    + rewrite <- no_values. unfold maximum.
      destruct (flat_map _ owned); split; congruence.
Qed.

(** On the sample database: Ann owns one presentation, Bob none. *)
Lemma user_statistics_one_row_per_user_witness :
  NoDup (map user_id (users Samples.sql_a))
  /\ map stat_id (user_statistics (fun _ => None) Samples.sql_a) = [1; 2]
  /\ map total_presentations (user_statistics (fun _ => None) Samples.sql_a) = [1; 0]
  /\ map total_views (user_statistics (fun _ => None) Samples.sql_a) = [Some 0; None].
Proof.
  assert (NoDup (map user_id (users Samples.sql_a))) as Hnd.
  { simpl. constructor; [simpl; intros [H|[]]; discriminate|].
    constructor; [intros []|constructor]. }
  split; [exact Hnd|]. split; [|split; reflexivity].
  exact (proj1 (@user_statistics_one_row_per_user (fun _ => None) Samples.sql_a Hnd)).
Defined.

(** ** The admin row *)

Section Collation.

Variable key : string -> string.

Lemma same_refl (a : string) : same key a a = true.
Proof. unfold same. apply String.eqb_refl. Qed.

Lemma no_duplicate_key (name mail : string) (us : list user) :
  existsb (duplicate_key key name mail) us = false ->
  ~ In (key name) (map (fun u => key (username u)) us)
  /\ ~ In (key mail) (map (fun u => key (email u)) us).
Proof.
  induction us as [|u rest IH]; simpl; [tauto|].
  intros H. apply orb_false_elim in H. destruct H as [Hu Hrest].
  unfold duplicate_key, same in Hu. apply orb_false_elim in Hu. destruct Hu as [H1 H2].
  apply String.eqb_neq in H1, H2. destruct (IH Hrest) as [I1 I2].
  split; intros [E|Hin]; congruence || tauto.
Qed.

(** The INSERT of the admin row ... ON DUPLICATE KEY UPDATE username=username
    changes no row that is there: an account that already has the name
    admin or the admin's email (up to collation) keeps its password and its
    [is_admin] flag, and then no row is added.  After the statement some row
    has that name or email; running it again changes nothing; and the
    usernames and emails stay unique. *)
Theorem insert_admin_changes_no_row (n m : Z) (d : db) :
  let d' := insert_admin key n d in
  firstn (List.length (users d)) (users d') = users d
  /\ presentations d' = presentations d
  /\ (users d' = users d
      <-> exists u, In u (users d)
                    /\ (same key (username u) "admin" = true
                        \/ same key (email u) "admin@gamma-ai.com" = true))
  /\ existsb (duplicate_key key "admin" "admin@gamma-ai.com") (users d') = true
  /\ insert_admin key m d' = d'
  /\ (NoDup (map (fun u => key (username u)) (users d)) ->
      NoDup (map (fun u => key (username u)) (users d')))
  /\ (NoDup (map (fun u => key (email u)) (users d)) ->
      NoDup (map (fun u => key (email u)) (users d'))).
Proof.
  cbv zeta. unfold insert_admin.
  destruct (existsb (duplicate_key key "admin" "admin@gamma-ai.com") (users d)) eqn:E.
  - split; [apply firstn_all|]. split; [reflexivity|]. split.
    { split; [intros _|reflexivity]. apply existsb_exists in E.
      destruct E as (u & Hu & Hdup). exists u. split; [exact Hu|].
      unfold duplicate_key in Hdup. now apply orb_true_iff in Hdup. }
    split; [exact E|]. split; [now rewrite E|]. split; intros H; exact H.
  - cbn [users presentations]. split.
    { rewrite firstn_app, Nat.sub_diag, firstn_all. simpl. apply app_nil_r. }
    split; [reflexivity|]. split.
    { split.
      - intros Heq. exfalso. apply (f_equal (@List.length user)) in Heq.
        rewrite length_app in Heq. simpl in Heq. lia.
      - intros (u & Hu & Hdup). exfalso.
        assert (existsb (duplicate_key key "admin" "admin@gamma-ai.com") (users d) = true)
          as Hex; [|congruence].
        apply existsb_exists. exists u. split; [exact Hu|].
        unfold duplicate_key. now apply orb_true_iff. }
    assert (existsb (duplicate_key key "admin" "admin@gamma-ai.com")
                    (users d ++ [admin_row n]) = true) as Hnow.
    { rewrite existsb_app. simpl. unfold duplicate_key at 2. simpl.
      rewrite same_refl. simpl. apply orb_true_r. }
    split; [exact Hnow|]. split; [now rewrite Hnow|].
    destruct (no_duplicate_key _ _ _ E) as [Hname Hmail].
    split; intros Hnd; rewrite map_app; simpl.
    + apply NoDup_app; [exact Hnd|constructor; [intros []|constructor]|].
      intros x Hx [<-|[]]. contradiction.
    + apply NoDup_app; [exact Hnd|constructor; [intros []|constructor]|].
      intros x Hx [<-|[]]. contradiction.
Qed.

End Collation.


(** The name Admin is taken by a user who is no admin: the statement adds
    no row and the user keeps the password. *)
Lemma insert_admin_changes_no_row_witness :
  users (insert_admin Samples.ascii_ci 2 ClientSamples.sql_admin_taken)
  = users ClientSamples.sql_admin_taken.
Proof.
  apply (proj1 (proj2 (proj2 (@insert_admin_changes_no_row Samples.ascii_ci 2 2
                                 ClientSamples.sql_admin_taken)))).
  eexists. split; [left; reflexivity|]. left. reflexivity.
Defined.

End SchemaSqlViewsFacts.

(* ================================================================== *)
(** * Properties of [formatSlideContent] (js/editor.js) *)
(* ================================================================== *)

Module EditorContentFacts.

Import Editor EditorContent.

Local Open Scope nat_scope.





Lemma substring_all (s : string) : substring 0 (String.length s) s = s.
Proof. induction s as [|c s IH]; simpl; [reflexivity|now rewrite IH]. Qed.

(** A match of the bold pattern starts with a star. *)
Lemma bold_at_star (c : ascii) (r inner : string) :
  bold_at (String c r) = Some inner -> c = "*"%char.
Proof.
  destruct c as [b0 b1 b2 b3 b4 b5 b6 b7].
  destruct b0, b1, b2, b3, b4, b5, b6, b7; simpl; try discriminate; reflexivity.
Qed.

Lemma close_bold_step (c : ascii) (r : string) :
  c <> "*"%char ->
  close_bold (String c r)
  = if is_line_terminator c then None
    else match close_bold r with
         | Some inner => Some (String c inner)
         | None => None
         end.
Proof.
  intros Hc. destruct c as [b0 b1 b2 b3 b4 b5 b6 b7].
  destruct b0, b1, b2, b3, b4, b5, b6, b7; try reflexivity.
  exfalso. apply Hc. reflexivity.
Qed.

Lemma close_bold_plain (inner rest : string) :
  (forall c, In c (chars inner) -> c <> "*"%char /\ is_line_terminator c = false) ->
  close_bold (inner ++ "**" ++ rest) = Some inner.
Proof.
  induction inner as [|c inner IH]; intros Hplain; [reflexivity|].
  destruct (Hplain c (or_introl eq_refl)) as [Hstar Hline].
  change ((String c inner ++ "**" ++ rest)%string)
    with (String c (inner ++ "**" ++ rest)).
  rewrite close_bold_step by exact Hstar. rewrite Hline, IH; [reflexivity|].
  intros x Hx. apply Hplain. now right.
Qed.

Lemma replace_bold_skip (a r : string) (k : nat) :
  replace_bold (String.length a + k) (a ++ r) = replace_bold k r.
Proof. induction a as [|c a IH]; simpl; [reflexivity|exact IH]. Qed.

Lemma replace_bold_plain (s : string) :
  (forall c, In c (chars s) -> c <> "*"%char) -> replace_bold 0 s = s.
Proof.
  induction s as [|c s IH]; intros Hplain; [reflexivity|].
  cbn [replace_bold]. destruct (bold_at (String c s)) as [inner|] eqn:E.
  - apply bold_at_star in E. exfalso. apply (Hplain c); [now left|exact E].
  - rewrite IH; [reflexivity|]. intros x Hx. apply Hplain. now right.
Qed.

Lemma replace_newlines_plain (s : string) :
  (forall c, In c (chars s) -> c <> LF) -> replace_newlines s = s.
Proof.
  induction s as [|c s IH]; intros Hplain; [reflexivity|]. simpl.
  destruct (Ascii.eqb_spec c LF) as [E|_].
  - exfalso. apply (Hplain c); [now left|exact E].
  - rewrite IH; [reflexivity|]. intros x Hx. apply Hplain. now right.
Qed.



(** [formatSlideContent] escapes nothing: a text of at most 500 code units
    with no star and no line feed is returned as it is, so markup in the
    content of a slide reaches the page as markup. *)
Theorem formatSlideContent_does_not_escape (content : string) :
  (forall c, In c (chars content) -> c <> "*"%char /\ c <> LF) ->
  String.length content <= 500 ->
  formatSlideContent content = content.
Proof.
  intros Hplain Hshort. unfold formatSlideContent.
  destruct (String.eqb_spec content "") as [->|_]; [reflexivity|]. cbv zeta.
  rewrite replace_bold_plain by (intros c Hc; apply Hplain, Hc).
  rewrite replace_newlines_plain by (intros c Hc; apply Hplain, Hc).
  destruct (Nat.ltb_spec 500 (String.length content)); [lia|reflexivity].
Qed.

Lemma formatSlideContent_does_not_escape_witness :
  (forall c, In c (chars "<img src=x onerror=alert(1)>") -> c <> "*"%char /\ c <> LF)
  /\ String.length "<img src=x onerror=alert(1)>" <= 500
  /\ formatSlideContent "<img src=x onerror=alert(1)>" = "<img src=x onerror=alert(1)>".
Proof.
  assert (forall c, In c (chars "<img src=x onerror=alert(1)>")
                    -> c <> "*"%char /\ c <> LF) as Hplain.
  { intros c Hc. simpl in Hc.
    repeat (destruct Hc as [<-|Hc]; [split; discriminate|]). destruct Hc. }
  assert (String.length "<img src=x onerror=alert(1)>" <= 500) as Hshort
      by (simpl; lia).
  split; [exact Hplain|]. split; [exact Hshort|].
  exact (@formatSlideContent_does_not_escape _ Hplain Hshort).
Defined.

(** A text between two pairs of stars, with no star and no line terminator
    in it, becomes a [strong] element, and what follows the closing pair is
    replaced on its own. *)
Theorem replace_bold_span (inner rest : string) :
  (forall c, In c (chars inner) -> c <> "*"%char /\ is_line_terminator c = false) ->
  replace_bold 0 ("**" ++ inner ++ "**" ++ rest)
  = ("<strong>" ++ inner ++ "</strong>" ++ replace_bold 0 rest)%string.
Proof.
  intros Hplain.
  change (("**" ++ inner ++ "**" ++ rest)%string)
    with (String "*" (String "*" (inner ++ "**" ++ rest))).
  cbn [replace_bold bold_at]. rewrite close_bold_plain by exact Hplain.
  do 2 f_equal.
  change (3 + String.length inner) with (S (S (S (String.length inner)))).
  cbn [replace_bold].
  replace (S (S (String.length inner))) with (String.length inner + 2) by lia.
  rewrite replace_bold_skip. reflexivity.
Qed.

Lemma replace_bold_span_witness :
  (forall c, In c (chars "Key point") -> c <> "*"%char /\ is_line_terminator c = false)
  /\ replace_bold 0 "**Key point**: costs" = "<strong>Key point</strong>: costs".
Proof.
  assert (forall c, In c (chars "Key point")
                    -> c <> "*"%char /\ is_line_terminator c = false) as Hplain.
  { intros c Hc. simpl in Hc.
    repeat (destruct Hc as [<-|Hc]; [split; [discriminate|reflexivity]|]). destruct Hc. }
  split; [exact Hplain|].
  exact (@replace_bold_span "Key point" ": costs" Hplain).
Defined.

End EditorContentFacts.

(* ================================================================== *)
(** * More properties of [generatePresentation] and [renderSlides] *)
(* ================================================================== *)

Module EditorRunFacts.

Import Editor EditorContent EditorRun.

Lemma or_else_not_empty (v : option string) (d : string) :
  d <> "" -> or_else v d <> "".
Proof.
  intros Hd. unfold or_else. destruct v as [s|]; [|exact Hd].
  destruct (String.eqb_spec s ""); assumption.
Qed.

Lemma slides_count_of_not_zero (slidesCount : string) :
  slides_count_of slidesCount <> Int 0.
Proof.
  unfold slides_count_of.
  destruct (parseInt slidesCount) as [[[|p|p]|negative]|]; discriminate.
Qed.

Lemma renderSlides_no_toast (pg : page) (c : option content_json) :
  filter is_toast (renderSlides pg c) = [].
Proof.
  unfold renderSlides. destruct c as [c|]; [|reflexivity].
  destruct (slidesPreview pg); simpl; [|reflexivity].
  destruct (contentTitle pg); reflexivity.
Qed.

Lemma after_fetch_no_fetch (pg : page) (answer : http) :
  filter is_fetch (after_fetch pg answer) = [].
Proof.
  unfold after_fetch, handle_answer.
  destruct answer as [m | status m | ok status data]; simpl.
  - now destruct (slidesPreview pg).
  - now destruct (slidesPreview pg).
  - destruct ok; simpl; [|now destruct (slidesPreview pg)].
    destruct (dj_success data); simpl; [|now destruct (slidesPreview pg)].
    rewrite filter_app, EditorFacts.renderSlides_no_fetch. simpl.
    now destruct (exportButtons pg).
Qed.

Lemma after_fetch_one_toast (pg : page) (answer : http) :
  List.length (filter is_toast (after_fetch pg answer)) = 1%nat.
Proof.
  unfold after_fetch, handle_answer.
  destruct answer as [m | status m | ok status data]; simpl.
  - now destruct (slidesPreview pg).
  - now destruct (slidesPreview pg).
  - destruct ok; simpl; [|now destruct (slidesPreview pg)].
    destruct (dj_success data); simpl; [|now destruct (slidesPreview pg)].
    rewrite filter_app, renderSlides_no_toast. simpl.
    now destruct (exportButtons pg).
Qed.

Lemma after_fetch_generated (pg : page) (answer : http) :
  In (ShowToast Generated) (after_fetch pg answer)
  <-> exists status data, answer = Response true status data /\ dj_success data = true.
Proof.
  unfold after_fetch, handle_answer.
  assert (forall m, ~ In (ShowToast Generated)
                      ([ShowToast (Failed m)]
                       ++ (if slidesPreview pg then [ShowFailure m] else []))) as Hfail.
  { intros m H. destruct (slidesPreview pg); simpl in H;
      repeat (destruct H as [H|H]; [discriminate H|]); exact H. }
  destruct answer as [m | status m | ok status data].
  - split; [intros H; destruct (Hfail _ H)|intros (s & dt & E & _); discriminate].
  - split; [intros H; destruct (Hfail _ H)|intros (s & dt & E & _); discriminate].
  - destruct ok; cbn [negb].
    + destruct (dj_success data) eqn:Hs.
      * split; [intros _; now exists status, data|intros _].
        simpl. right. apply in_or_app. right. now left.
      * split; [intros H; destruct (Hfail _ H)|].
        intros (s & dt & E & Hs'). inversion E; subst. congruence.
    + split; [intros H; destruct (Hfail _ H)|intros (s & dt & E & _); discriminate].
Qed.

(** The request that [generatePresentation] builds from the page. *)
Lemma generatePresentation_ready (server : request_data -> string -> http) (pg : page)
      (text tk : string) :
  promptInput pg = Some text -> trim text <> "" -> token pg = Some tk -> tk <> "" ->
  exists rq,
    rq_prompt rq = trim text
    /\ rq_slides_count rq <> Int 0
    /\ rq_style rq <> "" /\ rq_language rq <> ""
    /\ rq_theme rq <> "" /\ rq_image_style rq <> ""
    /\ generatePresentation server pg
       = [DisableButton] ++ (if slidesPreview pg then [ShowLoading] else [])
         ++ [Fetch rq tk] ++ after_fetch pg (server rq tk) ++ [EnableButton].
Proof.
  intros Hprompt Htext Htoken Htk.
  exists (mkRequestData (trim text) (slides_count_of (slidesCount pg))
                        (or_else (Some (styleSelect pg)) "business")
                        (or_else (Some (languageSelect pg)) "en-uk")
                        (or_else (Some (selectedTheme pg)) "alien")
                        (or_else (Some (selectedImageStyle pg)) "illustration")).
  cbn [rq_prompt rq_slides_count rq_style rq_language rq_theme rq_image_style].
  split; [reflexivity|]. split; [apply slides_count_of_not_zero|].
  do 4 (split; [apply or_else_not_empty; discriminate|]).
  unfold generatePresentation, after_fetch. rewrite Hprompt, Htoken.
  destruct (String.eqb_spec (trim text) ""); [contradiction|].
  destruct (String.eqb_spec tk ""); [contradiction|]. reflexivity.
Qed.

(** Either a guard stops the run with one toast and no request, or both
    guards are passed. *)
Lemma generatePresentation_cases (server : request_data -> string -> http) (pg : page) :
  (filter is_fetch (generatePresentation server pg) = []
   /\ List.length (filter is_toast (generatePresentation server pg)) = 1%nat
   /\ ~ In DisableButton (generatePresentation server pg)
   /\ ~ In (ShowToast Generated) (generatePresentation server pg)
   /\ (forall text tk, promptInput pg = Some text -> token pg = Some tk ->
                       trim text = "" \/ tk = ""))
  \/ (exists text tk,
        promptInput pg = Some text /\ trim text <> ""
        /\ token pg = Some tk /\ tk <> "").
Proof.
  destruct (promptInput pg) as [text|] eqn:Hprompt.
  2:{ left. unfold generatePresentation. rewrite Hprompt. simpl.
      split; [reflexivity|]. split; [reflexivity|].
      split; [intros [H|[]]; discriminate|].
      split; [intros [H|[]]; discriminate|]. discriminate. }
  destruct (String.eqb_spec (trim text) "") as [Hblank|Htext].
  { left. unfold generatePresentation. rewrite Hprompt, Hblank. simpl.
    split; [reflexivity|]. split; [reflexivity|].
    split; [intros [H|[H|[]]]; discriminate|].
    split; [intros [H|[H|[]]]; discriminate|].
    intros t tk [= <-] _. now left. }
  destruct (token pg) as [tk|] eqn:Htoken.
  2:{ left. unfold generatePresentation. rewrite Hprompt, Htoken.
      destruct (String.eqb_spec (trim text) ""); [contradiction|]. simpl.
      split; [reflexivity|]. split; [reflexivity|].
      split; [intros [H|[H|[]]]; discriminate|].
      split; [intros [H|[H|[]]]; discriminate|]. discriminate. }
  destruct (String.eqb_spec tk "") as [Hempty|Htk].
  { left. unfold generatePresentation. rewrite Hprompt, Htoken, Hempty.
    destruct (String.eqb_spec (trim text) ""); [contradiction|]. simpl.
    split; [reflexivity|]. split; [reflexivity|].
    split; [intros [H|[H|[]]]; discriminate|].
    split; [intros [H|[H|[]]]; discriminate|].
    intros t tk' _ [= <-]. now right. }
  right. now exists text, tk.
Qed.

Lemma fetch_in_filter (rq : request_data) (bearer : string) (events : list ui_event) :
  In (Fetch rq bearer) events -> In (Fetch rq bearer) (filter is_fetch events).
Proof. intros H. apply filter_In. split; [exact H|reflexivity]. Qed.

Lemma ready_fetches (pg : page) (rq : request_data) (tk : string) (answer : http) :
  filter is_fetch
    ([DisableButton] ++ (if slidesPreview pg then [ShowLoading] else [])
     ++ [Fetch rq tk] ++ after_fetch pg answer ++ [EnableButton])
  = [Fetch rq tk].
Proof.
  rewrite !filter_app, after_fetch_no_fetch. now destruct (slidesPreview pg).
Qed.

(** [generatePresentation] sends a request exactly when the prompt is not
    blank and a token is stored, and then only one.  The request carries
    the stored token and the trimmed prompt (trimmed of the white space
    of the language, the no-break space included), and none of its fields
    is empty: the slide count is a Number that is never 0 (nor NaN) and
    the four choices fall back to their defaults. *)
Theorem generatePresentation_request (server : request_data -> string -> http)
        (pg : page) :
  let events := generatePresentation server pg in
  (filter is_fetch events <> []
   <-> exists text tk, promptInput pg = Some text /\ trim text <> ""
                       /\ token pg = Some tk /\ tk <> "")
  /\ forall rq bearer, In (Fetch rq bearer) events ->
       filter is_fetch events = [Fetch rq bearer]
       /\ token pg = Some bearer /\ bearer <> ""
       /\ (exists text, promptInput pg = Some text /\ rq_prompt rq = trim text)
       /\ rq_prompt rq <> "" /\ rq_slides_count rq <> Int 0
       /\ rq_style rq <> "" /\ rq_language rq <> ""
       /\ rq_theme rq <> "" /\ rq_image_style rq <> "".
Proof.
  cbv zeta.
  destruct (generatePresentation_cases server pg)
    as [(Hnone & _ & _ & _ & Hguard) | (text & tk & Hprompt & Htext & Htoken & Htk)].
  - split.
    + split; [intros H; now destruct H|].
      intros (text & tk & Hprompt & Htext & Htoken & Htk).
      destruct (Hguard text tk Hprompt Htoken); contradiction.
    + intros rq bearer Hin. apply fetch_in_filter in Hin. rewrite Hnone in Hin.
      destruct Hin.
  - destruct (generatePresentation_ready server pg Hprompt Htext Htoken Htk)
      as (rq0 & Hp & Hcount & Hstyle & Hlang & Htheme & Himage & ->).
    rewrite ready_fetches. split.
    + split; [intros _; now exists text, tk|discriminate].
    + intros rq bearer Hin. apply fetch_in_filter in Hin. rewrite ready_fetches in Hin.
      destruct Hin as [[= <- <-]|[]].
      split; [reflexivity|]. split; [exact Htoken|]. split; [exact Htk|].
      split; [now exists text|]. split; [now rewrite Hp|]. tauto.
Qed.

(** Every run of [generatePresentation] shows exactly one toast.  It is the
    toast of success exactly when a request was sent and answered with an
    ok status and [success] true; and a run that disables the button ends
    by enabling it again. *)
Theorem generatePresentation_one_toast (server : request_data -> string -> http)
        (pg : page) :
  let events := generatePresentation server pg in
  List.length (filter is_toast events) = 1%nat
  /\ (In (ShowToast Generated) events
      <-> exists rq bearer status data,
            In (Fetch rq bearer) events
            /\ server rq bearer = Response true status data
            /\ dj_success data = true)
  /\ (In DisableButton events -> last events DisableButton = EnableButton).
Proof.
  cbv zeta.
  destruct (generatePresentation_cases server pg)
    as [(Hnone & Hone & Hbutton & Hsuccess & _)
       | (text & tk & Hprompt & Htext & Htoken & Htk)].
  - split; [exact Hone|]. split; [|intros H; contradiction].
    split; [intros H; contradiction|].
    intros (rq & bearer & _ & _ & Hin & _). apply fetch_in_filter in Hin.
    rewrite Hnone in Hin. destruct Hin.
  - destruct (generatePresentation_ready server pg Hprompt Htext Htoken Htk)
      as (rq0 & _ & _ & _ & _ & _ & _ & ->).
    split; [|split].
    + rewrite !filter_app, !length_app, after_fetch_one_toast.
      now destruct (slidesPreview pg).
    + split.
      * intros Hin. exists rq0, tk.
        assert (In (ShowToast Generated) (after_fetch pg (server rq0 tk))) as Hafter.
        { simpl in Hin. destruct Hin as [H|Hin]; [discriminate H|].
          apply in_app_or in Hin. destruct Hin as [Hin|Hin].
          - destruct (slidesPreview pg); simpl in Hin;
              repeat (destruct Hin as [H|Hin]; [discriminate H|]); destruct Hin.
          - simpl in Hin. destruct Hin as [H|Hin]; [discriminate H|].
            apply in_app_or in Hin. destruct Hin as [Hin|[H|[]]];
              [exact Hin|discriminate H]. }
        apply after_fetch_generated in Hafter. destruct Hafter as (status & data & E & Hs).
        exists status, data. split; [|split; assumption].
        apply in_or_app. right. apply in_or_app. right. apply in_or_app. left.
        now left.
      * intros (rq & bearer & status & data & Hin & Hanswer & Hs).
        apply fetch_in_filter in Hin. rewrite ready_fetches in Hin.
        destruct Hin as [[= <- <-]|[]].
        apply in_or_app. right. apply in_or_app. right. apply in_or_app. right.
        apply in_or_app. left.
        apply after_fetch_generated. now exists status, data.
    + intros _. rewrite !app_assoc. apply last_last.
Qed.

Lemma cards_from_nth (slides : list slide_json) (index : Z) (k : nat) :
  nth_error (cards_from index slides) k
  = option_map (card_of (index + Z.of_nat k)) (nth_error slides k).
Proof.
  revert index k. induction slides as [|s rest IH]; intros index [|k];
    try reflexivity.
  - cbn [cards_from nth_error option_map]. unfold card_of.
    now rewrite Z.add_0_r.
  - cbn [cards_from nth_error]. rewrite IH. do 2 f_equal. lia.
Qed.

(** [renderSlides] shows a card for every slide of the answer, in the order
    of the answer: the card at position [k] (from 0) is numbered [k + 1]
    and carries the content of the slide at [k]; a slide with no title is
    titled by its number. *)
Theorem renderSlides_card_of_each_slide (pg : page) (c : content_json)
        (slides : list slide_json) :
  slidesPreview pg = true ->
  ct_slides c = Some slides ->
  exists p,
    In (ShowPreview p) (renderSlides pg (Some c))
    /\ List.length (pv_cards p) = List.length slides
    /\ forall k s, nth_error slides k = Some s ->
         exists cd, nth_error (pv_cards p) k = Some cd
           /\ card_number cd = Z.of_nat k + 1
           /\ card_content cd = or_else (sj_content s) ""
           /\ card_title cd
              = or_else (sj_title s) ("Slide " ++ string_of_Z (Z.of_nat k + 1))%string.
Proof.
  intros Hpv Hslides. unfold renderSlides. rewrite Hpv, Hslides. cbn [negb].
  eexists. split; [apply in_or_app; right; left; reflexivity|].
  cbn [pv_cards]. split; [apply EditorFacts.cards_from_length|].
  intros k s Hk. rewrite cards_from_nth, Hk. cbn [option_map].
  eexists. split; [reflexivity|]. unfold card_of. cbn [card_number card_content card_title].
  repeat split.
Qed.

(** An answer of two slides, the second without a title. *)
Lemma renderSlides_card_of_each_slide_witness :
  let slides := [mkSlideJson (Some "Intro") (Some "Hello") None;
                 mkSlideJson None (Some "World") None] in
  let c := mkContentJson (Some "Deck") (Some 2) None None (Some slides) in
  slidesPreview Samples.a_page = true
  /\ ct_slides c = Some slides
  /\ exists p, In (ShowPreview p) (renderSlides Samples.a_page (Some c))
               /\ List.length (pv_cards p) = 2%nat.
Proof.
  intros slides c. split; [reflexivity|]. split; [reflexivity|].
  destruct (@renderSlides_card_of_each_slide Samples.a_page c slides eq_refl eq_refl)
    as (p & Hin & Hlen & _).
  exists p. split; [exact Hin|exact Hlen].
Defined.

End EditorRunFacts.

(* ================================================================== *)
(** * Properties of the stored token, [apiRequest] and the export functions
      (js/api.js, js/editor.js) *)
(* ================================================================== *)

Module ApiFacts.

Import Js Editor EditorExport Api.

Lemma getItem_removeItem_same (k : string) (st : storage) :
  getItem k (removeItem k st) = None.
Proof.
  unfold removeItem. induction st as [|[k' v] rest IH]; simpl; [reflexivity|].
  destruct (String.eqb_spec k' k) as [E|Hne]; simpl; [exact IH|].
  destruct (String.eqb_spec k' k); [contradiction|exact IH].
Qed.

Lemma getItem_removeItem_other (k k' : string) (st : storage) :
  k <> k' -> getItem k (removeItem k' st) = getItem k st.
Proof.
  intros Hne. unfold removeItem. induction st as [|[k0 v] rest IH]; simpl; [reflexivity|].
  destruct (String.eqb_spec k0 k') as [E|Hne']; simpl.
  - destruct (String.eqb_spec k0 k); [congruence|exact IH].
  - now rewrite IH.
Qed.

Lemma getItem_setItem_same (k v : string) (st : storage) :
  getItem k (setItem k v st) = Some v.
Proof. unfold setItem. simpl. now rewrite String.eqb_refl. Qed.

Lemma getItem_setItem_other (k k' v : string) (st : storage) :
  k <> k' -> getItem k (setItem k' v st) = getItem k st.
Proof.
  intros Hne. unfold setItem. simpl.
  destruct (String.eqb_spec k' k); [congruence|].
  now apply getItem_removeItem_other.
Qed.

Lemma string_of_Z_not_empty (n : Z) : string_of_Z n <> "".
Proof.
  unfold string_of_Z, NilZero.string_of_int.
  destruct (Z.to_int n) as [d|d]; [|discriminate].
  destruct d; discriminate.
Qed.

Lemma to_string_empty (v : js_value) : to_string v = "" <-> v = JsString "".
Proof.
  destruct v as [| |n|s]; simpl; split; try discriminate; try congruence.
  intros H. destruct (@string_of_Z_not_empty n H).
Qed.

Lemma truthy_of_item (v : option string) :
  truthy (of_item v) = true <-> exists s, v = Some s /\ s <> "".
Proof.
  destruct v as [s|]; simpl.
  - destruct (String.eqb_spec s "") as [->|Hne]; simpl.
    + split; [discriminate|]. intros (s' & [= <-] & Hne). contradiction.
    + split; [intros _; now exists s|intros _; reflexivity].
  - split; [discriminate|]. intros (s & H & _). discriminate.
Qed.

(** What [setToken] stores is what [getToken] reads: the value as a string.
    So after [setToken(t)] the user counts as authenticated for every [t]
    but the empty string, also for [null] and [undefined]; no other key
    changes; and [clearAuth] ends it. *)
Theorem setToken_then_isAuthenticated (t : js_value) (st : storage) :
  getToken (setToken t st) = Some (to_string t)
  /\ (isAuthenticated (setToken t st) = true <-> t <> JsString "")
  /\ (forall k, k <> "token" -> getItem k (setToken t st) = getItem k st)
  /\ isAuthenticated (clearAuth (setToken t st)) = false.
Proof.
  unfold getToken, isAuthenticated, setToken, clearAuth, getToken.
  rewrite getItem_setItem_same. split; [reflexivity|]. split; [|split].
  - rewrite truthy_of_item. split.
    + intros (s & [= <-] & Hne) E. apply Hne. now apply to_string_empty.
    + intros Hne. exists (to_string t). split; [reflexivity|].
      intros E. apply Hne. now apply to_string_empty.
  - intros k Hk. now apply getItem_setItem_other.
  - rewrite getItem_removeItem_other by discriminate.
    now rewrite getItem_removeItem_same.
Qed.

Lemma getItem_app (k : string) (a b : headers) :
  getItem k (a ++ b)
  = match getItem k a with Some v => Some v | None => getItem k b end.
Proof.
  induction a as [|[k' v] rest IH]; simpl; [reflexivity|].
  destruct (String.eqb k' k); [reflexivity|exact IH].
Qed.

(** In [{...a, ...b}] a key has the value of [b] where [b] has it. *)
Lemma getItem_spread (k : string) (a b : headers) :
  getItem k (spread a b)
  = match getItem k b with Some v => Some v | None => getItem k a end.
Proof.
  unfold spread. rewrite getItem_app.
  assert (getItem k (map (fun kv => (fst kv, match getItem (fst kv) b with
                                             | Some v => v
                                             | None => snd kv
                                             end)) a)
          = match getItem k a with
            | Some va => Some (match getItem k b with Some v => v | None => va end)
            | None => None
            end) as ->.
  { induction a as [|[k' v] rest IH]; simpl; [reflexivity|].
    destruct (String.eqb_spec k' k) as [->|Hne]; [reflexivity|exact IH]. }
  destruct (getItem k a) as [va|] eqn:Ha.
  - destruct (getItem k b); reflexivity.
  - induction b as [|[k' v] rest IH]; simpl; [reflexivity|].
    destruct (String.eqb_spec k' k) as [->|Hne]; simpl.
    + rewrite Ha. simpl. now rewrite String.eqb_refl.
    + destruct (getItem k' a); simpl; [exact IH|].
      destruct (String.eqb_spec k' k); [contradiction|exact IH].
Qed.

(** The headers that [apiRequest] sends: a header that the caller gives
    replaces the default of the same name.  Without one from the caller,
    [Authorization] is the stored token as a bearer token, and is left out
    when no token (or an empty one) is stored; [Content-Type] is
    application/json.  Every other header is the caller's. *)
Theorem apiRequest_headers (server : fetch_call -> http) (origin : string)
        (st : storage) (endpoint : string) (opts : options) :
  let call := fst (apiRequest server origin st endpoint opts) in
  let given := match opt_headers opts with Some h => h | None => [] end in
  getItem "Authorization" (fc_headers call)
  = match getItem "Authorization" given with
    | Some v => Some v
    | None =>
        match getToken st with
        | Some t => if String.eqb t "" then None else Some ("Bearer " ++ t)%string
        | None => None
        end
    end
  /\ getItem "Content-Type" (fc_headers call)
     = match getItem "Content-Type" given with
       | Some v => Some v
       | None => Some "application/json"
       end
  /\ (forall k, k <> "Authorization" -> k <> "Content-Type" ->
                getItem k (fc_headers call) = getItem k given)
  /\ fc_url call = ((origin ++ "/api") ++ endpoint)%string
  /\ fc_method call = opt_method opts
  /\ fc_body call = opt_body opts.
Proof.
  cbv zeta. unfold apiRequest. cbn [fst fc_headers fc_url fc_method fc_body].
  set (given := match opt_headers opts with Some h => h | None => [] end).
  rewrite !getItem_spread. split; [|split; [|split]].
  - destruct (getItem "Authorization" given); [reflexivity|].
    unfold default_headers, isAuthenticated.
    destruct (getToken st) as [t|]; simpl; [|reflexivity].
    destruct (String.eqb t ""); reflexivity.
  - destruct (getItem "Content-Type" given); reflexivity.
  - intros k Hauth Htype. rewrite getItem_spread.
    destruct (getItem k given); [reflexivity|].
    unfold default_headers. cbn [getItem].
    destruct (String.eqb_spec "Content-Type" k); [congruence|].
    destruct (isAuthenticated st); [|reflexivity]. cbn [getItem].
    destruct (String.eqb_spec "Authorization" k); [congruence|reflexivity].
  - repeat split.
Qed.

(** [apiRequest] reports success exactly when the answer arrived, was
    parsed and had an ok status; it does not read the [success] field of
    the answer.  For an ok answer with [success] false it reports success,
    where the handler of [generatePresentation] reports a failure. *)
Theorem apiRequest_success_iff_ok (server : fetch_call -> http) (origin : string)
        (st : storage) (endpoint : string) (opts : options) :
  let call := fst (apiRequest server origin st endpoint opts) in
  let result := snd (apiRequest server origin st endpoint opts) in
  (forall data, result = ApiSuccess data
                <-> exists status, server call = Response true status data)
  /\ (forall status data pg,
        server call = Response true status data -> dj_success data = false ->
        result = ApiSuccess data
        /\ handle_answer pg (server call)
           = inr (or_else (dj_message data) "Generation failed")).
Proof.
  cbv zeta. unfold apiRequest. cbn [fst snd].
  set (call := mkFetchCall _ _ _ _). split.
  - intros data. destruct (server call) as [m | status m | ok status dt].
    + split; [discriminate|intros (s & E); discriminate].
    + split; [discriminate|intros (s & E); discriminate].
    + destruct ok; cbn [negb].
      * split; [intros [= ->]; now exists status|intros (s & [= _ ->]); reflexivity].
      * split; [discriminate|intros (s & E); discriminate].
  - intros status data pg -> Hs. split; [reflexivity|].
    unfold handle_answer. cbn [negb]. now rewrite Hs.
Qed.

Lemma append_cancel (a b c : string) : (a ++ b = a ++ c)%string -> b = c.
Proof.
  induction a as [|x a IH]; simpl; [tauto|]. intros [= H]. exact (IH H).
Qed.

(** The address from which the editor fetches an export is never the one
    that [PresentationsAPI.getExportUrl] gives for the same presentation,
    whatever the format asked for. *)
Theorem export_url_is_not_getExportUrl (f : export_format) (origin : string)
        (id format : js_value) :
  String.eqb (export_url f origin id) (getExportUrl origin id format) = false.
Proof.
  apply String.eqb_neq. unfold export_url, getExportUrl. intros E.
  apply append_cancel in E. apply append_cancel in E. apply append_cancel in E.
  destruct f; discriminate E.
Qed.

(** An export function asks for an id and for nothing else: with an id it
    sends one request, also when no token is stored (the header is then the
    bearer token null), where [generatePresentation] sends none; without
    an id it sends nothing. *)
Theorem export_as_checks_no_token (f : export_format)
        (server : string -> string -> export_answer) (origin : string) (st : storage)
        (currentPresentation : option current_presentation) :
  let events := export_as f server origin st currentPresentation in
  (forall current, currentPresentation = Some current -> truthy (cp_id current) = true ->
     filter is_export_fetch events
     = [ExportFetch (export_url f origin (cp_id current))
                    ("Bearer " ++ to_string (of_item (getItem "token" st)))%string]
     /\ (getItem "token" st = None ->
         In (ExportFetch (export_url f origin (cp_id current)) "Bearer null") events
         /\ forall generate pg, token pg = getItem "token" st ->
              filter is_fetch (generatePresentation generate pg) = []))
  /\ ((forall current, currentPresentation = Some current -> truthy (cp_id current) = false)
      -> events = [ExportToast NoPresentation]).
Proof.
  cbv zeta. split.
  - intros current -> Hid. unfold export_as. rewrite Hid. cbn [negb].
    set (url := export_url f origin (cp_id current)).
    set (authorization := ("Bearer " ++ to_string (of_item (getItem "token" st)))%string).
    split.
    + cbn [app filter is_export_fetch]. f_equal.
      destruct (server url authorization) as [m|ok [b|m]]; [reflexivity| |];
        destruct ok; reflexivity.
    + intros Hnone. split.
      * unfold authorization. rewrite Hnone. right. left. reflexivity.
      * intros generate pg Htoken. unfold generatePresentation.
        rewrite Htoken, Hnone.
        destruct (promptInput pg) as [text|]; [|reflexivity].
        destruct (String.eqb (trim text) ""); reflexivity.
  - intros Hno. unfold export_as. destruct currentPresentation as [current|]; [|reflexivity].
    now rewrite (Hno current eq_refl).
Qed.

(** An export function downloads a file exactly when its request is
    answered with an ok status and a blob; the file is then named by the
    title of the presentation and the format. *)
Theorem export_as_downloads_iff_ok (f : export_format)
        (server : string -> string -> export_answer) (origin : string) (st : storage)
        (currentPresentation : option current_presentation) (blob filename : string) :
  In (DownloadBlob blob filename) (export_as f server origin st currentPresentation)
  <-> exists current url authorization,
        currentPresentation = Some current
        /\ truthy (cp_id current) = true
        /\ In (ExportFetch url authorization)
              (export_as f server origin st currentPresentation)
        /\ server url authorization = ExportResponse true (inl blob)
        /\ filename = (to_string (cp_title current) ++ "." ++ extension f)%string.
Proof.
  unfold export_as. destruct currentPresentation as [current|].
  2:{ split; [intros [H|[]]; discriminate|]. intros (c & _ & _ & H & _). discriminate. }
  destruct (truthy (cp_id current)) eqn:Hid; cbn [negb].
  2:{ split; [intros [H|[]]; discriminate|].
      intros (c & _ & _ & [= <-] & Hc & _). congruence. }
  set (url := export_url f origin (cp_id current)).
  set (authorization := ("Bearer " ++ to_string (of_item (getItem "token" st)))%string).
  split.
  - intros Hin. exists current, url, authorization.
    split; [reflexivity|]. split; [exact Hid|]. split; [right; left; reflexivity|].
    destruct Hin as [H|[H|Hin]]; [discriminate H|discriminate H|].
    destruct (server url authorization) as [m|ok [b|m]]; [| |];
      try destruct ok; cbn [negb] in Hin;
      repeat (destruct Hin as [H|Hin]; [try discriminate H|]); try destruct Hin.
    injection H as Hb Hname. split; [now rewrite Hb|now rewrite <- Hname].
  - intros (c & u & a & [= <-] & _ & Hfetch & Hanswer & ->).
    destruct Hfetch as [H|[H|Hfetch]]; [discriminate H| |].
    + injection H as <- <-. rewrite Hanswer. cbn [negb]. right. right. left. reflexivity.
    + exfalso.
      destruct (server url authorization) as [m|ok [b|m]]; [| |];
        try destruct ok; cbn [negb] in Hfetch;
        repeat (destruct Hfetch as [H|Hfetch]; [discriminate H|]); destruct Hfetch.
Qed.


(** An answer with an ok status and [success] false. *)
Lemma apiRequest_success_iff_ok_witness :
  snd (apiRequest ClientSamples.answers_refusal "http://localhost:5000" []
                  "/presentations/generate" no_options)
  = ApiSuccess ClientSamples.refusal
  /\ handle_answer Samples.a_page
       (ClientSamples.answers_refusal
          (fst (apiRequest ClientSamples.answers_refusal "http://localhost:5000" []
                           "/presentations/generate" no_options)))
     = inr "Quota exceeded".
Proof.
  exact (proj2 (@apiRequest_success_iff_ok ClientSamples.answers_refusal
                  "http://localhost:5000" [] "/presentations/generate" no_options)
               200 ClientSamples.refusal Samples.a_page eq_refl eq_refl).
Defined.

(** An export with an empty storage. *)
Lemma export_as_checks_no_token_witness :
  In (ExportFetch "http://localhost:5000/api/presentations/7/pdf" "Bearer null")
     (exportPDF ClientSamples.answers_file "http://localhost:5000" []
                (Some ClientSamples.deck_seven)).
Proof.
  exact (proj1 (proj2 (proj1 (@export_as_checks_no_token Pdf ClientSamples.answers_file
                                "http://localhost:5000" [] (Some ClientSamples.deck_seven))
                             ClientSamples.deck_seven eq_refl eq_refl)
                      eq_refl)).
Defined.

(** The file of the presentation with the id 7. *)
Lemma export_as_downloads_iff_ok_witness :
  In (DownloadBlob "%PDF-1.7" "Climate.pdf")
     (exportPDF ClientSamples.answers_file "http://localhost:5000" []
                (Some ClientSamples.deck_seven)).
Proof.
  apply (proj2 (@export_as_downloads_iff_ok Pdf ClientSamples.answers_file
                  "http://localhost:5000" [] (Some ClientSamples.deck_seven)
                  "%PDF-1.7" "Climate.pdf")).
  exists ClientSamples.deck_seven, "http://localhost:5000/api/presentations/7/pdf",
         "Bearer null".
  split; [reflexivity|]. split; [reflexivity|]. split; [right; left; reflexivity|].
  split; reflexivity.
Defined.

End ApiFacts.

(* ================================================================== *)
(** * Properties of [checkAuth] and of the handlers of js/auth.js *)
(* ================================================================== *)

Module AuthFacts.

Import Js Editor Auth.

Lemma stored_token (token user : string) (st : storage) :
  getItem "token" (setItem "user" user (setItem "token" token st)) = Some token.
Proof.
  rewrite ApiFacts.getItem_setItem_other by discriminate.
  apply ApiFacts.getItem_setItem_same.
Qed.

Lemma is_login_page_dashboard : is_login_page "/dashboard" = false.
Proof. reflexivity. Qed.

(** Where [checkAuth] redirects, the page it redirects to passes the
    check with the same storage: it never sends the browser around in a
    circle.  It redirects only to the login page or to the dashboard, and
    only when a token is stored on the login page or none on another
    page. *)
Theorem checkAuth_redirect_settles (st : storage) (currentPath target : string) :
  checkAuth st currentPath = (false, Some target) ->
  checkAuth st target = (true, None)
  /\ (target = "/" \/ target = "/dashboard")
  /\ truthy (of_item (getItem "token" st)) = is_login_page currentPath.
Proof.
  unfold checkAuth.
  destruct (truthy (of_item (getItem "token" st))) eqn:Htoken;
    destruct (is_login_page currentPath) eqn:Hpage; cbn [negb andb];
    try discriminate; intros [= <-].
  - rewrite is_login_page_dashboard. cbn [negb andb]. auto.
  - change (is_login_page "/") with true. cbn [negb andb]. auto.
Qed.

(** With no token stored, the editor page redirects to the login page,
    which then loads. *)
Lemma checkAuth_redirect_settles_witness :
  checkAuth [] "/editor" = (false, Some "/")
  /\ checkAuth [] "/" = (true, None).
Proof.
  split; [reflexivity|].
  exact (proj1 (@checkAuth_redirect_settles [] "/editor" "/" eq_refl)).
Defined.

(** The login handler does not look at the answer of the call: whenever
    the call returns, the handler stores the token of the answer as a
    string, [undefined] included, announces success and redirects to the
    dashboard, where [checkAuth] then lets the page load (unless the token
    is the empty string); the button stays disabled.  Only when the call
    throws does the handler keep the storage as it is, show the message and
    enable the button again. *)
Theorem login_submit_trusts_the_answer (login : string -> string -> api_answer)
        (email password : string) (st : storage) :
  let st' := fst (login_submit login email password st) in
  let events := snd (login_submit login email password st) in
  filter is_call events = [CallLogin email password]
  /\ (forall token user, login email password = Resolves token user ->
        getItem "token" st' = Some (to_string token)
        /\ In (AuthToast LoginSuccessful) events
        /\ In (RedirectLater "/dashboard" 1000) events
        /\ ~ In EnableButton events
        /\ (token <> JsString "" -> checkAuth st' "/dashboard" = (true, None)))
  /\ (forall message, login email password = Throws message ->
        st' = st
        /\ events = [PreventDefault; DisableButton; CallLogin email password;
                     AuthToast (AuthFailed message); EnableButton]).
Proof.
  cbv zeta. unfold login_submit, store_answer.
  destruct (login email password) as [message|token user]; cbn [fst snd app filter is_call].
  - split; [reflexivity|]. split; [discriminate|].
    intros m [= <-]. split; reflexivity.
  - split; [reflexivity|]. split; [|discriminate].
    intros t u [= <- <-]. rewrite stored_token. split; [reflexivity|].
    split; [simpl; tauto|]. split; [simpl; tauto|]. split.
    + intros Hin. simpl in Hin.
      repeat (destruct Hin as [H|Hin]; [discriminate H|]). exact Hin.
    + intros Hne. unfold checkAuth. rewrite stored_token.
      assert (truthy (of_item (Some (to_string token))) = true) as ->.
      { apply ApiFacts.truthy_of_item. exists (to_string token).
        split; [reflexivity|]. intros E. apply Hne. now apply ApiFacts.to_string_empty. }
      reflexivity.
Qed.

(** The signup handler of the modal sends the signup only when the two
    passwords are the same.  The handler of a form in the page sends it
    also when the confirmation is empty or the page has no such field,
    whatever the password; with a confirmation that is not empty the two
    handlers leave the same storage. *)
Theorem signup_submit_accepts_empty_confirmation
        (signup : string -> string -> string -> api_answer)
        (name email password confirmPassword : string) (st : storage) :
  (filter is_call (snd (modal_signup_submit signup name email password confirmPassword st))
   = (if String.eqb password confirmPassword
      then [CallSignup name email password] else []))
  /\ (filter is_call (snd (signup_submit signup name email password
                                         (Some confirmPassword) st))
      = (if String.eqb confirmPassword "" || String.eqb password confirmPassword
         then [CallSignup name email password] else []))
  /\ filter is_call (snd (signup_submit signup name email password None st))
     = [CallSignup name email password]
  /\ (confirmPassword <> "" ->
      fst (signup_submit signup name email password (Some confirmPassword) st)
      = fst (modal_signup_submit signup name email password confirmPassword st)).
Proof.
  unfold modal_signup_submit, signup_submit, store_answer, truthy.
  split; [|split; [|split]].
  - destruct (String.eqb password confirmPassword); cbn [negb]; [|reflexivity].
    destruct (signup name email password); reflexivity.
  - destruct (String.eqb confirmPassword ""); cbn [negb andb orb].
    + destruct (signup name email password); reflexivity.
    + destruct (String.eqb password confirmPassword); cbn [negb]; [|reflexivity].
      destruct (signup name email password); reflexivity.
  - cbn [andb]. destruct (signup name email password); reflexivity.
  - intros Hne. destruct (String.eqb_spec confirmPassword ""); [contradiction|].
    cbn [negb andb]. destruct (String.eqb password confirmPassword); cbn [negb];
      [|reflexivity].
    destruct (signup name email password); reflexivity.
Qed.

(** A confirmed [logout] removes the token and the user and leaves every
    other key, as [clearAuth] of api.js does; a logout that is not
    confirmed changes nothing.  After it [checkAuth] lets only the login
    page load and redirects every other page to it, and
    [generatePresentation] sends no request. *)
Theorem logout_confirmed_logs_out (st : storage) :
  let st' := fst (logout true st) in
  st' = Api.clearAuth st
  /\ getItem "token" st' = None
  /\ getItem "user" st' = None
  /\ (forall k, k <> "token" -> k <> "user" -> getItem k st' = getItem k st)
  /\ (forall currentPath,
        checkAuth st' currentPath
        = if is_login_page currentPath then (true, None) else (false, Some "/"))
  /\ (forall generate pg, token pg = getItem "token" st' ->
        filter is_fetch (generatePresentation generate pg) = [])
  /\ logout false st = (st, []).
Proof.
  cbv zeta. unfold logout. cbn [fst].
  assert (getItem "token" (removeItem "user" (removeItem "token" st)) = None) as Htoken.
  { rewrite ApiFacts.getItem_removeItem_other by discriminate.
    apply ApiFacts.getItem_removeItem_same. }
  split; [reflexivity|]. split; [exact Htoken|].
  split; [apply ApiFacts.getItem_removeItem_same|]. split; [|split; [|split]].
  - intros k Ht Hu. now rewrite !ApiFacts.getItem_removeItem_other.
  - intros currentPath. unfold checkAuth. rewrite Htoken. cbn [of_item truthy negb andb].
    destruct (is_login_page currentPath); reflexivity.
  - intros generate pg Hpg. unfold generatePresentation. rewrite Hpg, Htoken.
    destruct (promptInput pg) as [text|]; [|reflexivity].
    destruct (String.eqb (trim text) ""); reflexivity.
  - reflexivity.
Qed.


(** A login call that returns an object with no token. *)
Lemma login_submit_trusts_the_answer_witness :
  let st' := fst (login_submit ClientSamples.login_without_token "a@b.c" "pw" []) in
  getItem "token" st' = Some "undefined"
  /\ checkAuth st' "/dashboard" = (true, None).
Proof.
  cbv zeta.
  destruct (proj1 (proj2 (@login_submit_trusts_the_answer
                            ClientSamples.login_without_token "a@b.c" "pw" []))
                  JsUndefined None eq_refl) as (Htoken & _ & _ & _ & Hcheck).
  split; [exact Htoken|]. apply Hcheck. discriminate.
Defined.

End AuthFacts.

(* ================================================================== *)
(** * The keys of the tables of [init_db] are kept by every statement *)
(* ================================================================== *)

Module InitDbKeysFacts.

Import InitDb InitDbKeys.

Lemma set_title_keys (i : Z) (t : string) (p : presentation) :
  pres_id (set_title i t p) = pres_id p
  /\ pres_user_id (set_title i t p) = pres_user_id p.
Proof. unfold set_title. destruct (pres_id p =? i); split; reflexivity. Qed.

Lemma set_slide_keys (i n : Z) (t c : option string) (s : slide) :
  slide_id (set_slide i n t c s) = slide_id s
  /\ slide_presentation_id (set_slide i n t c s) = slide_presentation_id s.
Proof. unfold set_slide. destruct (slide_id s =? i); split; reflexivity. Qed.

Lemma set_email_key (i : Z) (e : string) (u : user) :
  user_id (set_email i e u) = user_id u.
Proof. unfold set_email. destruct (user_id u =? i); reflexivity. Qed.

Section Collation.

Variable key : string -> string.

(** The two foreign keys and the primary keys of presentations and slides
    hold after every statement that succeeds, if they held before: no
    statement leaves a presentation without its user or a slide without
    its presentation, and no id is given twice. *)
Theorem exec_stmt_keeps_keys (s : stmt) (d d' : db) (id : Z) :
  exec_stmt key s d = Ok (d', id) ->
  presentations_reference_users d ->
  slides_reference_presentations d ->
  primary_keys d ->
  presentations_reference_users d'
  /\ slides_reference_presentations d'
  /\ primary_keys d'.
Proof.
  unfold presentations_reference_users, slides_reference_presentations, primary_keys.
  intros Hexec Hpu Hsp [Hpk Hsk].
  destruct s as [n e p | i e | i | u t pr c | i t | i | pid num c | i num t c | i];
    cbn [exec_stmt] in Hexec.
  - (* INSERT INTO users *)
    destruct n as [n|], e as [e|], p as [p|]; try discriminate.
    destruct (email_taken key None e (users d)); [discriminate|].
    inversion Hexec; subst; clear Hexec. cbn [users presentations slides].
    split; [|split; [exact Hsp|split; assumption]].
    intros q Hq. destruct (Hpu q Hq) as (u & Hu & E).
    exists u. split; [apply in_or_app; now left|exact E].
  - (* UPDATE users SET email *)
    destruct (mem i (map user_id (users d)));
      [|inversion Hexec; subst; split; [exact Hpu|split; [exact Hsp|split; assumption]]].
    destruct e as [e|]; [|discriminate].
    destruct (email_taken key (Some i) e (users d)); [discriminate|].
    inversion Hexec; subst; clear Hexec. cbn [users presentations slides].
    split; [|split; [exact Hsp|split; assumption]].
    intros q Hq. destruct (Hpu q Hq) as (u & Hu & E).
    exists (set_email i e u). split; [now apply in_map|].
    now rewrite set_email_key.
  - (* DELETE FROM users *)
    inversion Hexec; subst; clear Hexec. cbn [users presentations slides].
    split; [|split; [|split; now apply InitDbFacts.filter_keeps_column_unique]].
    + intros q Hq. apply filter_In in Hq. destruct Hq as [Hq Hkeep].
      destruct (Hpu q Hq) as (u & Hu & E). exists u. split; [|exact E].
      apply filter_In. split; [exact Hu|].
      destruct (Z.eqb_spec (user_id u) i) as [Hi|]; [|reflexivity].
      exfalso. apply negb_true_iff, InitDbFacts.mem_false in Hkeep. apply Hkeep.
      apply filter_In. split.
      * rewrite <- E. now apply in_map.
      * rewrite <- E, Hi. apply Z.eqb_refl.
    + intros sl Hsl. apply filter_In in Hsl. destruct Hsl as [Hsl Hkeep].
      destruct (Hsp sl Hsl) as (q & Hq & E). exists q. split; [|exact E].
      apply filter_In. split; [exact Hq|].
      destruct (mem (pres_user_id q) (filter (Z.eqb i) (map user_id (users d))))
        eqn:Hgone; [|reflexivity].
      exfalso. apply negb_true_iff, InitDbFacts.mem_false in Hkeep. apply Hkeep.
      rewrite <- E. apply in_map, filter_In. split; [exact Hq|exact Hgone].
  - (* INSERT INTO presentations *)
    destruct u as [u|], t as [t|], pr as [pr|]; try discriminate.
    destruct (mem u (map user_id (users d))) eqn:Huser; [|discriminate].
    inversion Hexec; subst; clear Hexec. cbn [users presentations slides].
    split; [|split; [|split]].
    + intros q Hq. apply in_app_or in Hq. destruct Hq as [Hq|[<-|[]]];
        [now apply Hpu|].
      apply InitDbFacts.mem_In, in_map_iff in Huser.
      destruct Huser as (usr & E & Hu). exists usr. split; [exact Hu|exact E].
    + intros sl Hsl. destruct (Hsp sl Hsl) as (q & Hq & E).
      exists q. split; [apply in_or_app; now left|exact E].
    + rewrite map_app. cbn [map pres_id].
      apply InitDbFacts.NoDup_snoc; [exact Hpk|apply InitDbFacts.next_id_fresh].
    + exact Hsk.
  - (* UPDATE presentations SET title *)
    destruct (mem i (map pres_id (presentations d)));
      [|inversion Hexec; subst; split; [exact Hpu|split; [exact Hsp|split; assumption]]].
    destruct t as [t|]; [|discriminate].
    inversion Hexec; subst; clear Hexec. cbn [users presentations slides].
    split; [|split; [|split]].
    + intros q Hq. apply in_map_iff in Hq. destruct Hq as (q0 & <- & Hq0).
      destruct (Hpu q0 Hq0) as (u & Hu & E). exists u. split; [exact Hu|].
      now rewrite (proj2 (set_title_keys i t q0)).
    + intros sl Hsl. destruct (Hsp sl Hsl) as (q & Hq & E).
      exists (set_title i t q). split; [now apply in_map|].
      now rewrite (proj1 (set_title_keys i t q)).
    + rewrite map_map.
      rewrite (map_ext _ pres_id) by (intros q; apply set_title_keys). exact Hpk.
    + exact Hsk.
  - (* DELETE FROM presentations *)
    inversion Hexec; subst; clear Hexec. cbn [users presentations slides].
    split; [|split; [|split; now apply InitDbFacts.filter_keeps_column_unique]].
    + intros q Hq. apply filter_In in Hq. destruct Hq as [Hq _]. now apply Hpu.
    + intros sl Hsl. apply filter_In in Hsl. destruct Hsl as [Hsl Hkeep].
      destruct (Hsp sl Hsl) as (q & Hq & E). exists q. split; [|exact E].
      apply filter_In. split; [exact Hq|].
      destruct (Z.eqb_spec (pres_id q) i) as [Hi|]; [|reflexivity].
      exfalso. apply negb_true_iff, InitDbFacts.mem_false in Hkeep. apply Hkeep.
      apply filter_In. split.
      * rewrite <- E. now apply in_map.
      * rewrite <- E, Hi. apply Z.eqb_refl.
  - (* INSERT INTO slides *)
    destruct pid as [pid|], num as [num|]; try discriminate.
    destruct (mem pid (map pres_id (presentations d))) eqn:Hpres; [|discriminate].
    inversion Hexec; subst; clear Hexec. cbn [users presentations slides].
    split; [exact Hpu|]. split; [|split; [exact Hpk|]].
    + intros sl Hsl. apply in_app_or in Hsl. destruct Hsl as [Hsl|[<-|[]]];
        [now apply Hsp|].
      apply InitDbFacts.mem_In, in_map_iff in Hpres.
      destruct Hpres as (q & E & Hq). exists q. split; [exact Hq|exact E].
    + rewrite map_app. cbn [map slide_id].
      apply InitDbFacts.NoDup_snoc; [exact Hsk|apply InitDbFacts.next_id_fresh].
  - (* UPDATE slides *)
    destruct (mem i (map slide_id (slides d)));
      [|inversion Hexec; subst; split; [exact Hpu|split; [exact Hsp|split; assumption]]].
    destruct num as [num|]; [|discriminate].
    inversion Hexec; subst; clear Hexec. cbn [users presentations slides].
    split; [exact Hpu|]. split; [|split; [exact Hpk|]].
    + intros sl Hsl. apply in_map_iff in Hsl. destruct Hsl as (s0 & <- & Hs0).
      destruct (Hsp s0 Hs0) as (q & Hq & E). exists q. split; [exact Hq|].
      now rewrite (proj2 (set_slide_keys i num t c s0)).
    + rewrite map_map.
      rewrite (map_ext _ slide_id) by (intros q; apply set_slide_keys). exact Hsk.
  - (* DELETE FROM slides *)
    inversion Hexec; subst; clear Hexec. cbn [users presentations slides].
    split; [exact Hpu|]. split; [|split; [exact Hpk|]].
    + intros sl Hsl. apply filter_In in Hsl. destruct Hsl as [Hsl _]. now apply Hsp.
    + now apply InitDbFacts.filter_keeps_column_unique.
Qed.

End Collation.

(** Deleting Ann's deck from the sample store. *)
Lemma exec_stmt_keeps_keys_witness :
  let d' := Samples.after (DeletePresentation 1) Samples.store in
  exec_stmt Samples.ascii_ci (DeletePresentation 1) Samples.store = Ok (d', 0)
  /\ presentations_reference_users Samples.store
  /\ slides_reference_presentations Samples.store
  /\ primary_keys Samples.store
  /\ presentations_reference_users d'
  /\ slides_reference_presentations d'
  /\ primary_keys d'.
Proof.
  intros d'.
  assert (exec_stmt Samples.ascii_ci (DeletePresentation 1) Samples.store = Ok (d', 0))
    as Hexec by reflexivity.
  assert (presentations_reference_users Samples.store) as Hpu.
  { intros p Hp. simpl in Hp.
    destruct Hp as [<-|[<-|[]]]; [exists Samples.ann|exists Samples.bob];
      split; simpl; auto. }
  assert (slides_reference_presentations Samples.store) as Hsp.
  { intros s Hs. simpl in Hs.
    destruct Hs as [<-|[<-|[<-|[]]]];
      [exists (Samples.deck 1 1 "Climate")|exists (Samples.deck 1 1 "Climate")
      |exists (Samples.deck 2 2 "Budget")]; split; simpl; auto. }
  assert (primary_keys Samples.store) as Hpk.
  { split; simpl;
      repeat (constructor; [simpl; intros H; repeat (destruct H as [H|H]; [discriminate H|]); exact H|]);
      constructor. }
  split; [exact Hexec|]. split; [exact Hpu|]. split; [exact Hsp|]. split; [exact Hpk|].
  exact (@exec_stmt_keeps_keys Samples.ascii_ci _ _ _ _ Hexec Hpu Hsp Hpk).
Defined.

End InitDbKeysFacts.

(* ================================================================== *)
(** * Properties of start.sh *)
(* ================================================================== *)

Module StartShFacts.

Import StartSh.

(** start.sh starts the server exactly when the file .env is there at the
    start.  Without it the run copies the template, exits with status 1 and
    starts nothing; the next run then starts the server, provided there was
    a template to copy. *)
Theorem start_sh_needs_dot_env (venv_created : bool) (run_py : Z) (fs : files) :
  let run := start_sh venv_created run_py fs in
  (In RunPy (commands_of run) <-> dot_env fs = true)
  /\ (dot_env fs = false ->
      exit_status run = 1
      /\ In CopyEnvExample (commands_of run)
      /\ dot_env (files_after run) = dot_env_example fs
      /\ forall venv_created' run_py',
           In RunPy (commands_of (start_sh venv_created' run_py' (files_after run)))
           <-> dot_env_example fs = true)
  /\ (dot_env fs = true -> exit_status run = run_py /\ dot_env (files_after run) = true).
Proof.
  cbv zeta. unfold start_sh, commands_of, exit_status, files_after.
  destruct fs as [v e x]. cbn [venv dot_env dot_env_example].
  destruct v, e; cbn [negb fst snd venv dot_env dot_env_example app].
  - split; [split; [reflexivity|simpl; tauto]|]. split; [discriminate|]. now intros _.
  - split; [split; [simpl; intros [H|[H|[]]]; discriminate|discriminate]|].
    split; [|discriminate]. intros _. split; [reflexivity|]. split; [simpl; tauto|].
    split; [reflexivity|]. intros v' r'. destruct x; cbn [negb fst snd app].
    + split; [reflexivity|simpl; tauto].
    + split; [simpl; intros [H|[H|[]]]; discriminate|discriminate].
  - split; [split; [reflexivity|simpl; tauto]|]. split; [discriminate|]. now intros _.
  - split; [split; [simpl; intros [H|[H|[H|[]]]]; discriminate|discriminate]|].
    split; [|discriminate]. intros _. split; [reflexivity|]. split; [simpl; tauto|].
    split; [reflexivity|]. intros v' r'.
    destruct x, venv_created; cbn [negb fst snd app venv dot_env].
    + split; [reflexivity|simpl; tauto].
    + split; [reflexivity|simpl; tauto].
    + split; [simpl; intros [H|[H|[]]]; discriminate|discriminate].
    + split; [simpl; intros [H|[H|[H|[]]]]; discriminate|discriminate].
Qed.


(** A fresh checkout: the first run stops after the copy, the second
    starts the server. *)
Lemma start_sh_needs_dot_env_witness :
  exit_status (start_sh true 0 ClientSamples.fresh_checkout) = 1
  /\ In RunPy (commands_of
                 (start_sh true 0
                    (files_after (start_sh true 0 ClientSamples.fresh_checkout)))).
Proof.
  destruct (proj1 (proj2 (@start_sh_needs_dot_env true 0 ClientSamples.fresh_checkout))
                  eq_refl) as (Hexit & _ & _ & Hnext).
  split; [exact Hexit|]. apply Hnext. reflexivity.
Defined.

End StartShFacts.
